(** * Ganamás: the balance and referral-bonus accounting core

    A shallow embedding of the Express route handlers that move money.
    The route files of the backend are read as they are laid out under
    [src/backend/routes]:

    - [completeTask]          POST /:taskId/complete, referrals.js lines 189-260
    - [checkReferralBonuses]  the referral engine it calls, referrals.js lines 262-342
    - [updateBalance]         POST /balance/update, users.js lines 104-153
    - [requestWithdrawal]     POST / of the withdrawals router, users.js lines 188-274
    - [calculateFee]          POST /calculate-fee, users.js lines 308-333

    Tables that the handlers address by primary key, with [.eq('id', ...)],
    are finite maps from the key; insert-only tables are lists in insertion
    order.  Every [await supabase...] is one round trip to the store and may
    be healthy, come back with an [error], or reject; the handlers are
    written in a small state-and-exception monad so that the [try]/[catch]
    blocks of the source are visible.

    A JavaScript Number is a binary64; the one place where the handlers
    compute with a fraction, [Math.round(amount * 0.10)], is evaluated
    with the binary64 operations of [SpecFloat].

    Not modelled: timestamp columns ([updated_at], [completed_at]) and
    columns generated by the database, pagination and the listing routes,
    the notifications router. *)

From Stdlib Require Import ZArith QArith Qround Lia.
From Stdlib Require Import Floats.SpecFloat.
From stdpp Require Import base gmap strings list fin_maps.

Local Open Scope Z_scope.

(** ** Rows *)

Abbreviation Id := string.

Record User := mkUser {
  balance : Z;
  total_earnings : Z;
  tasks_completed : Z;
  referred_by : option Id }.

Record Task := mkTask {
  reward : Z;
  status : string }.

Record UserTask := mkUserTask {
  ut_user_id : Id;
  ut_task_id : Id;
  ut_status : string;
  ut_reward_amount : Z }.

Record Referral := mkReferral {
  referrer_id : Id;
  referred_id : Id;
  bonus_earned : Z;
  rf_tasks_completed : Z }.

Record Transaction := mkTransaction {
  tx_user_id : Id;
  tx_amount : Z;
  tx_type : string;
  tx_description : string;
  tx_status : string }.

Record Withdrawal := mkWithdrawal {
  wd_user_id : Id;
  wd_amount : Z;
  wd_method : string;
  wd_account_info : string;
  wd_fee : Z;
  wd_net_amount : Z;
  wd_status : string }.

(** The message of a notification is a template literal around one number
    rendered with [toLocaleString()]; the text and the number are kept
    apart because the rendering depends on the locale. *)
Record Notification := mkNotification {
  nt_user_id : Id;
  nt_title : string;
  nt_message : string;
  nt_message_amount : Z;
  nt_type : string }.

#[global] Instance User_eq_dec : EqDecision User.
Proof. solve_decision. Defined.
#[global] Instance Task_eq_dec : EqDecision Task.
Proof. solve_decision. Defined.
#[global] Instance UserTask_eq_dec : EqDecision UserTask.
Proof. solve_decision. Defined.
#[global] Instance Referral_eq_dec : EqDecision Referral.
Proof. solve_decision. Defined.

(** ** The world: the store, the faults still to come, the console *)

(** What the next round trip to the store does. *)
Inductive Fault :=
| Healthy   (* the statement runs *)
| Fails     (* the client resolves to { data: null, error } *)
| Throws.   (* the awaited promise rejects *)

Record World := mkWorld {
  users : gmap Id User;
  tasks : gmap Id Task;
  user_tasks : list UserTask;
  referrals : gmap Id Referral;
  transactions : list Transaction;
  withdrawals : list Withdrawal;
  notifications : list Notification;
  pending : list Fault;      (* an exhausted schedule means no fault *)
  console : list string }.   (* what console.error printed *)

Definition with_users (f : gmap Id User → gmap Id User) (w : World) : World :=
  mkWorld (f (users w)) (tasks w) (user_tasks w) (referrals w)
    (transactions w) (withdrawals w) (notifications w) (pending w) (console w).

Definition with_user_tasks (f : list UserTask → list UserTask) (w : World) : World :=
  mkWorld (users w) (tasks w) (f (user_tasks w)) (referrals w)
    (transactions w) (withdrawals w) (notifications w) (pending w) (console w).

Definition with_referrals (f : gmap Id Referral → gmap Id Referral) (w : World) : World :=
  mkWorld (users w) (tasks w) (user_tasks w) (f (referrals w))
    (transactions w) (withdrawals w) (notifications w) (pending w) (console w).

Definition with_transactions (f : list Transaction → list Transaction) (w : World) : World :=
  mkWorld (users w) (tasks w) (user_tasks w) (referrals w)
    (f (transactions w)) (withdrawals w) (notifications w) (pending w) (console w).

Definition with_withdrawals (f : list Withdrawal → list Withdrawal) (w : World) : World :=
  mkWorld (users w) (tasks w) (user_tasks w) (referrals w)
    (transactions w) (f (withdrawals w)) (notifications w) (pending w) (console w).

Definition with_notifications (f : list Notification → list Notification) (w : World) : World :=
  mkWorld (users w) (tasks w) (user_tasks w) (referrals w)
    (transactions w) (withdrawals w) (f (notifications w)) (pending w) (console w).

Definition with_pending (fs : list Fault) (w : World) : World :=
  mkWorld (users w) (tasks w) (user_tasks w) (referrals w)
    (transactions w) (withdrawals w) (notifications w) fs (console w).

Definition with_console (f : list string → list string) (w : World) : World :=
  mkWorld (users w) (tasks w) (user_tasks w) (referrals w)
    (transactions w) (withdrawals w) (notifications w) (pending w) (f (console w)).

(** ** Async code: state and exceptions *)

Inductive Exn :=
| StoreError       (* [throw error] on an error object of the client *)
| Rejected.        (* a rejected promise *)

Inductive Completion (A : Type) :=
| Normal (a : A)
| Thrown (e : Exn).
Arguments Normal {A} a.
Arguments Thrown {A} e.

Definition M (A : Type) : Type := World → World * Completion A.

Definition ret {A} (a : A) : M A := λ w, (w, Normal a).

Definition bind {A B} (m : M A) (k : A → M B) : M B :=
  λ w, match m w with
       | (w', Normal a) => k a w'
       | (w', Thrown e) => (w', Thrown e)
       end.

Definition throw {A} (e : Exn) : M A := λ w, (w, Thrown e).

(** [try { body } catch (error) { handler }] *)
Definition try_catch {A} (body : M A) (handler : Exn → M A) : M A :=
  λ w, match body w with
       | (w', Normal a) => (w', Normal a)
       | (w', Thrown e) => handler e w'
       end.

(** stdpp's monad notations: [x ← m; k] awaits [m] and goes on with [k]. *)
#[global] Instance M_ret : MRet M := @ret.
#[global] Instance M_bind : MBind M := λ A B k m, bind m k.

Definition console_error (label : string) : M unit :=
  λ w, (with_console (λ c, c ++ [label]) w, Normal tt).

(** ** The store client *)

(** What an awaited statement resolves to: [{ data, error }]. *)
Record Reply (A : Type) := mkReply {
  data : option A;
  error : bool }.
Arguments mkReply {A} data error.
Arguments data {A} r.
Arguments error {A} r.

(** [.single()]: an error unless exactly one row matches. *)
Definition single {A} (rows : list A) : Reply A :=
  match rows with
  | [row] => mkReply (Some row) false
  | _ => mkReply None true
  end.

Definition next_fault : M Fault :=
  λ w, match pending w with
       | [] => (w, Normal Healthy)
       | f :: fs => (with_pending fs w, Normal f)
       end.

Definition execute {A} (statement : World → World * Reply A) : M (Reply A) :=
  λ w, let (w', r) := statement w in (w', Normal r).

(** Modelled from the spec: the client module [../config/supabase] is not
    among the sources.  Its interface is the one the handlers use and
    section 6 of the specification asks for: point lookup and update of a
    row by identifier, insert, lookup of a referral by its pair, and
    [supabase.sql`column + ${x}`], an update expression that the store
    evaluates on the row it updates (an atomic increment).  One awaited
    statement is one round trip: it runs on the store, or resolves to an
    error without effect, or rejects. *)
Definition round_trip {A} (statement : World → World * Reply A) : M (Reply A) :=
  f ← next_fault;
  match f with
  | Healthy => execute statement
  | Fails => ret (mkReply None true)
  | Throws => throw Rejected
  end.

(** [from('tasks').select('*').eq('id', taskId).eq('status', 'active')] *)
Definition active_task_rows (taskId : Id) (w : World) : list Task :=
  match tasks w !! taskId with
  | Some task => if decide (status task = "active") then [task] else []
  | None => []
  end.

Definition select_active_task (taskId : Id) : M (Reply Task) :=
  round_trip (λ w, (w, single (active_task_rows taskId w))).

(** [from('user_tasks').select('id').eq('user_id', userId).eq('task_id', taskId)] *)
Definition user_task_rows (userId taskId : Id) (w : World) : list UserTask :=
  filter (λ row, ut_user_id row = userId ∧ ut_task_id row = taskId) (user_tasks w).

Definition select_user_task (userId taskId : Id) : M (Reply UserTask) :=
  round_trip (λ w, (w, single (user_task_rows userId taskId w))).

Definition insert_user_task (row : UserTask) : M (Reply UserTask) :=
  round_trip (λ w, (with_user_tasks (λ rows, rows ++ [row]) w, mkReply (Some row) false)).

(** [from('users').select(...).eq('id', userId).single()] *)
Definition select_user (userId : Id) : M (Reply User) :=
  round_trip (λ w, (w, single (option_list (users w !! userId)))).

(** [from('users').update(set).eq('id', userId)] *)
Definition update_user (userId : Id) (set : User → User) : M (Reply unit) :=
  round_trip (λ w, (with_users (alter set userId) w, mkReply None false)).

(** [from('users').update(set).eq('id', userId).select(...).single()] *)
Definition update_user_returning (userId : Id) (set : User → User) : M (Reply User) :=
  round_trip (λ w,
    let w' := with_users (alter set userId) w in
    (w', single (option_list (users w' !! userId)))).

(** [from('referrals').select('*').eq('referrer_id', r).eq('referred_id', u)];
    a row comes with its [id]. *)
Definition referral_rows (referrerId userId : Id) (w : World) : list (Id * Referral) :=
  map_to_list
    (filter (λ row, referrer_id row.2 = referrerId ∧ referred_id row.2 = userId)
       (referrals w)).

Definition select_referral (referrerId userId : Id) : M (Reply (Id * Referral)) :=
  round_trip (λ w, (w, single (referral_rows referrerId userId w))).

(** [from('referrals').update(set).eq('id', id)] *)
Definition update_referral (id : Id) (set : Referral → Referral) : M (Reply unit) :=
  round_trip (λ w, (with_referrals (alter set id) w, mkReply None false)).

Definition insert_notification (row : Notification) : M (Reply unit) :=
  round_trip (λ w, (with_notifications (λ rows, rows ++ [row]) w, mkReply None false)).

Definition insert_transaction (row : Transaction) : M (Reply unit) :=
  round_trip (λ w, (with_transactions (λ rows, rows ++ [row]) w, mkReply None false)).

Definition insert_withdrawal (row : Withdrawal) : M (Reply Withdrawal) :=
  round_trip (λ w, (with_withdrawals (λ rows, rows ++ [row]) w, mkReply (Some row) false)).

(** ** Request bodies and responses *)

(** A field of a JSON body may be absent; [!field] also holds for [0] and
    for the empty string. *)
Definition truthy_number (v : option Z) : bool :=
  match v with
  | Some n => negb (n =? 0)
  | None => false
  end.

Definition truthy_string (v : option string) : bool :=
  match v with
  | Some s => negb (bool_decide (s = ""))
  | None => false
  end.

Inductive Payload :=
| Error (error : string)
| MissingFields (error : string) (required : list string)
| MinimumError (minimum : Z)     (* `... amount is COP ${MINIMUM_WITHDRAWAL.toLocaleString()}` *)
| TaskCompleted (message : string) (reward : Z) (userTask : option UserTask)
| BalanceUpdated (message : string) (balance total_earnings : option Z)
| WithdrawalCreated (message : string) (withdrawal : option Withdrawal)
| FeeQuote (amount fee net_amount : Z) (fee_percentage : Q).

Record Response := mkResponse {
  http_status : Z;
  payload : Payload }.

(** [res.json(body)] answers 200. *)
Definition json (body : Payload) : Response := mkResponse 200 body.

(** The frame of every route:
    [try { ... } catch (error) { console.error(label, error); res.status(500).json({ error: message }) }] *)
Definition route (label message : string) (body : M Response) : M Response :=
  try_catch body
    (λ _, console_error label;; ret (mkResponse 500 (Error message))).

(** ** Referral bonus engine: [checkReferralBonuses], referrals.js lines 262-342 *)

(** The milestone chain of [checkReferralBonuses]:
    [bonusAmount] and [bonusDescription] after the [if]/[else if] ladder. *)
Definition milestone (tasksCompleted snapshot : Z) : Z * string :=
  if (tasksCompleted =? 3) && (snapshot <? 3) then
    (5000, "Bono por 3 tareas completadas del referido")
  else if (tasksCompleted =? 7) && (snapshot <? 7) then
    (4000, "Bono adicional por 7 tareas completadas del referido")
  else if (tasksCompleted =? 15) && (snapshot <? 15) then
    (8000, "Bono extra por 15 tareas completadas del referido")
  else (0, "").

Definition credit_bonus (bonusAmount : Z) (u : User) : User :=
  mkUser (balance u + bonusAmount) (total_earnings u + bonusAmount)
    (tasks_completed u) (referred_by u).

Definition record_bonus (bonusAmount tasksCompleted : Z) (r : Referral) : Referral :=
  mkReferral (referrer_id r) (referred_id r) (bonus_earned r + bonusAmount) tasksCompleted.

Definition record_count (tasksCompleted : Z) (r : Referral) : Referral :=
  mkReferral (referrer_id r) (referred_id r) (bonus_earned r) tasksCompleted.

Definition checkReferralBonuses_body (userId : Id) : M unit :=
  u ← select_user userId;
  match data u with
  | None => ret tt
  | Some user =>
    match referred_by user with
    | None => ret tt
    | Some referrerId =>
      if bool_decide (referrerId = "") then ret tt else
      let tasksCompleted := tasks_completed user in
      r ← select_referral referrerId userId;
      match data r with
      | None => ret tt
      | Some (referral_id, referral) =>
        let bonusAmount := (milestone tasksCompleted (rf_tasks_completed referral)).1 in
        if 0 <? bonusAmount then
          update_user referrerId (credit_bonus bonusAmount);;
          update_referral referral_id (record_bonus bonusAmount tasksCompleted);;
          insert_notification
            (mkNotification referrerId "¡Nuevo bono de referido!"
               "Has ganado COP ${bonusAmount} por las tareas completadas de tu referido."
               bonusAmount "success");;
          ret tt
        else
          update_referral referral_id (record_count tasksCompleted);;
          ret tt
      end
    end
  end.

Definition checkReferralBonuses (userId : Id) : M unit :=
  try_catch (checkReferralBonuses_body userId)
    (λ _, console_error "Referral bonus check error:").

(** ** Task completion: POST /:taskId/complete, referrals.js lines 189-260 *)

Definition pay_reward (amount : Z) (u : User) : User :=
  mkUser (balance u + amount) (total_earnings u + amount)
    (tasks_completed u + 1) (referred_by u).

Definition completeTask (userId taskId : Id) : M Response :=
  route "Complete task error:" "Failed to complete task"
    (t ← select_active_task taskId;
     match error t, data t with
     | false, Some task =>
       existingUserTask ← select_user_task userId taskId;
       match data existingUserTask with
       | Some _ => ret (mkResponse 400 (Error "Task already completed"))
       | None =>
         ut ← insert_user_task (mkUserTask userId taskId "completed" (reward task));
         if error ut then throw StoreError else
         update_user userId (pay_reward (reward task));;
         checkReferralBonuses userId;;
         ret (json (TaskCompleted "Task completed successfully" (reward task) (data ut)))
       end
     | _, _ => ret (mkResponse 404 (Error "Task not found or inactive"))
     end).

(** ** Withdrawals: POST / and POST /calculate-fee, users.js lines 161-333 *)

Definition MINIMUM_WITHDRAWAL : Z := 25000.
Definition WITHDRAWAL_FEE_PERCENTAGE : Q := 1 # 10.

(** *** Numbers

    A Number is a binary64 of IEEE 754: 53 bits of mantissa, exponents up
    to 1024.  [S754_finite s m e] stands for the rational [(-1)^s * m * 2^e].
    The amounts of the requests are integer Numbers; the comparisons of
    Numbers, and the sums and differences of integers below [2 ^ 53], are
    exact and are written on [Z]. *)
Definition prec : Z := 53.
Definition emax : Z := 1024.
Definition Number : Type := spec_float.

(** The Number of an integer, as [JSON.parse] and an integer literal give
    it: the integer itself up to [2 ^ 53], the nearest binary64 beyond. *)
Definition Number_of_Z (n : Z) : Number := binary_normalize prec emax n 0 false.

(** The Number of a decimal literal such as [0.10]: the binary64 nearest to
    the fraction, which is the correctly rounded quotient of its
    numerator and denominator. *)
Definition Number_of_literal (x : Q) : Number :=
  SFdiv prec emax (Number_of_Z (Qnum x)) (Number_of_Z (Zpos (Qden x))).

(** [x * y] on Numbers: the product rounded to the nearest binary64, a tie
    going to the even mantissa. *)
Definition Number_mul (x y : Number) : Number := SFmul prec emax x y.

(** The rational a finite Number stands for.  NaN and the infinities have
    none; no amount below [2 ^ 1024] reaches them, and they are given 0. *)
Definition Number_value (x : Number) : Q :=
  match x with
  | S754_finite s m (Zneg p) => cond_Zopp s (Zpos m) # 2 ^ p
  | S754_finite s m e => inject_Z (cond_Zopp s (Zpos m) * 2 ^ e)
  | _ => 0%Q
  end.

(** [Math.round(x)]: the integer nearest to the Number [x], a tie going up;
    on the value of a Number this is exact. *)
Definition Math_round (x : Number) : Z := Qfloor (Number_value x + (1 # 2))%Q.

(** What [k] shifts to the right leave of a mantissa [m] in the rounding of
    [SpecFloat]: the quotient, and in the two flags where the remainder
    stands against half of [2 ^ k]. *)
Definition shifted (m k : Z) (r : shr_record) : Prop :=
  shr_m r = m / 2 ^ k
  ∧ (shr_r r = true ↔ 2 ^ k ≤ 2 * (m mod 2 ^ k))
  ∧ (shr_s r = true ↔ m mod 2 ^ k ≠ 0 ∧ 2 * (m mod 2 ^ k) ≠ 2 ^ k).

(** Modelled from the spec: section 4.4 writes the fee policy as
    [round(amount × 0.10)], a function of the amount.  [round_tenth] is that
    function on the rationals: the integer nearest to a tenth of the amount,
    a tie going up. *)
Definition round_tenth (amount : Z) : Z := Qfloor (inject_Z amount * (1 # 10) + (1 # 2))%Q.

Record WithdrawalRequest := mkWithdrawalRequest {
  wr_amount : option Z;
  wr_method : option string;
  wr_account_info : option string }.

Definition debit (amount : Z) (u : User) : User :=
  mkUser (balance u - amount) (total_earnings u) (tasks_completed u) (referred_by u).

Definition requestWithdrawal (userId : Id) (body : WithdrawalRequest) : M Response :=
  route "Create withdrawal error:" "Failed to create withdrawal request"
    (match wr_amount body, wr_method body, wr_account_info body with
     | Some amount, Some method, Some account_info =>
       if negb (truthy_number (Some amount)) || negb (truthy_string (Some method))
          || negb (truthy_string (Some account_info)) then
         ret (mkResponse 400
                (MissingFields "Missing required fields" ["amount"; "method"; "account_info"]))
       else if negb (bool_decide (method ∈ ["paypal"; "nequi"])) then
         ret (mkResponse 400 (Error "Invalid withdrawal method"))
       else if amount <? MINIMUM_WITHDRAWAL then
         ret (mkResponse 400 (MinimumError MINIMUM_WITHDRAWAL))
       else
         u ← select_user userId;
         match data u with
         | None => ret (mkResponse 400 (Error "Insufficient balance"))
         | Some user =>
           if balance user <? amount then
             ret (mkResponse 400 (Error "Insufficient balance"))
           else
             let fee :=
               Math_round (Number_mul (Number_of_Z amount)
                             (Number_of_literal WITHDRAWAL_FEE_PERCENTAGE)) in
             let netAmount := amount - fee in
             wd ← insert_withdrawal
                     (mkWithdrawal userId amount method account_info fee netAmount "pending");
             if error wd then throw StoreError else
             update_user userId (debit amount);;
             insert_notification
               (mkNotification userId "Solicitud de retiro recibida"
                  "Tu solicitud de retiro por COP ${amount} ha sido recibida y está siendo procesada."
                  amount "info");;
             ret (mkResponse 201
                    (WithdrawalCreated "Withdrawal request created successfully" (data wd)))
         end
     | _, _, _ =>
       ret (mkResponse 400
              (MissingFields "Missing required fields" ["amount"; "method"; "account_info"]))
     end).

Definition calculateFee (amount : option Z) : M Response :=
  route "Calculate fee error:" "Failed to calculate withdrawal fee"
    (match amount with
     | Some amount =>
       if negb (truthy_number (Some amount)) || (amount <? MINIMUM_WITHDRAWAL) then
         ret (mkResponse 400 (MinimumError MINIMUM_WITHDRAWAL))
       else
         let fee :=
           Math_round (Number_mul (Number_of_Z amount)
                         (Number_of_literal WITHDRAWAL_FEE_PERCENTAGE)) in
         let netAmount := amount - fee in
         ret (json (FeeQuote amount fee netAmount
                      (Number_value
                         (Number_mul (Number_of_literal WITHDRAWAL_FEE_PERCENTAGE)
                            (Number_of_Z 100)))))
     | None => ret (mkResponse 400 (MinimumError MINIMUM_WITHDRAWAL))
     end).

(** ** Balance update: POST /balance/update, users.js lines 104-153 *)

Record BalanceRequest := mkBalanceRequest {
  br_amount : option Z;
  br_type : option string;       (* 'add' or 'subtract' *)
  br_description : option string }.

Definition apply_change (type : string) (amount balanceChange : Z) (u : User) : User :=
  mkUser (balance u + balanceChange)
    (if bool_decide (type = "add") then total_earnings u + amount else total_earnings u)
    (tasks_completed u) (referred_by u).

Definition updateBalance (userId : Id) (body : BalanceRequest) : M Response :=
  route "Update balance error:" "Failed to update balance"
    (match br_amount body, br_type body with
     | Some amount, Some type =>
       if negb (truthy_number (Some amount)) || negb (truthy_string (Some type)) then
         ret (mkResponse 400 (Error "Amount and type are required"))
       else
         let balanceChange := if bool_decide (type = "add") then amount else - amount in
         u ← update_user_returning userId (apply_change type amount balanceChange);
         if error u then throw StoreError else
         insert_transaction
           (mkTransaction userId balanceChange type
              (if truthy_string (br_description body)
               then default "" (br_description body)
               else "Balance " +:+ type)
              "completed");;
         ret (json (BalanceUpdated "Balance updated successfully"
                      (balance <$> data u) (total_earnings <$> data u)))
     | _, _ => ret (mkResponse 400 (Error "Amount and type are required"))
     end).

(** ** Sequences of requests *)

Inductive Op :=
| CompleteTask (userId taskId : Id)
| RequestWithdrawal (userId : Id) (body : WithdrawalRequest)
| UpdateBalance (userId : Id) (body : BalanceRequest).

Definition handle (op : Op) : M Response :=
  match op with
  | CompleteTask userId taskId => completeTask userId taskId
  | RequestWithdrawal userId body => requestWithdrawal userId body
  | UpdateBalance userId body => updateBalance userId body
  end.

Definition step (w : World) (op : Op) : World := (handle op w).1.

Definition run (ops : list Op) (w : World) : World := foldl step w ops.

(** ** Vocabulary of the statements *)

(** The fault of the next round trip and the world once it is consumed. *)
Definition next (w : World) : Fault := default Healthy (head (pending w)).
Definition drain (w : World) : World := with_pending (tail (pending w)) w.

(** The next [n] round trips are healthy. *)
Definition healthy_for (n : nat) (w : World) : Prop :=
  Forall (λ f, f = Healthy) (take n (pending w)).

(** What one evaluation of [checkReferralBonuses userId] may do to the
    store, whatever the faults: at most one credit of [b] to the referrer
    and at most one update of one referral row, where [b] is [0] or the
    amount of the milestone chain at the user's count. *)
Definition engine_effect (userId : Id) (w w' : World) : Prop :=
  tasks w' = tasks w ∧ user_tasks w' = user_tasks w
  ∧ transactions w' = transactions w ∧ withdrawals w' = withdrawals w
  ∧ (pending w = [] → pending w' = [])
  ∧ ∃ b c : Z,
      (b = 0 ∨ ∃ user snap, users w !! userId = Some user
                 ∧ b = (milestone (tasks_completed user) snap).1)
      ∧ (users w' = users w
         ∨ ∃ user r, users w !! userId = Some user ∧ referred_by user = Some r
             ∧ users w' = alter (credit_bonus b) r (users w))
      ∧ (referrals w' = referrals w
         ∨ ∃ rid, referrals w' = alter (record_bonus b c) rid (referrals w)
                ∨ referrals w' = alter (record_count c) rid (referrals w)).

(** Modelled from the spec: the schema of [user_tasks] is not among the
    sources.  Section 4.3 and section 6 of the specification put a
    uniqueness constraint on (user, task) at the storage layer: at most one
    completion per pair. *)
Definition user_tasks_unique (w : World) : Prop :=
  ∀ userId taskId, (length (user_task_rows userId taskId w) ≤ 1)%nat.

(** Sums over the tables, per user. *)
Definition total {A} (f : A → Z) (rows : list A) : Z :=
  foldr (λ row acc, f row + acc) 0 rows.

Definition transactions_sum (userId : Id) (w : World) : Z :=
  total tx_amount (filter (λ row, tx_user_id row = userId) (transactions w)).

Definition rewards_sum (userId : Id) (w : World) : Z :=
  total ut_reward_amount (filter (λ row, ut_user_id row = userId) (user_tasks w)).

Definition withdrawals_sum (userId : Id) (w : World) : Z :=
  total wd_amount (filter (λ row, wd_user_id row = userId) (withdrawals w)).

Definition bonus_of (userId : Id) (r : Referral) : Z :=
  if decide (referrer_id r = userId) then bonus_earned r else 0.

Definition bonuses_sum (userId : Id) (w : World) : Z :=
  map_fold (λ _ r acc, bonus_of userId r + acc) 0 (referrals w).

Definition balance_of (userId : Id) (w : World) : Z :=
  default 0 (balance <$> users w !! userId).

(** The invariant of section 3 of the specification. *)
Definition balance_is_transactions_sum (w : World) : Prop :=
  ∀ userId user, users w !! userId = Some user →
    balance user = transactions_sum userId w.

(** What the handlers keep instead: every table that records a movement
    of money counts. *)
Definition ledger (userId : Id) (w : World) : Z :=
  transactions_sum userId w + rewards_sum userId w + bonuses_sum userId w
  - withdrawals_sum userId w.

(** The rows an accepted withdrawal and an applied balance update insert. *)
Definition withdrawal_row (userId : Id) (amount : Z) (method account_info : string)
    : Withdrawal :=
  mkWithdrawal userId amount method account_info
    (Math_round (Number_mul (Number_of_Z amount)
                   (Number_of_literal WITHDRAWAL_FEE_PERCENTAGE)))
    (amount - Math_round (Number_mul (Number_of_Z amount)
                            (Number_of_literal WITHDRAWAL_FEE_PERCENTAGE)))
    "pending".

Definition withdrawal_notice (userId : Id) (amount : Z) : Notification :=
  mkNotification userId "Solicitud de retiro recibida"
    "Tu solicitud de retiro por COP ${amount} ha sido recibida y está siendo procesada."
    amount "info".

Definition balance_change (type : string) (amount : Z) : Z :=
  if bool_decide (type = "add") then amount else - amount.

Definition transaction_row (userId : Id) (body : BalanceRequest) (type : string)
    (amount : Z) : Transaction :=
  mkTransaction userId (balance_change type amount) type
    (if truthy_string (br_description body)
     then default "" (br_description body)
     else "Balance " +:+ type)
    "completed".

(** ** What a request does to a healthy store *)

(** One evaluation of the engine for [userId]: nothing, a new snapshot, or
    a bonus with its credit, its record and its notification. *)
Inductive engine_moves (userId : Id) (w : World) : World → Prop :=
| engine_idle :
    engine_moves userId w w
| engine_count (r rid : Id) (referral : Referral) (c : Z) :
    referral_rows r userId w = [(rid, referral)] →
    engine_moves userId w (with_referrals (alter (record_count c) rid) w)
| engine_bonus (r rid : Id) (referral : Referral) (user : User) (b : Z)
      (note : Notification) :
    users w !! userId = Some user →
    referral_rows r userId w = [(rid, referral)] →
    b = (milestone (tasks_completed user) (rf_tasks_completed referral)).1 →
    0 < b →
    engine_moves userId w
      (with_notifications (λ rows, rows ++ [note])
         (with_referrals (alter (record_bonus b (tasks_completed user)) rid)
            (with_users (alter (credit_bonus b) r) w))).

(** One request, by what was asked. *)
Inductive request_moves (w : World) : Op → World → Prop :=
| moves_nothing (op : Op) :
    request_moves w op w
| moves_completion (userId taskId : Id) (amount : Z) (w' : World) :
    data (single (user_task_rows userId taskId w)) = None →
    engine_moves userId
      (with_users (alter (pay_reward amount) userId)
         (with_user_tasks
            (λ rows, rows ++ [mkUserTask userId taskId "completed" amount]) w))
      w' →
    request_moves w (CompleteTask userId taskId) w'
| moves_withdrawal (userId : Id) (body : WithdrawalRequest) (user : User)
      (row : Withdrawal) (note : Notification) :
    users w !! userId = Some user →
    wd_user_id row = userId →
    request_moves w (RequestWithdrawal userId body)
      (with_notifications (λ rows, rows ++ [note])
         (with_users (alter (debit (wd_amount row)) userId)
            (with_withdrawals (λ rows, rows ++ [row]) w)))
| moves_balance (userId : Id) (body : BalanceRequest) (user : User)
      (type : string) (amount : Z) (row : Transaction) :
    users w !! userId = Some user →
    tx_user_id row = userId →
    request_moves w (UpdateBalance userId body)
      (with_transactions (λ rows, rows ++ [row])
         (with_users (alter (apply_change type amount (tx_amount row)) userId) w))
| moves_balance_missing (userId : Id) (body : BalanceRequest) (set : User → User)
      (line : string) :
    users w !! userId = None →
    request_moves w (UpdateBalance userId body)
      (with_console (λ c, c ++ [line]) (with_users (alter set userId) w)).

(** ** A small store to run the handlers on *)

Definition demo_world : World :=
  mkWorld
    (<["ana" := mkUser 0 0 3 (Some "rob")]>
       (<["rob" := mkUser 30000 30000 0 None]> ∅))
    (<["t1" := mkTask 700 "active"]> ∅)
    []
    (<["r1" := mkReferral "rob" "ana" 0 2]> ∅)
    [] [] [] [] [].

(** A store on which the invariant of section 3 holds: one user, no money
    yet, no transaction. *)
Definition fresh_world : World :=
  mkWorld {["eva" := mkUser 0 0 0 None]} {["t1" := mkTask 700 "active"]}
    [] ∅ [] [] [] [] [].

(** ** The routes that only read *)

(** What the other routes answer: [res.status(status).json(body)] or
    [res.status(status).json({ error })]. *)
Inductive Answer (A : Type) :=
| Sent (status : Z) (body : A)
| Failed (status : Z) (error : string).
Arguments Sent {A} status body.
Arguments Failed {A} status error.

Definition answering {A} (label message : string) (body : M (Answer A)) : M (Answer A) :=
  try_catch body (λ _, console_error label;; ret (Failed 500 message)).

(** *** GET /methods of the withdrawals router, users.js lines 276-306 *)

Record Method := mkMethod {
  md_id : string;
  md_name : string;
  md_description : string;
  md_min_amount : Z;
  md_fee_percentage : Q;
  md_processing_time : string;
  md_active : bool }.

Definition getMethods : M (Answer (list Method)) :=
  answering "Get withdrawal methods error:" "Failed to fetch withdrawal methods"
    (ret (Sent 200
       [ mkMethod "paypal" "PayPal" "Retiro a cuenta PayPal"
           MINIMUM_WITHDRAWAL
           (Number_value
              (Number_mul (Number_of_literal WITHDRAWAL_FEE_PERCENTAGE) (Number_of_Z 100)))
           "1-3 días hábiles" true;
         mkMethod "nequi" "Nequi" "Retiro a cuenta Nequi"
           MINIMUM_WITHDRAWAL
           (Number_value
              (Number_mul (Number_of_literal WITHDRAWAL_FEE_PERCENTAGE) (Number_of_Z 100)))
           "1-2 días hábiles" true ])).

(** *** GET /stats of the referrals router, referrals.js lines 34-77 *)

Record Milestone := mkMilestone {
  ms_tasks : Z;
  ms_bonus : Z;
  ms_achieved : Z }.

Record ReferralStats := mkReferralStats {
  rs_total_referrals : Z;
  rs_total_earnings : Z;
  rs_active_referrals : Z;
  rs_milestones : list Milestone }.

(** [from('referrals').select('bonus_earned, tasks_completed').eq('referrer_id', userId)] *)
Definition referrer_rows (userId : Id) (w : World) : list Referral :=
  (map_to_list (filter (λ row : Id * Referral, referrer_id row.2 = userId)
                  (referrals w))).*2.

Definition select_referrals_of (userId : Id) : M (Reply (list Referral)) :=
  round_trip (λ w, (w, mkReply (Some (referrer_rows userId w)) false)).

(** [milestone.achieved++] when [ref.tasks_completed >= milestone.tasks] *)
Definition achieve (ref : Referral) (m : Milestone) : Milestone :=
  if bool_decide (ms_tasks m ≤ rf_tasks_completed ref)
  then mkMilestone (ms_tasks m) (ms_bonus m) (ms_achieved m + 1)
  else m.

(** The two nested [forEach]: every referral passes over every milestone. *)
Definition count_milestones (rows : list Referral) (milestones : list Milestone)
    : list Milestone :=
  foldl (λ ms ref, achieve ref <$> ms) milestones rows.

Definition getReferralStats (userId : Id) : M (Answer ReferralStats) :=
  answering "Get referral stats error:" "Failed to fetch referral statistics"
    (r ← select_referrals_of userId;
     let referralStats := data r in
     (* [referralStats?.f(...) || 0] *)
     let totalReferrals := default 0 ((λ rows, Z.of_nat (length rows)) <$> referralStats) in
     let totalEarnings := default 0 (total bonus_earned <$> referralStats) in
     let activeReferrals :=
       default 0 ((λ rows, Z.of_nat (length
                     (filter (λ ref, 0 < rf_tasks_completed ref) rows)))
                  <$> referralStats) in
     let milestones :=
       [mkMilestone 3 5000 0; mkMilestone 7 4000 0; mkMilestone 15 8000 0] in
     let milestones :=
       match referralStats with
       | Some rows => count_milestones rows milestones
       | None => milestones
       end in
     ret (Sent 200
            (mkReferralStats totalReferrals totalEarnings activeReferrals milestones))).

(** How many of the rows have a snapshot of at least [tasks]. *)
Definition reached (tasks : Z) (rows : list Referral) : Z :=
  Z.of_nat (length (filter (λ ref, tasks ≤ rf_tasks_completed ref) rows)).

(** ** Accounts: the middleware and the routes of src/backend/middleware/auth.js,
    the profile and statistics routes of users.js, the link routes of referrals.js *)

(** The columns of [users] that the money handlers never read.  They are
    kept beside the store under the same key, so that a row of [users] is
    a [User] and a [Profile] with one [id]. *)
Record Profile := mkProfile {
  email : string;
  password : string;
  name : string;
  phone : string;
  referrals_count : Z;
  referral_code : string }.

Record Site := mkSite {
  store : World;
  profiles : gmap Id Profile }.

(** A row of [users] as [select('*')] returns it. *)
Record Account := mkAccount {
  ac_id : Id;
  ac_money : User;
  ac_profile : Profile }.

(** [const { password: _, ...userResponse } = user] *)
Record PublicAccount := mkPublicAccount {
  pa_id : Id;
  pa_money : User;
  pa_email : string;
  pa_name : string;
  pa_phone : string;
  pa_referrals_count : Z;
  pa_referral_code : string }.

Definition without_password (user : Account) : PublicAccount :=
  mkPublicAccount (ac_id user) (ac_money user)
    (email (ac_profile user)) (name (ac_profile user)) (phone (ac_profile user))
    (referrals_count (ac_profile user)) (referral_code (ac_profile user)).

(** What can be thrown in these modules besides the store's exceptions. *)
Inductive JsError :=
| StoreFault (e : Exn)
| JsonWebTokenError      (* [jwt.verify] on a token it does not accept *)
| ReferenceError         (* an identifier that the module does not bind *)
| TypeError.             (* destructuring [null] *)

Inductive Outcome (A : Type) :=
| Returned (a : A)
| Raised (e : JsError).
Arguments Returned {A} a.
Arguments Raised {A} e.

Definition SM (A : Type) : Type := Site → Site * Outcome A.

Definition site_ret {A} (a : A) : SM A := λ s, (s, Returned a).

Definition site_bind {A B} (m : SM A) (k : A → SM B) : SM B :=
  λ s, match m s with
       | (s', Returned a) => k a s'
       | (s', Raised e) => (s', Raised e)
       end.

#[global] Instance SM_ret : MRet SM := @site_ret.
#[global] Instance SM_bind : MBind SM := λ A B k m, site_bind m k.

Definition raise {A} (e : JsError) : SM A := λ s, (s, Raised e).

Definition attempt {A} (body : SM A) (handler : JsError → SM A) : SM A :=
  λ s, match body s with
       | (s', Returned a) => (s', Returned a)
       | (s', Raised e) => handler e s'
       end.

(** A computation of the money handlers, run on the store of the site. *)
Definition on_store {A} (m : M A) : SM A :=
  λ s, match m (store s) with
       | (w', Normal a) => (mkSite w' (profiles s), Returned a)
       | (w', Thrown e) => (mkSite w' (profiles s), Raised (StoreFault e))
       end.

Definition site_execute {A} (statement : Site → Site * Reply A) : SM (Reply A) :=
  λ s, let (s', r) := statement s in (s', Returned r).

(** One round trip of a statement that reads or writes the account columns;
    the faults come from the same schedule. *)
Definition query {A} (statement : Site → Site * Reply A) : SM (Reply A) :=
  f ← on_store next_fault;
  match f with
  | Healthy => site_execute statement
  | Fails => site_ret (mkReply None true)
  | Throws => raise (StoreFault Rejected)
  end.

(** The row of [users] with this [id], if there is one. *)
Definition account_rows (userId : Id) (s : Site) : list Account :=
  match users (store s) !! userId, profiles s !! userId with
  | Some money, Some profile => [mkAccount userId money profile]
  | _, _ => []
  end.

(** [from('users').select('*').eq('id', userId).single()] *)
Definition select_account (userId : Id) : SM (Reply Account) :=
  query (λ s, (s, single (account_rows userId s))).

(** The rows of [users] whose profile satisfies [P], with their [id]. *)
Definition accounts_where (P : Profile → Prop) `{!∀ p, Decision (P p)} (s : Site)
    : list Account :=
  omap (λ row : Id * Profile,
          (λ money, mkAccount row.1 money row.2) <$> users (store s) !! row.1)
       (map_to_list (filter (λ row : Id * Profile, P row.2) (profiles s))).

(** [from('users').select(...).eq('email', email).single()] *)
Definition select_account_by_email (address : string) : SM (Reply Account) :=
  query (λ s, (s, single (accounts_where (λ p, email p = address) s))).

(** [from('users').select(...).eq('referral_code', code).single()] *)
Definition select_account_by_code (code : string) : SM (Reply Account) :=
  query (λ s, (s, single (accounts_where (λ p, referral_code p = code) s))).

(** [from('users').insert(row).select().single()]; [id] is the primary key. *)
Definition insert_account (row : Account) : SM (Reply Account) :=
  query (λ s,
    match users (store s) !! ac_id row, profiles s !! ac_id row with
    | None, None =>
        (mkSite (with_users (<[ac_id row := ac_money row]>) (store s))
           (<[ac_id row := ac_profile row]> (profiles s)),
         mkReply (Some row) false)
    | _, _ => (s, mkReply None true)
    end).

(** [from('referrals').insert(row)]; the store gives the row the key [id]. *)
Definition insert_referral (id : Id) (row : Referral) : SM (Reply unit) :=
  query (λ s,
    match referrals (store s) !! id with
    | None =>
        (mkSite (with_referrals (<[id := row]>) (store s)) (profiles s),
         mkReply None false)
    | Some _ => (s, mkReply None true)
    end).

(** [from('users').update(set).eq('id', userId)] on the account columns *)
Definition update_profile (userId : Id) (set : Profile → Profile) : SM (Reply unit) :=
  query (λ s, (mkSite (store s) (alter set userId (profiles s)), mkReply None false)).

(** [from('users').update(set).eq('id', userId).select(...).single()] *)
Definition update_profile_returning (userId : Id) (set : Profile → Profile)
    : SM (Reply Account) :=
  query (λ s,
    let s' := mkSite (store s) (alter set userId (profiles s)) in
    (s', single (account_rows userId s'))).

Definition site_console_error (label : string) : SM unit :=
  on_store (console_error label).

(** What these routes answer. *)
Inductive SitePayload :=
| SiteError (error : string)
| SiteMissing (error : string) (required : list string)
| UserCreated (message : string) (user : PublicAccount) (token : string)
| LoginSuccessful (message : string) (user : PublicAccount) (token : string)
| NewToken (token : string).

Record SiteResponse := mkSiteResponse {
  sr_status : Z;
  sr_payload : SitePayload }.

(** [s.split(' ')] *)
Fixpoint split_spaces (s : string) : list string :=
  match s with
  | EmptyString => [""]
  | String c rest =>
      if Ascii.eqb c Ascii.Space then "" :: split_spaces rest
      else match split_spaces rest with
           | [] => [String c ""]
           | part :: parts => String c part :: parts
           end
  end.

(** [authHeader && authHeader.split(' ')[1]], as far as [!token] tells. *)
Definition header_token (authHeader : option string) : option string :=
  match authHeader with
  | Some header => if bool_decide (header = "") then None else split_spaces header !! 1%nat
  | None => None
  end.

(** What the middleware does with a request: it answers, or calls [next()]
    with [req.user]. *)
Inductive Gate :=
| Refused (status : Z) (error : string)
| Next (user : Account).

(** What generated the fresh values of a registration: [Math.random()],
    [uuidv4()], the salted [bcrypt.hash(password, 12)], and the key the
    store gives the referral row. *)
Record Entropy := mkEntropy {
  userReferralCode : string;
  userId_v4 : Id;
  hashedPassword : string;
  referral_key : Id }.

Record RegisterRequest := mkRegisterRequest {
  rq_email : option string;
  rq_password : option string;
  rq_name : option string;
  rq_phone : option string;
  rq_referralCode : option string }.

Record LoginRequest := mkLoginRequest {
  lg_email : option string;
  lg_password : option string }.

Section Tokens.

(** [jwt.sign({ userId }, JWT_SECRET, { expiresIn })], and the [userId] of
    [jwt.verify(token, JWT_SECRET)], [None] when it throws. *)
Variable jwt_sign : Id → string.
Variable jwt_verify : string → option Id.
(** [bcrypt.compare(password, hash)] *)
Variable bcrypt_compare : string → string → bool.

(** middleware/auth, lines 34-40 *)
Definition generateToken (userId : Id) : string := jwt_sign userId.

(** middleware/auth, lines 4-32 *)
Definition authenticateToken (authHeader : option string) : SM Gate :=
  attempt
    (let token := header_token authHeader in
     if negb (truthy_string token) then
       mret (Refused 401 "Access token required")
     else
       match jwt_verify (default "" token) with
       | None => raise JsonWebTokenError
       | Some decoded_userId =>
         r ← select_account decoded_userId;
         match error r, data r with
         | false, Some user => mret (Next user)
         | _, _ => mret (Refused 401 "Invalid token")
         end
       end)
    (λ _, site_console_error "Auth middleware error:";;
          mret (Refused 403 "Invalid or expired token")).

(** [router.METHOD(path, authenticateToken, handler)] *)
Definition authenticated {A} (authHeader : option string) (handler : Account → SM A)
    : SM (Gate + A) :=
  g ← authenticateToken authHeader;
  match g with
  | Next user => a ← handler user; mret (inr a)
  | refused => mret (inl refused)
  end.

(** POST /register, auth.js lines 54-155 *)
Definition register (body : RegisterRequest) (fresh : Entropy) : SM SiteResponse :=
  attempt
    (match rq_email body, rq_password body, rq_name body, rq_phone body with
     | Some address, Some secret, Some fullname, Some number =>
       if negb (truthy_string (Some address)) || negb (truthy_string (Some secret))
          || negb (truthy_string (Some fullname)) || negb (truthy_string (Some number))
       then
         mret (mkSiteResponse 400
                 (SiteMissing "Missing required fields"
                    ["email"; "password"; "name"; "phone"]))
       else
         existingUser ← select_account_by_email address;
         match data existingUser with
         | Some _ =>
           mret (mkSiteResponse 400 (SiteError "User already exists with this email"))
         | None =>
           referrerId ←
             (if truthy_string (rq_referralCode body) then
                referrer ← select_account_by_code (default "" (rq_referralCode body));
                mret (ac_id <$> data referrer)
              else mret None);
           let userId := userId_v4 fresh in
           newUser ← insert_account
                       (mkAccount userId (mkUser 0 0 0 referrerId)
                          (mkProfile address (hashedPassword fresh) fullname number 0
                             (userReferralCode fresh)));
           if error newUser then raise (StoreFault StoreError) else
           (match referrerId with
            | Some referrer =>
              if bool_decide (referrer = "") then mret tt else
              insert_referral (referral_key fresh) (mkReferral referrer userId 0 0);;
              update_profile referrer
                (λ p, mkProfile (email p) (password p) (name p) (phone p)
                        (referrals_count p + 1) (referral_code p));;
              mret tt
            | None => mret tt
            end);;
           let token := generateToken userId in
           match data newUser with
           | Some user =>
             mret (mkSiteResponse 201
                     (UserCreated "User created successfully" (without_password user) token))
           | None => raise TypeError
           end
         end
     | _, _, _, _ =>
       mret (mkSiteResponse 400
               (SiteMissing "Missing required fields"
                  ["email"; "password"; "name"; "phone"]))
     end)
    (λ _, site_console_error "Registration error:";;
          mret (mkSiteResponse 500 (SiteError "Failed to create user"))).

(** POST /login, auth.js lines 158-199 *)
Definition login (body : LoginRequest) : SM SiteResponse :=
  attempt
    (match lg_email body, lg_password body with
     | Some address, Some secret =>
       if negb (truthy_string (Some address)) || negb (truthy_string (Some secret)) then
         mret (mkSiteResponse 400 (SiteError "Email and password are required"))
       else
         r ← select_account_by_email address;
         match error r, data r with
         | false, Some user =>
           if negb (bcrypt_compare secret (password (ac_profile user))) then
             mret (mkSiteResponse 401 (SiteError "Invalid email or password"))
           else
             let token := generateToken (ac_id user) in
             mret (mkSiteResponse 200
                     (LoginSuccessful "Login successful" (without_password user) token))
         | _, _ => mret (mkSiteResponse 401 (SiteError "Invalid email or password"))
         end
     | _, _ => mret (mkSiteResponse 400 (SiteError "Email and password are required"))
     end)
    (λ _, site_console_error "Login error:";;
          mret (mkSiteResponse 500 (SiteError "Login failed"))).

(** POST /refresh, auth.js lines 202-219.  The module requires express,
    bcryptjs, uuid, the client and [generateToken]; it does not bind
    [jwt], so evaluating [jwt.verify] throws a ReferenceError. *)
Definition refresh (token : option string) : SM SiteResponse :=
  attempt
    (if negb (truthy_string token) then
       mret (mkSiteResponse 401 (SiteError "Refresh token required"))
     else
       decoded_userId ← (raise ReferenceError : SM Id);
       let newToken := generateToken decoded_userId in
       mret (mkSiteResponse 200 (NewToken newToken)))
    (λ _, site_console_error "Token refresh error:";;
          mret (mkSiteResponse 403 (SiteError "Invalid refresh token"))).

End Tokens.

(** *** The profile routes, users.js lines 7-59 *)

(** The columns both routes select: no password and no [referred_by]. *)
Record ProfileView := mkProfileView {
  pv_id : Id;
  pv_email : string;
  pv_name : string;
  pv_phone : string;
  pv_balance : Z;
  pv_total_earnings : Z;
  pv_tasks_completed : Z;
  pv_referrals_count : Z;
  pv_referral_code : string }.

Definition profile_view (user : Account) : ProfileView :=
  mkProfileView (ac_id user)
    (email (ac_profile user)) (name (ac_profile user)) (phone (ac_profile user))
    (balance (ac_money user)) (total_earnings (ac_money user))
    (tasks_completed (ac_money user))
    (referrals_count (ac_profile user)) (referral_code (ac_profile user)).

Definition site_answering {A} (label message : string) (body : SM (Answer A))
    : SM (Answer A) :=
  attempt body (λ _, site_console_error label;; mret (Failed 500 message)).

(** GET /profile *)
Definition getProfile (user : Account) : SM (Answer (option ProfileView)) :=
  site_answering "Get profile error:" "Failed to fetch user profile"
    (r ← select_account (ac_id user);
     if error r then raise (StoreFault StoreError) else
     mret (Sent 200 (profile_view <$> data r))).

Record ProfileUpdate := mkProfileUpdate {
  pu_name : option string;
  pu_phone : option string }.

(** [if (name) updates.name = name; if (phone) updates.phone = phone] *)
Definition apply_updates (body : ProfileUpdate) (p : Profile) : Profile :=
  mkProfile (email p) (password p)
    (if truthy_string (pu_name body) then default "" (pu_name body) else name p)
    (if truthy_string (pu_phone body) then default "" (pu_phone body) else phone p)
    (referrals_count p) (referral_code p).

(** PUT /profile *)
Definition updateProfile (user : Account) (body : ProfileUpdate)
    : SM (Answer (string * option ProfileView)) :=
  site_answering "Update profile error:" "Failed to update profile"
    (r ← update_profile_returning (ac_id user) (apply_updates body);
     if error r then raise (StoreFault StoreError) else
     mret (Sent 200 ("Profile updated successfully", profile_view <$> data r))).

(** *** GET /stats of the users router, users.js lines 61-102 *)

Record StatsColumns := mkStatsColumns {
  sc_balance : Z;
  sc_total_earnings : Z;
  sc_tasks_completed : Z;
  sc_referrals_count : Z }.

(** [{ ...user, referral_earnings, recent_tasks }]; the spread of a [null]
    user adds nothing. *)
Record UserStats := mkUserStats {
  us_user : option StatsColumns;
  us_referral_earnings : Z;
  us_recent_tasks : list Z }.

(** [from('user_tasks').select('reward_amount, completed_at').eq('user_id', userId)
    .eq('status', 'completed').order('completed_at', { ascending: false }).limit(10)].
    A completion is inserted with [completed_at] the time of the insert, so
    the latest completion is the last row of the table. *)
Definition recent_task_rows (userId : Id) (w : World) : list Z :=
  take 10
    (ut_reward_amount <$>
       reverse (filter (λ row, ut_user_id row = userId ∧ ut_status row = "completed")
                  (user_tasks w))).

Definition select_recent_tasks (userId : Id) : M (Reply (list Z)) :=
  round_trip (λ w, (w, mkReply (Some (recent_task_rows userId w)) false)).

Definition getUserStats (user : Account) : SM (Answer UserStats) :=
  site_answering "Get stats error:" "Failed to fetch user statistics"
    (let userId := ac_id user in
     u ← select_account userId;
     referralEarnings ← on_store (select_referrals_of userId);
     let totalReferralEarnings := default 0 (total bonus_earned <$> data referralEarnings) in
     recentTasks ← on_store (select_recent_tasks userId);
     mret (Sent 200
             (mkUserStats
                ((λ row, mkStatsColumns (balance (ac_money row))
                           (total_earnings (ac_money row))
                           (tasks_completed (ac_money row))
                           (referrals_count (ac_profile row))) <$> data u)
                totalReferralEarnings
                (default [] (data recentTasks))))).

(** *** GET /link and GET /validate/:code, referrals.js lines 79-124 *)

Definition getLink (FRONTEND_URL : option string) (user : Account)
    : SM (Answer (string * string)) :=
  site_answering "Generate referral link error:" "Failed to generate referral link"
    (let code := referral_code (ac_profile user) in
     let baseUrl :=
       if truthy_string FRONTEND_URL then default "" FRONTEND_URL
       else "http://localhost:3000" in
     let referralLink := baseUrl +:+ "/register?ref=" +:+ code in
     mret (Sent 200 (code, referralLink))).

(** The answer is [{ valid: true, referrer: { name, code } }]. *)
Definition validateCode (code : string) : SM (Answer (string * string)) :=
  site_answering "Validate referral code error:" "Failed to validate referral code"
    (r ← select_account_by_code code;
     match error r, data r with
     | false, Some user =>
       mret (Sent 200 (name (ac_profile user), referral_code (ac_profile user)))
     | _, _ => mret (Failed 404 "Invalid referral code")
     end).

(** A string without a space. *)
Fixpoint spaceless (s : string) : bool :=
  match s with
  | EmptyString => true
  | String c rest => negb (Ascii.eqb c Ascii.Space) && spaceless rest
  end.

(** The tables of a site, apart from the fault schedule and the console. *)
Definition same_tables (s s' : Site) : Prop :=
  users (store s') = users (store s) ∧ tasks (store s') = tasks (store s)
  ∧ user_tasks (store s') = user_tasks (store s)
  ∧ referrals (store s') = referrals (store s)
  ∧ transactions (store s') = transactions (store s)
  ∧ withdrawals (store s') = withdrawals (store s)
  ∧ notifications (store s') = notifications (store s)
  ∧ profiles s' = profiles s.

(** The account a registration inserts, and the site a registration that
    went through leaves. *)
Definition new_account (address fullname number : string) (fresh : Entropy)
    (referrerId : option Id) : Account :=
  mkAccount (userId_v4 fresh) (mkUser 0 0 0 referrerId)
    (mkProfile address (hashedPassword fresh) fullname number 0 (userReferralCode fresh)).

Definition count_referral (p : Profile) : Profile :=
  mkProfile (email p) (password p) (name p) (phone p) (referrals_count p + 1)
    (referral_code p).

Definition registered (address fullname number : string) (fresh : Entropy)
    (referrerId : option Id) (s : Site) : Site :=
  let user := new_account address fullname number fresh referrerId in
  let s1 := mkSite (with_users (<[ac_id user := ac_money user]>) (store s))
              (<[ac_id user := ac_profile user]> (profiles s)) in
  match referrerId with
  | Some referrer =>
      if bool_decide (referrer = "") then s1
      else mkSite
             (with_referrals
                (<[referral_key fresh := mkReferral referrer (ac_id user) 0 0]>)
                (store s1))
             (alter count_referral referrer (profiles s1))
  | None => s1
  end.

(** The referrer a registration finds for the code in its body. *)
Definition referrer_of_code (code : option string) (s : Site) : option Id :=
  if truthy_string code
  then ac_id <$> data (single (accounts_where (λ p, referral_code p = default "" code) s))
  else None.

(** A site over [demo_world] and the fresh values of one registration,
    for the examples. *)
Definition demo_site : Site :=
  mkSite demo_world
    (<["ana" := mkProfile "ana@mail.co" "hash-of-ana" "Ana" "3001" 0 "ANA123"]>
       (<["rob" := mkProfile "rob@mail.co" "hash-of-rob" "Rob" "3002" 1 "ROB456"]> ∅)).

Definition demo_entropy : Entropy := mkEntropy "EVA789" "eva" "hash-of-eva" "r2".

(** A signature and a hash comparison, for the examples. *)
Definition demo_sign (userId : Id) : string := "jwt." +:+ userId.

Definition demo_compare (secret hash : string) : bool :=
  bool_decide (hash = "hash-of-" +:+ secret).

(** * Properties *)

(** ** Running handlers step by step *)

Lemma bind_unfold {A B} (m : M A) (k : A → M B) (w : World) :
  (x ← m; k x) w =
  match m w with
  | (w', Normal a) => k a w'
  | (w', Thrown e) => (w', Thrown e)
  end.
Proof. reflexivity. Qed.

Lemma round_trip_healthy {A} (statement : World → World * Reply A) (w : World) :
  pending w = [] →
  round_trip statement w = ((statement w).1, Normal (statement w).2).
Proof.
  intros Hp. unfold round_trip. rewrite bind_unfold.
  unfold next_fault. rewrite Hp. unfold execute.
  by destruct (statement w).
Qed.

Lemma bind_round_trip_healthy {A B} (statement : World → World * Reply A)
    (k : Reply A → M B) (w : World) :
  pending w = [] →
  (r ← round_trip statement; k r) w = k (statement w).2 (statement w).1.
Proof. intros Hp. rewrite bind_unfold. by rewrite round_trip_healthy. Qed.

(** One healthy round trip of the handler in the goal. *)
Ltac healthy_step :=
  unfold select_active_task, select_user_task, insert_user_task, select_user,
    update_user, update_user_returning, select_referral, update_referral,
    insert_notification, insert_transaction, insert_withdrawal;
  rewrite bind_round_trip_healthy by (simpl; assumption);
  cbn [fst snd data error].

Lemma with_referrals_id (f : gmap Id Referral → gmap Id Referral) (w : World) :
  f (referrals w) = referrals w → with_referrals f w = w.
Proof. intros Hf. destruct w. unfold with_referrals. simpl in *. by rewrite Hf. Qed.

(** ** The referral table *)

Lemma referral_rows_single (w : World) (r u rid : Id) (ref : Referral) :
  referral_rows r u w = [(rid, ref)] →
  referrals w !! rid = Some ref ∧ referrer_id ref = r ∧ referred_id ref = u.
Proof.
  unfold referral_rows. intros Hrows.
  assert (Hin : (rid, ref) ∈ map_to_list
            (filter (λ row : Id * Referral,
                       referrer_id row.2 = r ∧ referred_id row.2 = u) (referrals w)))
    by (rewrite Hrows; apply list_elem_of_here).
  apply elem_of_map_to_list, map_lookup_filter_Some in Hin.
  simpl in Hin. tauto.
Qed.

(** An update that keeps the pair keeps the row the only one of its pair. *)
Lemma referral_rows_alter (w w' : World) (r u rid : Id) (ref : Referral)
    (f : Referral → Referral) :
  referral_rows r u w = [(rid, ref)] →
  referrals w' = alter f rid (referrals w) →
  (∀ x, referrer_id (f x) = referrer_id x ∧ referred_id (f x) = referred_id x) →
  referral_rows r u w' = [(rid, f ref)].
Proof.
  unfold referral_rows. intros Hrows Hw' Hf. rewrite Hw'.
  set (P := λ row : Id * Referral, referrer_id row.2 = r ∧ referred_id row.2 = u) in *.
  assert (Hsingle : filter P (referrals w) = {[rid := ref]}).
  { apply map_to_list_inj. by rewrite Hrows, map_to_list_singleton. }
  assert (Halter : filter P (alter f rid (referrals w)) = {[rid := f ref]}).
  { apply map_eq. intros j. apply option_eq. intros x.
    rewrite map_lookup_filter_Some, lookup_alter_Some, lookup_singleton_Some.
    split.
    - intros [[[<- (y & Hy & ->)] | [Hne Hx]] HP].
      + assert (Hfy : filter P (referrals w) !! rid = Some y).
        { apply map_lookup_filter_Some. split; [done |].
          unfold P in *. simpl in *. destruct (Hf y) as [E1 E2].
          by rewrite E1, E2 in HP. }
        rewrite Hsingle, lookup_singleton_eq in Hfy. by simplify_eq.
      + assert (Hfx : filter P (referrals w) !! j = Some x)
          by (by apply map_lookup_filter_Some).
        rewrite Hsingle, lookup_singleton_ne in Hfx by done. done.
    - intros [-> <-].
      assert (Hfr : filter P (referrals w) !! j = Some ref)
        by (by rewrite Hsingle, lookup_singleton_eq).
      apply map_lookup_filter_Some in Hfr as [Hl HP].
      split; [left; eauto |].
      unfold P in *. simpl in *. destruct (Hf ref) as [-> ->]. done. }
  by rewrite Halter, map_to_list_singleton.
Qed.

(** ** Round trips under faults *)

Lemma drain_healthy (w : World) : pending w = [] → drain w = w.
Proof. destruct w. unfold drain, with_pending. simpl. by intros ->. Qed.

Lemma round_trip_drain {A} (statement : World → World * Reply A) (w : World) :
  round_trip statement w =
  match next w with
  | Healthy => ((statement (drain w)).1, Normal (statement (drain w)).2)
  | Fails => (drain w, Normal (mkReply None true))
  | Throws => (drain w, Thrown Rejected)
  end.
Proof.
  unfold round_trip, next, drain. rewrite bind_unfold. unfold next_fault.
  destruct w as [us ts uts rs txs wds ns [| f fs] c]; simpl.
  - unfold execute, with_pending. simpl. by destruct (statement _).
  - destruct f; try reflexivity. unfold execute. by destruct (statement _).
Qed.

Lemma healthy_for_nil (n : nat) (w : World) : pending w = [] → healthy_for n w.
Proof. unfold healthy_for. intros ->. by rewrite take_nil. Qed.

Lemma healthy_for_next (n : nat) (w : World) : healthy_for (S n) w → next w = Healthy.
Proof.
  unfold healthy_for, next. destruct (pending w) as [| f fs]; [done |].
  simpl. by inversion 1.
Qed.

Ltac unfold_client :=
  unfold select_active_task, select_user_task, insert_user_task, select_user,
    update_user, update_user_returning, select_referral, update_referral,
    insert_notification, insert_transaction, insert_withdrawal.

(** One round trip, whatever its fault. *)
Ltac fault_step :=
  unfold_client;
  rewrite bind_unfold, round_trip_drain;
  match goal with
  | |- context [next ?w] => destruct (next w)
  end;
  cbn [fst snd data error].

Ltac tables :=
  cbn [users tasks user_tasks referrals transactions withdrawals notifications
       console pending drain with_users with_user_tasks with_referrals
       with_transactions with_withdrawals with_notifications with_pending
       with_console].

(** ** The engine under faults *)

(** Closes a branch in which the engine changed no table. *)
Ltac unchanged Hnone :=
  eexists; split;
  [ reflexivity
  | apply Hnone; tables; try done; intros Hnil; rewrite Hnil; reflexivity ].

Lemma checkReferralBonuses_effect (userId : Id) (w : World) :
  ∃ w', checkReferralBonuses userId w = (w', Normal tt) ∧ engine_effect userId w w'.
Proof.
  unfold checkReferralBonuses, try_catch, checkReferralBonuses_body.
  assert (Hnone : ∀ w0 : World, users w0 = users w → tasks w0 = tasks w →
            user_tasks w0 = user_tasks w → transactions w0 = transactions w →
            withdrawals w0 = withdrawals w → referrals w0 = referrals w →
            (pending w = [] → pending w0 = []) →
            engine_effect userId w w0).
  { intros w0 ? ? ? ? ? ? ?. repeat split; try done. exists 0, 0. auto. }
  fault_step; tables.
  - destruct (users w !! userId) as [user|] eqn:Hu; simpl;
      [| unchanged Hnone].
    destruct (referred_by user) as [r|] eqn:Hr;
      [| unchanged Hnone].
    case_bool_decide; [unchanged Hnone |].
    fault_step; tables.
    + destruct (referral_rows r userId (drain (drain w)))
        as [| [rid referral] [|]] eqn:Hrows;
        simpl;
        try (unchanged Hnone).
      destruct (0 <? _).
      * repeat fault_step; unfold console_error; tables;
          (eexists; split; [reflexivity |]);
          (repeat split; tables; try done; try (intros Hnil; rewrite Hnil; reflexivity));
          exists (milestone (tasks_completed user) (rf_tasks_completed referral)).1,
            (tasks_completed user);
          (split; [right; eauto |]); split; eauto 8.
      * repeat fault_step; unfold console_error; tables;
          (eexists; split; [reflexivity |]);
          (repeat split; tables; try done; try (intros Hnil; rewrite Hnil; reflexivity));
          exists 0, (tasks_completed user); (split; [by left |]); split; eauto 8.
    + unchanged Hnone.
    + unfold console_error. unchanged Hnone.
  - unchanged Hnone.
  - unfold console_error. unchanged Hnone.
Qed.

(** ** Task completion *)

Lemma healthy_prefix (w : World) :
  healthy_for 4 w →
  next w = Healthy ∧ next (drain w) = Healthy
  ∧ next (drain (drain w)) = Healthy ∧ next (drain (drain (drain w))) = Healthy.
Proof.
  unfold healthy_for, next. tables.
  destruct (pending w) as [| f1 [| f2 [| f3 [| f4 fs]]]]; simpl; intros H;
    repeat match goal with
           | H : Forall _ (_ :: _) |- _ => inversion H; clear H; subst
           end; done.
Qed.

Lemma next_ext (w1 w2 : World) : pending w1 = pending w2 → next w1 = next w2.
Proof. unfold next. by intros ->. Qed.

Lemma active_task_rows_active (w : World) (taskId : Id) (task : Task) :
  tasks w !! taskId = Some task → status task = "active" →
  active_task_rows taskId w = [task].
Proof. intros Ht Hs. unfold active_task_rows. rewrite Ht. by rewrite decide_True. Qed.

(** The success path: the four round trips of the handler are healthy, the
    task is active and the lookup of an earlier completion comes back empty.
    [w2] is the store when the engine is called. *)
Lemma completeTask_pays (w : World) (userId taskId : Id) (task : Task) :
  healthy_for 4 w →
  tasks w !! taskId = Some task →
  status task = "active" →
  data (single (user_task_rows userId taskId w)) = None →
  ∃ w2 w',
    completeTask userId taskId w
    = (w', Normal (json (TaskCompleted "Task completed successfully" (reward task)
                           (Some (mkUserTask userId taskId "completed" (reward task))))))
    ∧ users w2 = alter (pay_reward (reward task)) userId (users w)
    ∧ tasks w2 = tasks w
    ∧ user_tasks w2
      = user_tasks w ++ [mkUserTask userId taskId "completed" (reward task)]
    ∧ referrals w2 = referrals w
    ∧ transactions w2 = transactions w
    ∧ withdrawals w2 = withdrawals w
    ∧ (pending w = [] → pending w2 = [])
    ∧ engine_effect userId w2 w'.
Proof.
  intros H Ht Hs Hrows. destruct (healthy_prefix w H) as (N1 & N2 & N3 & N4).
  unfold completeTask, route, try_catch. unfold_client.
  rewrite bind_unfold, round_trip_drain, N1. cbn [fst snd].
  rewrite (active_task_rows_active (drain w) taskId task) by done. cbn [single data error].
  rewrite bind_unfold, round_trip_drain, N2. cbn [fst snd].
  change (user_task_rows userId taskId (drain (drain w)))
    with (user_task_rows userId taskId w).
  rewrite Hrows.
  rewrite bind_unfold, round_trip_drain, N3. cbn [fst snd data error].
  rewrite bind_unfold, round_trip_drain.
  erewrite (next_ext _ (drain (drain (drain w)))) by reflexivity. rewrite N4.
  cbn [fst snd]. rewrite bind_unfold.
  match goal with
  | |- context [checkReferralBonuses userId ?w2] =>
      destruct (checkReferralBonuses_effect userId w2) as (w' & Heq & Heff);
      rewrite Heq; exists w2, w'
  end.
  split; [reflexivity |]. tables.
  repeat (split; [first [done | by intros ->] |]). exact Heff.
Qed.

Lemma completeTask_not_found (w : World) (userId taskId : Id) :
  pending w = [] →
  active_task_rows taskId w = [] →
  completeTask userId taskId w
  = (w, Normal (mkResponse 404 (Error "Task not found or inactive"))).
Proof.
  intros Hp Hrows. unfold completeTask, route, try_catch.
  healthy_step. by rewrite Hrows.
Qed.

Lemma completeTask_already (w : World) (userId taskId : Id) (task : Task) (row : UserTask) :
  pending w = [] →
  tasks w !! taskId = Some task →
  status task = "active" →
  user_task_rows userId taskId w = [row] →
  completeTask userId taskId w
  = (w, Normal (mkResponse 400 (Error "Task already completed"))).
Proof.
  intros Hp Ht Hs Hrows. unfold completeTask, route, try_catch.
  healthy_step. rewrite (active_task_rows_active w taskId task) by done.
  cbn [single data error]. healthy_step. by rewrite Hrows.
Qed.

(** The engine credits the referrer; a user who is not their own referrer
    keeps the row the reward left. *)
Lemma engine_keeps_user (userId : Id) (w2 w' : World) (user : User) :
  engine_effect userId w2 w' →
  users w2 !! userId = Some user →
  referred_by user ≠ Some userId →
  users w' !! userId = Some user.
Proof.
  intros (_ & _ & _ & _ & _ & b & c & _ & Hus & _) Hu Hself.
  destruct Hus as [-> | (user' & r & Hu' & Hr & ->)]; [done |].
  rewrite Hu in Hu'. simplify_eq.
  rewrite lookup_alter_ne; [done |]. congruence.
Qed.

Lemma completeTask_pays_user (w : World) (userId taskId : Id) (user : User) (task : Task) :
  healthy_for 4 w →
  users w !! userId = Some user →
  referred_by user ≠ Some userId →
  tasks w !! taskId = Some task →
  status task = "active" →
  user_task_rows userId taskId w = [] →
  ∃ w' : World,
    completeTask userId taskId w
    = (w', Normal (json (TaskCompleted "Task completed successfully" (reward task)
                           (Some (mkUserTask userId taskId "completed" (reward task))))))
    ∧ users w' !! userId
      = Some (mkUser (balance user + reward task) (total_earnings user + reward task)
                (tasks_completed user + 1) (referred_by user))
    ∧ user_tasks w'
      = user_tasks w ++ [mkUserTask userId taskId "completed" (reward task)].
Proof.
  intros H Hu Hself Ht Hs Hrows.
  destruct (completeTask_pays w userId taskId task H Ht Hs) as
    (w2 & w' & Heq & Hus & _ & Huts & _ & _ & _ & _ & Heff); [by rewrite Hrows |].
  exists w'. split; [exact Heq |]. split.
  - eapply engine_keeps_user; [exact Heff | | exact Hself].
    rewrite Hus, lookup_alter_eq, Hu. reflexivity.
  - destruct Heff as (_ & -> & _). exact Huts.
Qed.

(** C7. A successful completion of an active, not yet completed task with
    reward R adds R to the user's balance and total_earnings, adds 1 to
    tasks_completed, and answers with the reward and the completion record
    it created. *)
Theorem completeTask_credits_reward (w : World) (userId taskId : Id)
    (user : User) (task : Task) :
  pending w = [] →
  users w !! userId = Some user →
  referred_by user ≠ Some userId →
  tasks w !! taskId = Some task →
  status task = "active" →
  user_task_rows userId taskId w = [] →
  ∃ w' : World,
    completeTask userId taskId w
    = (w', Normal (mkResponse 200
         (TaskCompleted "Task completed successfully" (reward task)
            (Some (mkUserTask userId taskId "completed" (reward task))))))
    ∧ users w' !! userId
      = Some (mkUser (balance user + reward task) (total_earnings user + reward task)
                (tasks_completed user + 1) (referred_by user))
    ∧ user_tasks w'
      = user_tasks w ++ [mkUserTask userId taskId "completed" (reward task)].
Proof.
  intros Hp. apply completeTask_pays_user. by apply healthy_for_nil.
Qed.

Lemma completeTask_credits_reward_witness :
  ∃ w' : World,
    completeTask "ana" "t1" demo_world
    = (w', Normal (mkResponse 200
         (TaskCompleted "Task completed successfully" 700
            (Some (mkUserTask "ana" "t1" "completed" 700)))))
    ∧ users w' !! "ana" = Some (mkUser (0 + 700) (0 + 700) (3 + 1) (Some "rob"))
    ∧ user_tasks w' = [] ++ [mkUserTask "ana" "t1" "completed" 700].
Proof.
  apply (completeTask_credits_reward demo_world "ana" "t1"
           (mkUser 0 0 3 (Some "rob")) (mkTask 700 "active")).
  - reflexivity.
  - vm_compute. reflexivity.
  - discriminate.
  - vm_compute. reflexivity.
  - reflexivity.
  - reflexivity.
Defined.

(** The engine never throws: its [catch] turns every exception into a line
    on the console. *)
Lemma checkReferralBonuses_never_throws (userId : Id) (w : World) :
  (checkReferralBonuses userId w).2 = Normal tt.
Proof. destruct (checkReferralBonuses_effect userId w) as (w' & -> & _). done. Qed.

(** C6. Whatever goes wrong inside the referral engine is caught there:
    with the handler's own four round trips healthy and any faults after
    them, the completion still answers 200 with the reward and the record,
    the record is stored and the reward is paid. *)
Theorem referral_failure_never_fails_completion (w : World) (userId taskId : Id)
    (user : User) (task : Task) (engine_faults : list Fault) :
  pending w = [Healthy; Healthy; Healthy; Healthy] ++ engine_faults →
  users w !! userId = Some user →
  referred_by user ≠ Some userId →
  tasks w !! taskId = Some task →
  status task = "active" →
  user_task_rows userId taskId w = [] →
  (∀ w0 : World, (checkReferralBonuses userId w0).2 = Normal tt)
  ∧ ∃ w' : World,
      completeTask userId taskId w
      = (w', Normal (mkResponse 200
           (TaskCompleted "Task completed successfully" (reward task)
              (Some (mkUserTask userId taskId "completed" (reward task))))))
      ∧ users w' !! userId
        = Some (mkUser (balance user + reward task) (total_earnings user + reward task)
                  (tasks_completed user + 1) (referred_by user))
      ∧ user_tasks w'
        = user_tasks w ++ [mkUserTask userId taskId "completed" (reward task)].
Proof.
  intros Hp Hu Hself Ht Hs Hrows. split.
  - apply checkReferralBonuses_never_throws.
  - apply completeTask_pays_user; try done.
    unfold healthy_for. rewrite Hp. simpl. repeat constructor.
Qed.

(** The engine's first round trip rejects; the completion answers 200. *)
Lemma referral_failure_never_fails_completion_witness :
  (∀ w0 : World, (checkReferralBonuses "ana" w0).2 = Normal tt)
  ∧ ∃ w' : World,
      completeTask "ana" "t1"
        (with_pending ([Healthy; Healthy; Healthy; Healthy] ++ [Throws]) demo_world)
      = (w', Normal (mkResponse 200
           (TaskCompleted "Task completed successfully" 700
              (Some (mkUserTask "ana" "t1" "completed" 700)))))
      ∧ users w' !! "ana" = Some (mkUser (0 + 700) (0 + 700) (3 + 1) (Some "rob"))
      ∧ user_tasks w' = [] ++ [mkUserTask "ana" "t1" "completed" 700].
Proof.
  apply (referral_failure_never_fails_completion
           (with_pending ([Healthy; Healthy; Healthy; Healthy] ++ [Throws]) demo_world)
           "ana" "t1" (mkUser 0 0 3 (Some "rob")) (mkTask 700 "active") [Throws]).
  - reflexivity.
  - vm_compute. reflexivity.
  - discriminate.
  - vm_compute. reflexivity.
  - reflexivity.
  - reflexivity.
Defined.

(** The same run, observed: the exception ends up on the console and the
    referrer is not credited. *)
Example engine_exception_is_logged :
  let w' := (completeTask "ana" "t1"
               (with_pending [Healthy; Healthy; Healthy; Healthy; Throws] demo_world)).1 in
  console w' = ["Referral bonus check error:"]
  ∧ balance_of "rob" w' = 30000
  ∧ balance_of "ana" w' = 700.
Proof. vm_compute. done. Qed.

(** ** Withdrawals *)

(** *** The binary64 product and its rounding

    [SFmul] multiplies the mantissas and rounds the product back to 53
    bits.  The lemmas below read that rounding off its definition, for
    positive finite Numbers. *)

Lemma digits2_pos_size (p : positive) : digits2_pos p = Pos.size p.
Proof. induction p; simpl; by rewrite ?IHp. Qed.

Lemma size_bounds (p : positive) :
  2 ^ (Zpos (Pos.size p) - 1) ≤ Zpos p < 2 ^ Zpos (Pos.size p).
Proof.
  pose proof (Pos.size_gt p) as Hgt. pose proof (Pos.size_le p) as Hle.
  apply Pos2Z.pos_lt_pos in Hgt. apply Pos2Z.pos_le_pos in Hle.
  rewrite Pos2Z.inj_pow in Hgt, Hle.
  replace (Zpos (Pos.size p)) with (Z.succ (Zpos (Pos.size p) - 1)) in Hle at 1 by lia.
  rewrite Z.pow_succ_r in Hle by lia. lia.
Qed.

Lemma size_unique (p : positive) (d : Z) :
  2 ^ (d - 1) ≤ Zpos p < 2 ^ d → Zpos (Pos.size p) = d.
Proof.
  intros [Hlo Hhi]. destruct (size_bounds p) as [Hlo' Hhi'].
  destruct (Z.lt_trichotomy (Zpos (Pos.size p)) d) as [Hlt | [Heq | Hgt]]; [| done |].
  - assert (2 ^ Zpos (Pos.size p) ≤ 2 ^ (d - 1)) by (apply Z.pow_le_mono_r; lia). lia.
  - destruct (Z.le_gt_cases 0 d) as [Hd | Hd].
    + assert (2 ^ d ≤ 2 ^ (Zpos (Pos.size p) - 1)) by (apply Z.pow_le_mono_r; lia). lia.
    + rewrite (Z.pow_neg_r 2 d) in Hhi by lia. lia.
Qed.

Lemma shr_1_nonneg (m : Z) (r s : bool) :
  0 ≤ m →
  shr_1 (Build_shr_record m r s) = Build_shr_record (m / 2) (Z.odd m) (r || s).
Proof.
  intros Hm. rewrite <- Z.div2_div. destruct m as [| [p | p |] |]; try reflexivity. lia.
Qed.

Lemma iter_pos_nat {A} (f : A → A) (p : positive) (x : A) :
  SpecFloat.iter_pos f p x = Nat.iter (Pos.to_nat p) f x.
Proof.
  revert x. induction p as [p IH | p IH |]; intros x; cbn [SpecFloat.iter_pos].
  - rewrite !IH, Pos2Nat.inj_xI.
    replace (S (2 * Pos.to_nat p)) with (Pos.to_nat p + S (Pos.to_nat p))%nat by lia.
    by rewrite Nat.iter_add, Nat.iter_succ_r.
  - rewrite !IH, Pos2Nat.inj_xO.
    replace (2 * Pos.to_nat p)%nat with (Pos.to_nat p + Pos.to_nat p)%nat by lia.
    by rewrite Nat.iter_add.
  - reflexivity.
Qed.

Lemma shr_1_iter (m : Z) (k : nat) :
  0 ≤ m → shifted m (Z.of_nat k) (Nat.iter k shr_1 (Build_shr_record m false false)).
Proof.
  intros Hm. induction k as [| k IH].
  - simpl. unfold shifted. simpl. rewrite Z.div_1_r, Z.mod_1_r. lia.
  - unfold shifted in *. rewrite Nat2Z.inj_succ, Z.pow_succ_r by lia.
    rewrite Nat.iter_succ.
    destruct (Nat.iter k shr_1 _) as [mk rk sk]. destruct IH as (Hmk & Hrk & Hsk).
    cbn [shr_m shr_r shr_s] in Hmk, Hrk, Hsk.
    assert (HT : 0 < 2 ^ Z.of_nat k) by (apply Z.pow_pos_nonneg; lia).
    set (T := 2 ^ Z.of_nat k) in *.
    assert (Hmk0 : 0 ≤ mk) by (subst mk; apply Z.div_pos; lia).
    rewrite shr_1_nonneg by done. cbn [shr_m shr_r shr_s].
    rewrite (Z.mul_comm 2 T), Z.rem_mul_r by lia.
    rewrite <- Z.div_div by lia. rewrite <- Hmk.
    pose proof (Z.mod_pos_bound m T HT) as Hb.
    set (b := m mod T) in *.
    pose proof (Z.bit0_mod mk) as Hbit. rewrite Z.bit0_odd in Hbit.
    assert (Hor : rk || sk = true ↔ b ≠ 0).
    { rewrite orb_true_iff, Hrk, Hsk. lia. }
    split; [reflexivity |].
    destruct (Z.odd mk); simpl in Hbit; rewrite <- Hbit.
    + split; [split; [lia | done] |]. rewrite Hor. lia.
    + split; [split; [done | lia] |]. rewrite Hor. lia.
Qed.

Lemma shr_shifted (P : positive) (e n : Z) :
  0 < n →
  ∃ r, shr (Build_shr_record (Zpos P) false false) e n = (r, e + n)
       ∧ shifted (Zpos P) n r.
Proof.
  intros Hn. destruct n as [| p |]; [lia | | lia].
  eexists. split; [reflexivity |].
  rewrite iter_pos_nat, <- (positive_nat_Z p). apply shr_1_iter. lia.
Qed.

Lemma round_nearest_even_bounds (r : shr_record) :
  let q := round_nearest_even (shr_m r) (loc_of_shr_record r) in
  shr_m r ≤ q ≤ shr_m r + 1 ∧ (shr_r r = false → q = shr_m r).
Proof.
  destruct r as [m [] []]; simpl; try destruct (Z.even m); split; (lia || done).
Qed.

Lemma fexp_normal (e : Z) : -1021 ≤ e → fexp prec emax e = e - 53.
Proof. unfold fexp, emin, prec, emax. lia. Qed.

(** A mantissa of 53 bits is stored as it is. *)
Lemma binary_round_aux_exact (P : positive) (e : Z) :
  Zpos (Pos.size P) = 53 →
  -1074 ≤ e ≤ 971 →
  binary_round_aux prec emax false (Zpos P) e loc_Exact = S754_finite false P e.
Proof.
  intros Hsize He. unfold binary_round_aux, shr_fexp.
  cbn [Zdigits2 shr_record_of_loc]. rewrite digits2_pos_size, Hsize.
  rewrite fexp_normal by lia. replace (53 + e - 53 - e) with 0 by lia.
  cbn [shr shr_m loc_of_shr_record round_nearest_even Zdigits2].
  rewrite digits2_pos_size, Hsize, fexp_normal by lia.
  replace (53 + e - 53 - e) with 0 by lia. cbn [shr shr_m].
  unfold emax, prec. destruct (Z.leb_spec e (1024 - 53)); [done | lia].
Qed.

(** A longer mantissa is shifted down to 53 bits and rounded to nearest,
    a tie going to the even mantissa; [q] is the rounded mantissa, which a
    carry can bring to [2 ^ 53]. *)
Lemma binary_round_aux_rounds (P : positive) (e n : Z) :
  Zpos (Pos.size P) = 53 + n →
  0 < n →
  -1074 ≤ e + n ≤ 970 →
  ∃ q : positive,
    Zpos P / 2 ^ n ≤ Zpos q ≤ Zpos P / 2 ^ n + 1
    ∧ (2 * (Zpos P mod 2 ^ n) < 2 ^ n → Zpos q = Zpos P / 2 ^ n)
    ∧ (binary_round_aux prec emax false (Zpos P) e loc_Exact
         = S754_finite false q (e + n)
       ∨ Zpos q = 9007199254740992
         ∧ binary_round_aux prec emax false (Zpos P) e loc_Exact
           = S754_finite false 4503599627370496 (e + n + 1)).
Proof.
  intros Hsize Hn He.
  assert (HT : 0 < 2 ^ n) by (apply Z.pow_pos_nonneg; lia).
  pose proof (size_bounds P) as [Hlo Hhi]. rewrite Hsize in Hlo, Hhi.
  replace (53 + n - 1) with (52 + n) in Hlo by lia.
  rewrite Z.pow_add_r in Hlo, Hhi by lia.
  assert (Hq : 2 ^ 52 ≤ Zpos P / 2 ^ n < 2 ^ 53).
  { split; [apply Z.div_le_lower_bound | apply Z.div_lt_upper_bound]; lia. }
  change (2 ^ 52) with 4503599627370496 in *.
  change (2 ^ 53) with 9007199254740992 in *.
  unfold binary_round_aux, shr_fexp.
  cbn [Zdigits2 shr_record_of_loc]. rewrite digits2_pos_size, Hsize.
  rewrite fexp_normal by lia. replace (53 + n + e - 53 - e) with n by lia.
  destruct (shr_shifted P e n Hn) as (r & -> & Hm & Hr & Hs).
  destruct (round_nearest_even_bounds r) as [Hbounds Hdown].
  cbv zeta in Hbounds, Hdown. rewrite Hm in Hbounds, Hdown.
  cbn [shr_m fst snd].
  remember (round_nearest_even (shr_m r) (loc_of_shr_record r)) as q' eqn:Hq'.
  rewrite Hm in Hq'. rewrite <- ?Hq' in *.
  assert (Hexact : 2 * (Zpos P mod 2 ^ n) < 2 ^ n → q' = Zpos P / 2 ^ n).
  { intros Hlt. apply Hdown. destruct (shr_r r); [| done].
    destruct Hr as [Hr _]. specialize (Hr eq_refl). lia. }
  clear Hq'. clear Hm Hr Hs Hdown Hlo Hhi.
  generalize dependent (Zpos P / 2 ^ n). intros X HX Hbounds Hexact.
  destruct q' as [| q |]; [exfalso; clear - HX Hbounds; lia | | exfalso; clear - HX Hbounds; lia].
  exists q. split; [done |]. split; [done |].
  destruct (Z.eq_dec (Zpos q) 9007199254740992) as [Heq | Hne].
  - right. split; [done |]. injection Heq as ->.
    cbn [Zdigits2]. rewrite digits2_pos_size.
    change (Zpos (Pos.size 9007199254740992)) with 54.
    rewrite fexp_normal by lia. replace (54 + (e + n) - 53 - (e + n)) with 1 by lia.
    cbn. unfold emax, prec. destruct (Z.leb_spec (e + n + 1) (1024 - 53)); [done | lia].
  - left. cbn [Zdigits2]. rewrite digits2_pos_size.
    rewrite (size_unique q 53) by lia.
    rewrite fexp_normal by lia. replace (53 + (e + n) - 53 - (e + n)) with 0 by lia.
    cbn [shr shr_m shr_record_of_loc]. unfold emax, prec.
    destruct (Z.leb_spec (e + n) (1024 - 53)); [done | lia].
Qed.

Lemma Pos_iter_xO (a d : positive) : Zpos (Pos.iter xO a d) = Zpos a * 2 ^ Zpos d.
Proof.
  induction d as [| d IH] using Pos.peano_ind.
  - simpl. lia.
  - rewrite Pos.iter_succ, Pos2Z.inj_xO, IH, Pos2Z.inj_succ, Z.pow_succ_r by lia. lia.
Qed.

(** The Number of a positive integer below [2 ^ 53] is that integer, with
    its mantissa brought to 53 bits. *)
Lemma Number_of_Z_safe (A : Z) :
  0 < A < 9007199254740992 →
  ∃ (j : Z) (mx : positive),
    0 ≤ j ≤ 52
    ∧ Zpos mx = A * 2 ^ j
    ∧ 4503599627370496 ≤ Zpos mx < 9007199254740992
    ∧ Number_of_Z A = S754_finite false mx (- j).
Proof.
  intros HA. destruct A as [| a |]; [lia | | lia].
  unfold Number_of_Z, binary_normalize, binary_round.
  rewrite digits2_pos_size.
  pose proof (size_bounds a) as [Hlo Hhi].
  assert (Hd : 1 ≤ Zpos (Pos.size a) ≤ 53).
  { split; [lia |]. destruct (Z.le_gt_cases (Zpos (Pos.size a)) 53) as [| Hgt]; [done |].
    assert (2 ^ 53 ≤ 2 ^ (Zpos (Pos.size a) - 1)) by (apply Z.pow_le_mono_r; lia).
    change (2 ^ 53) with 9007199254740992 in *. lia. }
  rewrite fexp_normal by lia. unfold shl_align.
  destruct (Zpos (Pos.size a) + 0 - 53 - 0) as [| p | d] eqn:Hshift; [| lia |].
  - assert (Hsize : Zpos (Pos.size a) = 53) by lia. rewrite Hsize in Hlo, Hhi.
    change (2 ^ (53 - 1)) with 4503599627370496 in Hlo.
    exists 0, a. rewrite Z.mul_1_r. repeat split; try lia.
    change (- 0) with 0. apply binary_round_aux_exact; [done | lia].
  - assert (Hj : Zpos (Pos.size a) = 53 - Zpos d) by lia.
    assert (Hmz : Zpos (Pos.iter xO a d) = Zpos a * 2 ^ Zpos d) by apply Pos_iter_xO.
    assert (HT : 0 < 2 ^ Zpos d) by (apply Z.pow_pos_nonneg; lia).
    assert (Hbounds : 4503599627370496 ≤ Zpos a * 2 ^ Zpos d < 9007199254740992).
    { rewrite Hj in Hlo, Hhi.
      change 4503599627370496 with (2 ^ 52). change 9007199254740992 with (2 ^ 53).
      replace 52 with (53 - Zpos d - 1 + Zpos d) by lia.
      replace 53 with (53 - Zpos d + Zpos d) at 2 by lia.
      rewrite !Z.pow_add_r by lia. nia. }
    exists (Zpos d), (Pos.iter xO a d). repeat split; try lia.
    replace (Zpos (Pos.size a) + 0 - 53) with (- Zpos d) by lia.
    apply binary_round_aux_exact; [| lia].
    apply size_unique. rewrite Hmz. change (2 ^ (53 - 1)) with 4503599627370496.
    change (2 ^ 53) with 9007199254740992. lia.
Qed.

Lemma Number_of_tenth :
  Number_of_literal WITHDRAWAL_FEE_PERCENTAGE = S754_finite false 7205759403792794 (-56).
Proof. vm_compute. reflexivity. Qed.

Lemma Math_round_finite (m : positive) (k : Z) :
  0 < k →
  Math_round (S754_finite false m (- k)) = (2 * Zpos m + 2 ^ k) / (2 * 2 ^ k).
Proof.
  intros Hk. destruct k as [| p |]; [lia | | lia].
  change (- Zpos p) with (Zneg p).
  unfold Math_round, Number_value, Qfloor, Qplus. cbn [cond_Zopp Qnum Qden].
  rewrite Pos2Z.inj_mul, Pos2Z.inj_pow. f_equal; lia.
Qed.

(** The rounded mantissa of [A * 0.10], scaled by [X = 2 ^ j] and cut at
    [N = 2 ^ n], is within the half unit that [Math.round] needs. *)
Lemma tenth_mantissa (A X AX q N D : Z) :
  0 < A →
  1 ≤ X → AX = A * X →
  AX < 9007199254740992 → AX < 6755399441055744 * X →
  (N = 4503599627370496 ∧ D = 16 * X ∨ N = 9007199254740992 ∧ D = 8 * X) →
  AX * 7205759403792794 / N ≤ q ≤ AX * 7205759403792794 / N + 1 →
  (2 * ((AX * 7205759403792794) mod N) < N → q = AX * 7205759403792794 / N) →
  (2 * q + D) / (2 * D) = (A + 5) / 10.
Proof.
  intros HA HX HAX Hsafe Hbound HN Hq Hexact.
  set (k := (A + 5) / 10).
  assert (Hk : 10 * k ≤ A + 5 < 10 * k + 10).
  { subst k. pose proof (Z.div_mod (A + 5) 10 ltac:(lia)).
    pose proof (Z.mod_pos_bound (A + 5) 10 ltac:(lia)). lia. }
  assert (Hk0 : 0 ≤ k) by lia.
  assert (HKX : 10 * (k * X) ≤ AX + 5 * X ≤ 10 * (k * X) + 9 * X) by nia.
  assert (HKX0 : 0 ≤ k * X) by nia.
  assert (HAX0 : 0 < AX) by nia.
  symmetry.
  destruct HN as [[-> ->] | [-> ->]].
  - apply (Z.div_unique _ _ _ (2 * q + 16 * X - 32 * (k * X))); [| lia].
    left. generalize dependent (k * X). intros KX HKX HKX0.
    clearbody k. clear Hk Hk0 HAX HA.
    pose proof (Z.div_mod (AX * 7205759403792794) 4503599627370496 ltac:(lia)) as Hdm.
    pose proof (Z.mod_pos_bound (AX * 7205759403792794) 4503599627370496 ltac:(lia)) as Hr.
    generalize dependent ((AX * 7205759403792794) mod 4503599627370496).
    generalize dependent (AX * 7205759403792794 / 4503599627370496).
    intros Q0 Hq R Hexact Hdm Hr.
    destruct (Z.lt_ge_cases (2 * R) 4503599627370496) as [Hlow | Hhigh].
    + rewrite (Hexact Hlow). lia.
    + lia.
  - apply (Z.div_unique _ _ _ (2 * q + 8 * X - 16 * (k * X))); [| lia].
    left. generalize dependent (k * X). intros KX HKX HKX0.
    clearbody k. clear Hk Hk0 HAX HA.
    pose proof (Z.div_mod (AX * 7205759403792794) 9007199254740992 ltac:(lia)) as Hdm.
    pose proof (Z.mod_pos_bound (AX * 7205759403792794) 9007199254740992 ltac:(lia)) as Hr.
    generalize dependent ((AX * 7205759403792794) mod 9007199254740992).
    generalize dependent (AX * 7205759403792794 / 9007199254740992).
    intros Q0 Hq R Hexact Hdm Hr.
    destruct (Z.lt_ge_cases (2 * R) 9007199254740992) as [Hlow | Hhigh].
    + rewrite (Hexact Hlow). lia.
    + lia.
Qed.

(** [Math.round(amount * 0.10)] on binary64 Numbers is the nearest integer
    to a tenth of the amount, a tie going up, for every amount below
    [3 * 2 ^ 51]. *)
Lemma Math_round_tenth (A : Z) :
  0 < A < 6755399441055744 →
  Math_round (Number_mul (Number_of_Z A) (Number_of_literal WITHDRAWAL_FEE_PERCENTAGE))
  = (A + 5) / 10.
Proof.
  intros HA.
  destruct (Number_of_Z_safe A ltac:(lia)) as (j & mx & Hj & Hmx & Hmxb & ->).
  rewrite Number_of_tenth. unfold Number_mul, SFmul. cbn [xorb].
  assert (HX : 1 ≤ 2 ^ j) by (pose proof (Z.pow_pos_nonneg 2 j); lia).
  assert (Hbound : Zpos mx < 6755399441055744 * 2 ^ j) by nia.
  set (P := (mx * 7205759403792794)%positive).
  assert (HP : Zpos P = Zpos mx * 7205759403792794) by (subst P; apply Pos2Z.inj_mul).
  assert (Hcases : Zpos (Pos.size P) = 53 + 52 ∨ Zpos (Pos.size P) = 53 + 53).
  { destruct (Z.lt_ge_cases (Zpos P) (2 ^ 105)) as [Hlt | Hge].
    - left. apply size_unique. split; [| done].
      change (2 ^ (53 + 52 - 1)) with 20282409603651670423947251286016. lia.
    - right. apply size_unique. split; [done |].
      change (2 ^ (53 + 53)) with 81129638414606681695789005144064. lia. }
  assert (Hround : ∃ (n : Z) (q : positive),
    (n = 52 ∨ n = 53)
    ∧ Zpos P / 2 ^ n ≤ Zpos q ≤ Zpos P / 2 ^ n + 1
    ∧ (2 * (Zpos P mod 2 ^ n) < 2 ^ n → Zpos q = Zpos P / 2 ^ n)
    ∧ Math_round (binary_round_aux prec emax false (Zpos P) (- j + -56) loc_Exact)
      = (2 * Zpos q + 2 ^ (56 + j - n)) / (2 * 2 ^ (56 + j - n))).
  { assert (∃ n, (n = 52 ∨ n = 53) ∧ Zpos (Pos.size P) = 53 + n) as (n & Hn & Hsize)
      by (destruct Hcases; [exists 52 | exists 53]; auto).
    destruct (binary_round_aux_rounds P (- j + -56) n Hsize) as (q & Hq & Hexact & Hresult);
      [lia | lia |].
    exists n, q. repeat (split; [done |]).
    destruct Hresult as [-> | [Hcarry ->]].
    - replace (- j + -56 + n) with (- (56 + j - n)) by lia.
      apply Math_round_finite. lia.
    - replace (- j + -56 + n + 1) with (- (56 + j - n - 1)) by lia.
      rewrite Math_round_finite by lia. rewrite Hcarry.
      assert (Hpow : 2 ^ (56 + j - n) = 2 * 2 ^ (56 + j - n - 1)).
      { rewrite <- Z.pow_succ_r by lia. f_equal. lia. }
      rewrite Hpow. set (D := 2 ^ (56 + j - n - 1)).
      assert (0 < D) by (apply Z.pow_pos_nonneg; lia).
      replace (2 * 9007199254740992 + 2 * D) with (2 * (2 * 4503599627370496 + D)) by lia.
      by rewrite Z.div_mul_cancel_l by lia. }
  destruct Hround as (n & q & Hn & Hq & Hexact & ->).
  rewrite HP in Hq, Hexact.
  apply (tenth_mantissa A (2 ^ j) (Zpos mx) (Zpos q) (2 ^ n)); try done; try lia.
  destruct Hn as [-> | ->]; [left | right]; (split; [reflexivity |]).
  - replace (56 + j - 52) with (4 + j) by lia. rewrite Z.pow_add_r by lia. reflexivity.
  - replace (56 + j - 53) with (3 + j) by lia. rewrite Z.pow_add_r by lia. reflexivity.
Qed.

Lemma round_tenth_spec (amount : Z) : round_tenth amount = (amount + 5) / 10.
Proof.
  unfold round_tenth, Qfloor, Qplus, Qmult, inject_Z.
  simpl Qnum. simpl Qden. change (Z.pos (1 * 10 * 2)) with (2 * 10).
  replace (amount * 1 * 2 + 1 * Z.pos (1 * 10)) with (2 * (amount + 5)) by lia.
  apply Z.div_mul_cancel_l; lia.
Qed.

(** Below [3 * 2 ^ 51] the fee the handlers compute is the fee of the
    policy, the nearest integer to a tenth of the amount. *)
Lemma Math_round_tenth_nearest (amount : Z) :
  0 < amount < 6755399441055744 →
  let fee := Math_round (Number_mul (Number_of_Z amount)
                           (Number_of_literal WITHDRAWAL_FEE_PERCENTAGE)) in
  fee = round_tenth amount ∧ 10 * fee - 5 ≤ amount < 10 * fee + 5.
Proof.
  intros Hamount. cbv zeta. rewrite Math_round_tenth, round_tenth_spec by done.
  split; [reflexivity |].
  pose proof (Z.div_mod (amount + 5) 10 ltac:(lia)).
  pose proof (Z.mod_pos_bound (amount + 5) 10 ltac:(lia)). lia.
Qed.

(** On a healthy store a request is either refused with a 400 that leaves
    the world as it was, or accepted: then the amount is non-zero, the
    method is supported, the amount is at least the minimum and at most the
    balance, and the handler inserts the row, debits the full amount and
    notifies. *)
Lemma requestWithdrawal_healthy (w : World) (userId : Id) (body : WithdrawalRequest) :
  pending w = [] →
  (∃ p, requestWithdrawal userId body w = (w, Normal (mkResponse 400 p)))
  ∨ (∃ amount method account_info user,
       body = mkWithdrawalRequest (Some amount) (Some method) (Some account_info)
       ∧ amount ≠ 0 ∧ method ∈ ["paypal"; "nequi"] ∧ account_info ≠ ""
       ∧ MINIMUM_WITHDRAWAL ≤ amount
       ∧ users w !! userId = Some user
       ∧ amount ≤ balance user
       ∧ requestWithdrawal userId body w
         = (with_notifications (λ rows, rows ++ [withdrawal_notice userId amount])
              (with_users (alter (debit amount) userId)
                 (with_withdrawals
                    (λ rows, rows ++ [withdrawal_row userId amount method account_info]) w)),
            Normal (mkResponse 201
              (WithdrawalCreated "Withdrawal request created successfully"
                 (Some (withdrawal_row userId amount method account_info)))))).
Proof.
  intros Hp. unfold requestWithdrawal, route, try_catch.
  destruct body as [[amount|] [method|] [account_info|]]; simpl;
    try (left; eexists; reflexivity).
  destruct (Z.eqb_spec amount 0) as [| Hamount]; simpl; [left; eexists; reflexivity |].
  case_bool_decide as Hmethod; simpl; [left; eexists; reflexivity |].
  case_bool_decide as Haccount; simpl; [left; eexists; reflexivity |].
  case_bool_decide as Hsupported; simpl; [| left; eexists; reflexivity].
  destruct (Z.ltb_spec amount MINIMUM_WITHDRAWAL) as [| Hmin];
    [left; eexists; reflexivity |].
  healthy_step.
  destruct (users w !! userId) as [user|] eqn:Hu; simpl; [| left; eexists; reflexivity].
  destruct (Z.ltb_spec (balance user) amount) as [| Hfunds];
    [left; eexists; reflexivity |].
  right. exists amount, method, account_info, user.
  repeat (split; [done |]).
  repeat healthy_step. reflexivity.
Qed.

(** C4. An accepted withdrawal of amount A stores
    fee = Math.round(A * 0.10), computed on binary64 Numbers, and debits
    the balance by the full A; the fee query answers the same fee and net
    amount.  For every A below 6755399441055744 (3 * 2 ^ 51) that fee is
    round(A × 0.10) of the policy, the nearest integer to A/10 with a tie
    going up, and the net amount is below A.  For every safe integer A
    (up to 2 ^ 53 - 1, where Numbers subtract integers exactly) the stored
    net_amount is A − fee.  For A = 30000 the fee is 3000 and the net
    amount 27000. *)
Theorem withdrawal_fee_and_debit (w w' : World) (userId : Id)
    (body : WithdrawalRequest) (message : string) (wd : Withdrawal) :
  pending w = [] →
  requestWithdrawal userId body w
  = (w', Normal (mkResponse 201 (WithdrawalCreated message (Some wd)))) →
  ∃ A : Z,
    wr_amount body = Some A
    ∧ wd_amount wd = A
    ∧ wd_fee wd
      = Math_round (Number_mul (Number_of_Z A)
                      (Number_of_literal WITHDRAWAL_FEE_PERCENTAGE))
    ∧ (A < 6755399441055744 →
       wd_fee wd = round_tenth A
       ∧ 10 * wd_fee wd - 5 ≤ A < 10 * wd_fee wd + 5
       ∧ wd_net_amount wd < A)
    ∧ (A ≤ 9007199254740991 → wd_net_amount wd = A - wd_fee wd)
    ∧ balance_of userId w' = balance_of userId w - A
    ∧ wd ∈ withdrawals w'
    ∧ (calculateFee (Some A) w).2
      = Normal (mkResponse 200
          (FeeQuote A (wd_fee wd) (wd_net_amount wd)
             (Number_value
                (Number_mul (Number_of_literal WITHDRAWAL_FEE_PERCENTAGE)
                   (Number_of_Z 100)))))
    ∧ (A = 30000 → wd_fee wd = 3000 ∧ wd_net_amount wd = 27000).
Proof.
  intros Hp Hrun.
  destruct (requestWithdrawal_healthy w userId body Hp) as
    [[p Heq] | (A & method & account & user & -> & HA & Hm & Hacc & Hmin & Hu & Hle & Heq)];
    rewrite Heq in Hrun; [discriminate |].
  injection Hrun as <- <- <-. exists A.
  cbn [wr_amount withdrawal_row wd_amount wd_fee wd_net_amount].
  split; [reflexivity |]. split; [reflexivity |]. split; [reflexivity |].
  split.
  { intros Hbound. unfold MINIMUM_WITHDRAWAL in Hmin.
    destruct (Math_round_tenth_nearest A ltac:(lia)) as [Hfee Hnear].
    cbv zeta in Hfee, Hnear. repeat split; [exact Hfee | lia | lia | lia]. }
  split; [intros _; reflexivity |].
  split.
  { unfold balance_of. tables. rewrite lookup_alter_eq, Hu. reflexivity. }
  split.
  { tables. apply elem_of_app. right. apply list_elem_of_here. }
  split.
  { unfold calculateFee, route, try_catch. cbn [truthy_number].
    destruct (Z.eqb_spec A 0); [done |]. cbn [negb orb].
    destruct (Z.ltb_spec A MINIMUM_WITHDRAWAL); [lia |]. reflexivity. }
  intros ->. split; vm_compute; reflexivity.
Qed.

Lemma withdrawal_fee_and_debit_witness :
  ∃ A : Z,
    Some 30000 = Some A
    ∧ wd_amount (withdrawal_row "rob" 30000 "nequi" "3001234567") = A
    ∧ wd_fee (withdrawal_row "rob" 30000 "nequi" "3001234567")
      = Math_round (Number_mul (Number_of_Z A)
                      (Number_of_literal WITHDRAWAL_FEE_PERCENTAGE))
    ∧ (A < 6755399441055744 →
       wd_fee (withdrawal_row "rob" 30000 "nequi" "3001234567") = round_tenth A
       ∧ 10 * wd_fee (withdrawal_row "rob" 30000 "nequi" "3001234567") - 5 ≤ A
         < 10 * wd_fee (withdrawal_row "rob" 30000 "nequi" "3001234567") + 5
       ∧ wd_net_amount (withdrawal_row "rob" 30000 "nequi" "3001234567") < A)
    ∧ (A ≤ 9007199254740991 →
       wd_net_amount (withdrawal_row "rob" 30000 "nequi" "3001234567")
       = A - wd_fee (withdrawal_row "rob" 30000 "nequi" "3001234567"))
    ∧ balance_of "rob"
        (requestWithdrawal "rob"
           (mkWithdrawalRequest (Some 30000) (Some "nequi") (Some "3001234567"))
           demo_world).1
      = balance_of "rob" demo_world - A
    ∧ withdrawal_row "rob" 30000 "nequi" "3001234567"
      ∈ withdrawals
          (requestWithdrawal "rob"
             (mkWithdrawalRequest (Some 30000) (Some "nequi") (Some "3001234567"))
             demo_world).1
    ∧ (calculateFee (Some A) demo_world).2
      = Normal (mkResponse 200
          (FeeQuote A (wd_fee (withdrawal_row "rob" 30000 "nequi" "3001234567"))
             (wd_net_amount (withdrawal_row "rob" 30000 "nequi" "3001234567"))
             (Number_value
                (Number_mul (Number_of_literal WITHDRAWAL_FEE_PERCENTAGE)
                   (Number_of_Z 100)))))
    ∧ (A = 30000 →
       wd_fee (withdrawal_row "rob" 30000 "nequi" "3001234567") = 3000
       ∧ wd_net_amount (withdrawal_row "rob" 30000 "nequi" "3001234567") = 27000).
Proof.
  apply (withdrawal_fee_and_debit demo_world _ "rob"
           (mkWithdrawalRequest (Some 30000) (Some "nequi") (Some "3001234567"))
           "Withdrawal request created successfully").
  - reflexivity.
  - vm_compute. reflexivity.
Defined.

(** The fee is round(A × 0.10) only while the binary64 product keeps enough
    bits.  A user with a balance of 7000000000000004 withdraws all of it:
    the request passes validation and is answered 201, a tenth of the
    amount is 700000000000000.4, and the stored fee is 700000000000001. *)
Lemma withdrawal_fee_counterexample :
  let A := 7000000000000004 in
  let w := with_users (<["rob" := mkUser A A 0 None]>) demo_world in
  let wd := withdrawal_row "rob" A "nequi" "3001234567" in
  (requestWithdrawal "rob"
     (mkWithdrawalRequest (Some A) (Some "nequi") (Some "3001234567")) w).2
  = Normal (mkResponse 201
      (WithdrawalCreated "Withdrawal request created successfully" (Some wd)))
  ∧ round_tenth A = 700000000000000
  ∧ wd_fee wd = 700000000000001
  ∧ wd_fee wd ≠ round_tenth A
  ∧ ¬ (10 * wd_fee wd - 5 ≤ A).
Proof.
  cbv zeta. split; [vm_compute; reflexivity |].
  split; [vm_compute; reflexivity |].
  split; [vm_compute; reflexivity |].
  split; [vm_compute; discriminate | vm_compute; intros H; by apply H].
Qed.

(** Past validation, the only thing the handler asks of the balance is
    [user.balance < amount]. *)
Lemma requestWithdrawal_funds_check (w : World) (userId : Id) (user : User)
    (A : Z) (method account_info : string) :
  pending w = [] →
  users w !! userId = Some user →
  MINIMUM_WITHDRAWAL ≤ A →
  method ∈ ["paypal"; "nequi"] →
  account_info ≠ "" →
  requestWithdrawal userId
    (mkWithdrawalRequest (Some A) (Some method) (Some account_info)) w
  = if balance user <? A
    then (w, Normal (mkResponse 400 (Error "Insufficient balance")))
    else (with_notifications (λ rows, rows ++ [withdrawal_notice userId A])
            (with_users (alter (debit A) userId)
               (with_withdrawals
                  (λ rows, rows ++ [withdrawal_row userId A method account_info]) w)),
          Normal (mkResponse 201
            (WithdrawalCreated "Withdrawal request created successfully"
               (Some (withdrawal_row userId A method account_info))))).
Proof.
  intros Hp Hu Hmin Hm Hacc. unfold requestWithdrawal, route, try_catch. simpl.
  assert (HA : A ≠ 0) by (unfold MINIMUM_WITHDRAWAL in Hmin; lia).
  assert (Hmne : method ≠ "").
  { intros ->. rewrite !elem_of_cons, elem_of_nil in Hm.
    destruct Hm as [? | [? | []]]; discriminate. }
  destruct (Z.eqb_spec A 0); [done |]. simpl.
  rewrite !bool_decide_eq_false_2 by done. simpl.
  rewrite bool_decide_eq_true_2 by done. simpl.
  destruct (Z.ltb_spec A MINIMUM_WITHDRAWAL); [lia |].
  healthy_step. rewrite Hu. simpl.
  destruct (balance user <? A); [reflexivity |].
  repeat healthy_step. reflexivity.
Qed.

(** C10. A request for exactly the current balance (at least the minimum,
    a supported method, account information given) passes the funds check,
    which refuses only an amount above the balance; the whole balance is
    withdrawn and the balance left at zero. *)
Theorem withdrawal_of_whole_balance (w : World) (userId : Id) (user : User)
    (A : Z) (method account_info : string) :
  pending w = [] →
  users w !! userId = Some user →
  balance user = A →
  MINIMUM_WITHDRAWAL ≤ A →
  method ∈ ["paypal"; "nequi"] →
  account_info ≠ "" →
  (∃ w' wd,
     requestWithdrawal userId
       (mkWithdrawalRequest (Some A) (Some method) (Some account_info)) w
     = (w', Normal (mkResponse 201
          (WithdrawalCreated "Withdrawal request created successfully" (Some wd))))
     ∧ wd_amount wd = A
     ∧ wd ∈ withdrawals w'
     ∧ balance <$> users w' !! userId = Some 0)
  ∧ (∀ A' : Z, MINIMUM_WITHDRAWAL ≤ A' →
       (requestWithdrawal userId
          (mkWithdrawalRequest (Some A') (Some method) (Some account_info)) w).2
       = Normal (mkResponse 400 (Error "Insufficient balance"))
       ↔ balance user < A').
Proof.
  intros Hp Hu Hbal Hmin Hm Hacc. split.
  - rewrite (requestWithdrawal_funds_check w userId user A method account_info) by done.
    destruct (Z.ltb_spec (balance user) A); [lia |].
    eexists _, _. split; [reflexivity |]. simpl. split; [done |]. split.
    + apply elem_of_app. right. apply list_elem_of_here.
    + rewrite lookup_alter_eq, Hu. simpl. f_equal. lia.
  - intros A' Hmin'.
    rewrite (requestWithdrawal_funds_check w userId user A' method account_info) by done.
    destruct (Z.ltb_spec (balance user) A'); simpl; split; intros; try done; lia.
Qed.

Lemma withdrawal_of_whole_balance_witness :
  (∃ w' wd,
     requestWithdrawal "rob"
       (mkWithdrawalRequest (Some 30000) (Some "paypal") (Some "rob@mail.co")) demo_world
     = (w', Normal (mkResponse 201
          (WithdrawalCreated "Withdrawal request created successfully" (Some wd))))
     ∧ wd_amount wd = 30000
     ∧ wd ∈ withdrawals w'
     ∧ balance <$> users w' !! "rob" = Some 0)
  ∧ (∀ A' : Z, MINIMUM_WITHDRAWAL ≤ A' →
       (requestWithdrawal "rob"
          (mkWithdrawalRequest (Some A') (Some "paypal") (Some "rob@mail.co"))
          demo_world).2
       = Normal (mkResponse 400 (Error "Insufficient balance"))
       ↔ balance (mkUser 30000 30000 0 None) < A').
Proof.
  apply (withdrawal_of_whole_balance demo_world "rob" (mkUser 30000 30000 0 None)
           30000 "paypal" "rob@mail.co").
  - reflexivity.
  - vm_compute. reflexivity.
  - reflexivity.
  - vm_compute. discriminate.
  - apply list_elem_of_here.
  - discriminate.
Defined.

(** C8, as the handler has it.  A request whose amount is below 25000 is
    refused with a 400 and the world is left as it was: no balance moves
    and no withdrawal row is created.  The refusal is the minimum-amount
    error when the amount is non-zero, the method supported and the account
    information present; the checks on the fields come first. *)
Theorem withdrawal_below_minimum_refused (w : World) (userId : Id)
    (body : WithdrawalRequest) (A : Z) :
  wr_amount body = Some A →
  A < MINIMUM_WITHDRAWAL →
  ∃ p : Payload,
    requestWithdrawal userId body w = (w, Normal (mkResponse 400 p))
    ∧ (A ≠ 0 →
       (∃ method, wr_method body = Some method ∧ method ∈ ["paypal"; "nequi"]) →
       (∃ account_info, wr_account_info body = Some account_info ∧ account_info ≠ "") →
       p = MinimumError 25000).
Proof.
  intros HA Hlt. unfold requestWithdrawal, route, try_catch.
  destruct body as [amount [method|] [account_info|]]; simpl in *; subst amount;
    try (eexists; split; [reflexivity |];
         intros _ (? & ? & ?) (? & ? & ?); discriminate).
  destruct (Z.eqb_spec A 0) as [| Hamount]; simpl;
    [eexists; split; [reflexivity | done] |].
  case_bool_decide as Hmethod; simpl;
    [eexists; split; [reflexivity |]; intros _ (m & Hm & Hin) _; simplify_eq;
     rewrite !elem_of_cons, elem_of_nil in Hin;
     destruct Hin as [? | [? | []]]; discriminate |].
  case_bool_decide as Haccount; simpl;
    [eexists; split; [reflexivity |]; intros _ _ (a & Ha & Hne); by simplify_eq |].
  case_bool_decide as Hsupported; simpl;
    [| eexists; split; [reflexivity |]; intros _ (m & Hm & Hin) _; by simplify_eq].
  destruct (Z.ltb_spec A MINIMUM_WITHDRAWAL); [| lia].
  eexists; split; [reflexivity | done].
Qed.

Lemma withdrawal_below_minimum_refused_witness :
  ∃ p : Payload,
    requestWithdrawal "rob"
      (mkWithdrawalRequest (Some 24999) (Some "nequi") (Some "3001234567")) demo_world
    = (demo_world, Normal (mkResponse 400 p))
    ∧ (24999 ≠ 0 →
       (∃ method, Some "nequi" = Some method ∧ method ∈ ["paypal"; "nequi"]) →
       (∃ account_info, Some "3001234567" = Some account_info ∧ account_info ≠ "") →
       p = MinimumError 25000).
Proof.
  apply (withdrawal_below_minimum_refused demo_world "rob"
           (mkWithdrawalRequest (Some 24999) (Some "nequi") (Some "3001234567")) 24999).
  - reflexivity.
  - vm_compute. reflexivity.
Defined.

(** C8, as stated, fails on a request of amount 0: [!amount] holds and the
    answer is the missing-fields error, not the minimum-amount one. *)
Lemma withdrawal_below_minimum_counterexample :
  0 < MINIMUM_WITHDRAWAL
  ∧ requestWithdrawal "rob"
      (mkWithdrawalRequest (Some 0) (Some "nequi") (Some "3001234567")) demo_world
    = (demo_world,
       Normal (mkResponse 400
         (MissingFields "Missing required fields" ["amount"; "method"; "account_info"])))
  ∧ (requestWithdrawal "rob"
       (mkWithdrawalRequest (Some 0) (Some "nequi") (Some "3001234567")) demo_world).2
    ≠ Normal (mkResponse 400 (MinimumError MINIMUM_WITHDRAWAL)).
Proof. split; [done |]. split; [reflexivity | discriminate]. Qed.

(** ** Balance updates *)

Lemma updateBalance_healthy (w : World) (userId : Id) (body : BalanceRequest) :
  pending w = [] →
  (∃ p, updateBalance userId body w = (w, Normal (mkResponse 400 p)))
  ∨ (∃ amount type,
       br_amount body = Some amount ∧ br_type body = Some type
       ∧ amount ≠ 0 ∧ type ≠ ""
       ∧ ((users w !! userId = None
           ∧ updateBalance userId body w
             = (with_console (λ c, c ++ ["Update balance error:"])
                  (with_users
                     (alter (apply_change type amount (balance_change type amount)) userId)
                     w),
                Normal (mkResponse 500 (Error "Failed to update balance"))))
          ∨ (∃ user, users w !! userId = Some user
             ∧ updateBalance userId body w
               = (with_transactions
                    (λ rows, rows ++ [transaction_row userId body type amount])
                    (with_users
                       (alter (apply_change type amount (balance_change type amount)) userId)
                       w),
                  Normal (mkResponse 200
                    (BalanceUpdated "Balance updated successfully"
                       (Some (balance user + balance_change type amount))
                       (Some (if bool_decide (type = "add")
                              then total_earnings user + amount
                              else total_earnings user)))))))).
Proof.
  intros Hp. unfold updateBalance, route, try_catch.
  destruct body as [[amount|] [type|] description]; simpl;
    try (left; eexists; reflexivity).
  destruct (Z.eqb_spec amount 0) as [| Hamount]; simpl; [left; eexists; reflexivity |].
  case_bool_decide as Htype; simpl; [left; eexists; reflexivity |].
  right. exists amount, type. repeat (split; [done |]).
  fold (balance_change type amount).
  healthy_step. tables. rewrite lookup_alter_eq.
  destruct (users w !! userId) as [user|] eqn:Hu; simpl.
  - right. exists user. split; [done |]. healthy_step. reflexivity.
  - left. split; [done |]. reflexivity.
Qed.

(** C3, as the handler has it.  The balance update checks no funds: on a
    healthy store a debit (any type other than 'add') of an amount above
    the balance is applied, the balance becomes balance − amount, below
    zero, total_earnings stays, the answer is 200 with the new balance,
    and one transaction of −amount is appended. *)
Theorem balance_debit_is_unchecked (w : World) (userId : Id) (user : User)
    (A : Z) (type : string) (description : option string) :
  pending w = [] →
  users w !! userId = Some user →
  0 ≤ balance user →
  balance user < A →
  type ≠ "add" →
  type ≠ "" →
  ∃ w' : World,
    updateBalance userId (mkBalanceRequest (Some A) (Some type) description) w
    = (w', Normal (mkResponse 200
         (BalanceUpdated "Balance updated successfully"
            (Some (balance user - A)) (Some (total_earnings user)))))
    ∧ users w' !! userId
      = Some (mkUser (balance user - A) (total_earnings user)
                (tasks_completed user) (referred_by user))
    ∧ balance user - A < 0
    ∧ transactions w'
      = transactions w
        ++ [mkTransaction userId (- A) type
              (if truthy_string description then default "" description
               else "Balance " +:+ type)
              "completed"].
Proof.
  intros Hp Hu Hnonneg Hover Hadd Htype.
  destruct (updateBalance_healthy w userId
              (mkBalanceRequest (Some A) (Some type) description) Hp)
    as [[p Heq] | (amount & type' & HA & HT & Hne & Hne' & Hcases)].
  - exfalso. revert Heq. unfold updateBalance, route, try_catch. simpl.
    destruct (Z.eqb_spec A 0); [lia |]. simpl.
    rewrite bool_decide_eq_false_2 by done. simpl.
    healthy_step. tables. rewrite lookup_alter_eq, Hu. simpl.
    healthy_step. discriminate.
  - simpl in HA, HT. simplify_eq.
    destruct Hcases as [[Hnone _] | (user' & Hu' & Heq)]; [congruence |].
    rewrite Hu in Hu'. simplify_eq. rewrite Heq.
    unfold balance_change, transaction_row. simpl.
    rewrite !bool_decide_eq_false_2 by done.
    eexists. split; [reflexivity |]. tables.
    split; [| split; [lia |]].
    + rewrite lookup_alter_eq, Hu. simpl. unfold apply_change, balance_change.
      by rewrite !bool_decide_eq_false_2.
    + unfold transaction_row, balance_change. simpl.
      by rewrite bool_decide_eq_false_2.
Qed.

Lemma balance_debit_is_unchecked_witness :
  ∃ w' : World,
    updateBalance "rob" (mkBalanceRequest (Some 50000) (Some "subtract") None) demo_world
    = (w', Normal (mkResponse 200
         (BalanceUpdated "Balance updated successfully"
            (Some (30000 - 50000)) (Some 30000))))
    ∧ users w' !! "rob" = Some (mkUser (30000 - 50000) 30000 0 None)
    ∧ 30000 - 50000 < 0
    ∧ transactions w'
      = [] ++ [mkTransaction "rob" (- 50000) "subtract"
                 (if truthy_string None then default "" None
                  else "Balance " +:+ "subtract")
                 "completed"].
Proof.
  apply (balance_debit_is_unchecked demo_world "rob" (mkUser 30000 30000 0 None)
           50000 "subtract" None).
  - reflexivity.
  - vm_compute. reflexivity.
  - simpl. lia.
  - simpl. lia.
  - discriminate.
  - discriminate.
Defined.

(** C3, as stated, fails: a debit of 50000 from a balance of 30000 is
    answered 200 and leaves the balance at −20000. *)
Lemma balance_debit_counterexample :
  balance_of "rob" demo_world = 30000
  ∧ (updateBalance "rob"
       (mkBalanceRequest (Some 50000) (Some "subtract") None) demo_world).2
    = Normal (mkResponse 200
        (BalanceUpdated "Balance updated successfully" (Some (-20000)) (Some 30000)))
  ∧ balance_of "rob"
      (updateBalance "rob"
         (mkBalanceRequest (Some 50000) (Some "subtract") None) demo_world).1
    = -20000
  ∧ balance_of "rob"
      (updateBalance "rob"
         (mkBalanceRequest (Some 50000) (Some "subtract") None) demo_world).1
    ≠ balance_of "rob" demo_world.
Proof. vm_compute. repeat split; discriminate || reflexivity. Qed.

(** ** Requests on a healthy store *)

Lemma checkReferralBonuses_healthy (userId : Id) (w : World) :
  pending w = [] →
  ∃ w', checkReferralBonuses userId w = (w', Normal tt) ∧ engine_moves userId w w'.
Proof.
  intros Hp. unfold checkReferralBonuses, try_catch, checkReferralBonuses_body.
  healthy_step.
  destruct (users w !! userId) as [user|] eqn:Hu; simpl;
    [| eexists; split; [reflexivity | constructor]].
  destruct (referred_by user) as [r|] eqn:Hr;
    [| eexists; split; [reflexivity | constructor]].
  case_bool_decide; [eexists; split; [reflexivity | constructor] |].
  healthy_step.
  destruct (referral_rows r userId w) as [| [rid referral] [|]] eqn:Hrows; simpl;
    try (eexists; split; [reflexivity | constructor]).
  destruct (Z.ltb_spec 0 (milestone (tasks_completed user) (rf_tasks_completed referral)).1).
  - repeat healthy_step. eexists; split; [reflexivity |].
    by eapply engine_bonus.
  - repeat healthy_step. eexists; split; [reflexivity |].
    by eapply engine_count.
Qed.

Lemma completeTask_healthy (w : World) (userId taskId : Id) :
  pending w = [] →
  request_moves w (CompleteTask userId taskId) (completeTask userId taskId w).1.
Proof.
  intros Hp. unfold completeTask, route, try_catch.
  healthy_step. unfold active_task_rows.
  destruct (tasks w !! taskId) as [task|]; [| constructor].
  case_decide; [| constructor]. cbn [single data error].
  healthy_step.
  destruct (single (user_task_rows userId taskId w)) as [[row|] e] eqn:Hsingle;
    cbn [data]; [constructor |].
  repeat healthy_step. rewrite bind_unfold.
  match goal with
  | |- context [checkReferralBonuses userId ?w2] =>
      destruct (checkReferralBonuses_healthy userId w2) as (w' & Heq & Hmoves);
      [done | rewrite Heq]
  end.
  simpl. eapply moves_completion; [| exact Hmoves]. by rewrite Hsingle.
Qed.

Lemma handle_healthy (op : Op) (w : World) :
  pending w = [] → request_moves w op (step w op).
Proof.
  intros Hp. unfold step. destruct op as [userId taskId | userId body | userId body]; simpl.
  - by apply completeTask_healthy.
  - destruct (requestWithdrawal_healthy w userId body Hp) as
      [[p ->] | (A & method & account & user & _ & _ & _ & _ & _ & Hu & _ & ->)];
      [constructor |].
    simpl. by eapply moves_withdrawal.
  - destruct (updateBalance_healthy w userId body Hp) as
      [[p ->] | (A & type & _ & _ & _ & _ & [[Hu ->] | (user & Hu & ->)])];
      [constructor | |]; simpl.
    + by apply moves_balance_missing.
    + by eapply (moves_balance w userId body user type A
                   (transaction_row userId body type A)).
Qed.

Lemma engine_moves_frame (userId : Id) (w w' : World) :
  engine_moves userId w w' →
  pending w' = pending w ∧ tasks w' = tasks w ∧ user_tasks w' = user_tasks w
  ∧ transactions w' = transactions w ∧ withdrawals w' = withdrawals w.
Proof. by destruct 1. Qed.

Lemma request_moves_frame (op : Op) (w w' : World) :
  request_moves w op w' → pending w' = pending w ∧ tasks w' = tasks w.
Proof.
  destruct 1 as [| u t R w' _ He | | |]; try done.
  by destruct (engine_moves_frame _ _ _ He) as (-> & -> & _).
Qed.

Lemma run_cons (op : Op) (ops : list Op) (w : World) :
  run (op :: ops) w = run ops (step w op).
Proof. reflexivity. Qed.

(** Requests never put a fault on the schedule and never touch the tasks. *)
Lemma run_frame (ops : list Op) (w : World) :
  pending w = [] → pending (run ops w) = [] ∧ tasks (run ops w) = tasks w.
Proof.
  revert w. induction ops as [| op ops IH]; intros w Hp; [done |].
  rewrite run_cons.
  destruct (request_moves_frame _ _ _ (handle_healthy op w Hp)) as [Hp' Ht'].
  destruct (IH (step w op)) as [? ?]; [congruence |]. split; congruence.
Qed.

(** A recorded completion stays the only one of its pair. *)
Lemma request_moves_completion (op : Op) (w w' : World) (userId taskId : Id)
    (row : UserTask) :
  request_moves w op w' →
  user_task_rows userId taskId w = [row] →
  user_task_rows userId taskId w' = [row].
Proof.
  destruct 1 as [| u t R w' Hnone He | | |]; try done.
  intros Hrow. destruct (engine_moves_frame _ _ _ He) as (_ & _ & Huts & _).
  unfold user_task_rows in *. rewrite Huts. tables.
  rewrite filter_app, Hrow.
  rewrite filter_cons_False, filter_nil; [done |].
  simpl. intros [-> ->]. by rewrite Hrow in Hnone.
Qed.

Lemma run_completion (ops : list Op) (w : World) (userId taskId : Id) (row : UserTask) :
  pending w = [] →
  user_task_rows userId taskId w = [row] →
  user_task_rows userId taskId (run ops w) = [row].
Proof.
  revert w. induction ops as [| op ops IH]; intros w Hp Hrow; [done |].
  rewrite run_cons. pose proof (handle_healthy op w Hp) as Hm.
  apply IH.
  - destruct (request_moves_frame _ _ _ Hm). congruence.
  - by eapply request_moves_completion.
Qed.

(** ** A task is completed once *)

Lemma completeTask_success_inv (w : World) (userId taskId : Id) (p : Payload) :
  pending w = [] →
  (completeTask userId taskId w).2 = Normal (mkResponse 200 p) →
  ∃ task,
    tasks w !! taskId = Some task ∧ status task = "active"
    ∧ data (single (user_task_rows userId taskId w)) = None
    ∧ user_tasks (completeTask userId taskId w).1
      = user_tasks w ++ [mkUserTask userId taskId "completed" (reward task)].
Proof.
  intros Hp. unfold completeTask, route, try_catch.
  healthy_step. unfold active_task_rows.
  destruct (tasks w !! taskId) as [task|]; [| discriminate].
  case_decide; [| discriminate]. cbn [single data error].
  healthy_step.
  destruct (single (user_task_rows userId taskId w)) as [[row|] e] eqn:Hsingle;
    cbn [data]; [discriminate |].
  repeat healthy_step. rewrite bind_unfold.
  match goal with
  | |- context [checkReferralBonuses userId ?w2] =>
      destruct (checkReferralBonuses_healthy userId w2) as (w' & Heq & Hmoves);
      [done | rewrite Heq]
  end.
  simpl. intros _. exists task. repeat (split; [done |]).
  by destruct (engine_moves_frame _ _ _ Hmoves) as (_ & _ & -> & _).
Qed.

(** C5. Once a completion of (user, task) has succeeded, a second
    [completeTask] for the same pair, right away or after any other
    requests, is refused with "Task already completed" and leaves the world,
    and so the user's balance, as it was. *)
Theorem second_completion_is_refused (w : World) (userId taskId : Id)
    (p : Payload) (ops : list Op) :
  pending w = [] →
  user_tasks_unique w →
  (completeTask userId taskId w).2 = Normal (mkResponse 200 p) →
  let w2 := run ops (completeTask userId taskId w).1 in
  (∃ row, user_task_rows userId taskId w2 = [row])
  ∧ completeTask userId taskId w2
    = (w2, Normal (mkResponse 400 (Error "Task already completed")))
  ∧ balance_of userId (completeTask userId taskId w2).1 = balance_of userId w2.
Proof.
  intros Hp Huniq Hok w2.
  destruct (completeTask_success_inv w userId taskId p Hp Hok)
    as (task & Ht & Hs & Hnone & Huts).
  pose proof (completeTask_healthy w userId taskId Hp) as Hm.
  destruct (request_moves_frame _ _ _ Hm) as [Hp1 Ht1].
  assert (Hrow1 : user_task_rows userId taskId (completeTask userId taskId w).1
                  = [mkUserTask userId taskId "completed" (reward task)]).
  { unfold user_task_rows in *. rewrite Huts, filter_app.
    specialize (Huniq userId taskId). unfold user_task_rows in Huniq.
    destruct (filter _ (user_tasks w)) as [| r0 [| r1 rest]];
      [| discriminate | simpl in Huniq; lia].
    by rewrite filter_cons_True. }
  assert (Hp1' : pending (completeTask userId taskId w).1 = []) by congruence.
  destruct (run_frame ops _ Hp1') as [Hp2 Ht2].
  pose proof (run_completion ops _ userId taskId _ Hp1' Hrow1) as Hrow2.
  fold w2 in Hp2, Ht2, Hrow2.
  assert (Heq : completeTask userId taskId w2
                = (w2, Normal (mkResponse 400 (Error "Task already completed")))).
  { eapply completeTask_already; [done | | exact Hs | exact Hrow2]. congruence. }
  split; [eauto |]. split; [exact Heq |]. by rewrite Heq.
Qed.

Lemma second_completion_is_refused_witness :
  let w2 := run [RequestWithdrawal "rob"
                   (mkWithdrawalRequest (Some 30000) (Some "nequi") (Some "3001234567"))]
              (completeTask "ana" "t1" demo_world).1 in
  (∃ row, user_task_rows "ana" "t1" w2 = [row])
  ∧ completeTask "ana" "t1" w2
    = (w2, Normal (mkResponse 400 (Error "Task already completed")))
  ∧ balance_of "ana" (completeTask "ana" "t1" w2).1 = balance_of "ana" w2.
Proof.
  apply (second_completion_is_refused demo_world "ana" "t1"
           (TaskCompleted "Task completed successfully" 700
              (Some (mkUserTask "ana" "t1" "completed" 700)))).
  - reflexivity.
  - intros u t. simpl. lia.
  - vm_compute. reflexivity.
Defined.

(** ** A skipped milestone *)

(** The chain pays the bonus of a threshold only at that count. *)
Lemma milestone_amount_inv (count snapshot threshold bonus : Z) :
  (threshold, bonus) ∈ [(3, 5000); (7, 4000); (15, 8000)] →
  (milestone count snapshot).1 = bonus →
  count = threshold.
Proof.
  rewrite !elem_of_cons, elem_of_nil. unfold milestone.
  intros [Hin | [Hin | [Hin | []]]]; simplify_eq;
    destruct (Z.eqb_spec count 3), (Z.eqb_spec count 7), (Z.eqb_spec count 15);
    destruct (snapshot <? 3), (snapshot <? 7), (snapshot <? 15);
    simpl; intros; lia.
Qed.

Lemma milestone_off_threshold (count snapshot : Z) :
  count ∉ [3; 7; 15] → (milestone count snapshot).1 = 0.
Proof.
  rewrite !not_elem_of_cons. intros (? & ? & ? & _). unfold milestone.
  destruct (Z.eqb_spec count 3), (Z.eqb_spec count 7), (Z.eqb_spec count 15);
    simpl; lia || reflexivity.
Qed.

(** Requests only raise [tasks_completed] and keep the referrer. *)
Lemma engine_moves_users (userId u : Id) (w w' : World) (user : User) :
  engine_moves userId w w' →
  users w !! u = Some user →
  ∃ user', users w' !! u = Some user'
           ∧ tasks_completed user' = tasks_completed user
           ∧ referred_by user' = referred_by user.
Proof.
  destruct 1 as [| | r rid referral user0 b note]; intros Hu; tables; eauto.
  rewrite lookup_alter. case_decide; subst; rewrite Hu; simpl; eauto.
Qed.

Lemma request_moves_users (op : Op) (u : Id) (w w' : World) (user : User) :
  request_moves w op w' →
  users w !! u = Some user →
  ∃ user', users w' !! u = Some user'
           ∧ tasks_completed user ≤ tasks_completed user'
           ∧ referred_by user' = referred_by user.
Proof.
  destruct 1 as [| v t R w' _ He | v body user0 row note
                 | v body user0 type amount row | v body set line];
    intros Hu; tables.
  - exists user. auto with lia.
  - destruct (engine_moves_users v u _ w'
                (if decide (v = u) then pay_reward R user else user) He)
      as (user' & Hu' & Hc & Hr).
    { tables. rewrite lookup_alter. case_decide; subst; by rewrite Hu. }
    exists user'. split; [done |]. case_decide; simpl in *; split; try (congruence || lia).
  - rewrite lookup_alter. case_decide; subst; rewrite Hu; simpl;
      (eexists; split; [reflexivity | simpl; split; [lia | reflexivity]]).
  - rewrite lookup_alter. case_decide; subst; rewrite Hu; simpl;
      (eexists; split; [reflexivity | simpl; split; [lia | reflexivity]]).
  - rewrite lookup_alter. case_decide; [congruence |]. rewrite Hu.
    eexists; split; [reflexivity | split; [lia | reflexivity]].
Qed.

Lemma run_users (ops : list Op) (u : Id) (w : World) (user : User) :
  pending w = [] →
  users w !! u = Some user →
  ∃ user', users (run ops w) !! u = Some user'
           ∧ tasks_completed user ≤ tasks_completed user'
           ∧ referred_by user' = referred_by user.
Proof.
  revert w user. induction ops as [| op ops IH]; intros w user Hp Hu.
  - exists user. auto with lia.
  - rewrite run_cons. pose proof (handle_healthy op w Hp) as Hm.
    destruct (request_moves_users _ u _ _ user Hm Hu) as (user1 & Hu1 & Hc1 & Hr1).
    destruct (IH (step w op) user1) as (user2 & Hu2 & Hc2 & Hr2); [| done |].
    + destruct (request_moves_frame _ _ _ Hm). congruence.
    + exists user2. split; [done |]. split; [lia | congruence].
Qed.

(** What an evaluation adds to a balance is [0] or the amount of the chain
    at the user's count. *)
Lemma engine_moves_credit (userId v : Id) (w w' : World) :
  engine_moves userId w w' →
  balance_of v w' = balance_of v w
  ∨ ∃ user snapshot,
      users w !! userId = Some user
      ∧ balance_of v w' - balance_of v w = (milestone (tasks_completed user) snapshot).1.
Proof.
  destruct 1 as [| | r rid referral user b note Hu Hrows Hb Hpos]; auto.
  unfold balance_of. tables. rewrite lookup_alter. case_decide; [| auto].
  subst v. destruct (users w !! r) as [referrer|]; simpl; [| auto].
  right. exists user, (rf_tasks_completed referral). split; [done |]. lia.
Qed.

Lemma engine_moves_recorded (userId rid : Id) (w w' : World) (r2 r3 : Referral) :
  engine_moves userId w w' →
  referrals w !! rid = Some r2 →
  referrals w' !! rid = Some r3 →
  bonus_earned r3 = bonus_earned r2
  ∨ ∃ user snapshot,
      users w !! userId = Some user
      ∧ referred_id r2 = userId
      ∧ bonus_earned r3 - bonus_earned r2 = (milestone (tasks_completed user) snapshot).1.
Proof.
  destruct 1 as [| r rid0 referral c Hrows
                 | r rid0 referral user b note Hu Hrows Hb Hpos]; tables; intros H2 H3.
  - left. congruence.
  - left. rewrite lookup_alter in H3. case_decide; subst.
    + rewrite H2 in H3. simpl in H3. by simplify_eq.
    + congruence.
  - rewrite lookup_alter in H3. case_decide; subst.
    + destruct (referral_rows_single _ _ _ _ _ Hrows) as (Hrid & _ & Hrd).
      tables. rewrite H2 in Hrid, H3. simpl in H3. simplify_eq. right.
      exists user, (rf_tasks_completed referral). split; [done |]. split; [done |].
      simpl. lia.
    + left. congruence.
Qed.

(** The engine keeps the pair of every referral row. *)
Lemma engine_moves_referral (userId rid : Id) (w w' : World) (r : Referral) :
  engine_moves userId w w' →
  referrals w !! rid = Some r →
  ∃ r', referrals w' !! rid = Some r' ∧ referred_id r' = referred_id r.
Proof.
  destruct 1; tables; intros Hr; eauto;
    rewrite lookup_alter; case_decide; subst; rewrite ?Hr; simpl; eauto.
Qed.

Lemma request_moves_referral (op : Op) (rid : Id) (w w' : World) (r : Referral) :
  request_moves w op w' →
  referrals w !! rid = Some r →
  ∃ r', referrals w' !! rid = Some r' ∧ referred_id r' = referred_id r.
Proof.
  destruct 1 as [| v t R w' _ He | | |]; tables; eauto.
  intros Hr. by eapply engine_moves_referral.
Qed.

Lemma run_referral (ops : list Op) (rid : Id) (w : World) (r : Referral) :
  pending w = [] →
  referrals w !! rid = Some r →
  ∃ r', referrals (run ops w) !! rid = Some r' ∧ referred_id r' = referred_id r.
Proof.
  revert w r. induction ops as [| op ops IH]; intros w r Hp Hr; [eauto |].
  rewrite run_cons. pose proof (handle_healthy op w Hp) as Hm.
  destruct (request_moves_referral _ rid _ _ r Hm Hr) as (r1 & Hr1 & Hd1).
  destruct (IH (step w op) r1) as (r2 & Hr2 & Hd2); [| done |].
  - destruct (request_moves_frame _ _ _ Hm). congruence.
  - exists r2. split; [done | congruence].
Qed.

(** What one request adds to the [bonus_earned] of a referral row: nothing,
    or, when the referred user completes a task, the amount of the chain at
    the count the completion leaves. *)
Lemma request_moves_recorded (op : Op) (rid : Id) (w w' : World) (r2 r3 : Referral) :
  request_moves w op w' →
  referrals w !! rid = Some r2 →
  referrals w' !! rid = Some r3 →
  bonus_earned r3 = bonus_earned r2
  ∨ ∃ user snapshot,
      users w !! referred_id r2 = Some user
      ∧ bonus_earned r3 - bonus_earned r2
        = (milestone (tasks_completed user + 1) snapshot).1.
Proof.
  destruct 1 as [| v t R w' _ He | | |]; tables; intros H2 H3;
    try (left; congruence).
  destruct (engine_moves_recorded v rid _ _ r2 r3 He H2 H3)
    as [? | (user & snapshot & Hu & Hv & Hd)]; [by left |].
  right. revert Hu. tables. rewrite lookup_alter_eq.
  destruct (users w !! v) as [user0|] eqn:Hu0; simpl; [| done].
  intros ?. simplify_eq. exists user0, snapshot. split; [done |]. by rewrite Hd.
Qed.

(** C9. When an evaluation finds the count above a threshold that the
    snapshot is still below, and the count is no threshold itself, nothing
    is awarded and the snapshot moves to the count.  From then on the
    count only grows, so the condition of the skipped threshold is false at
    every later evaluation: after any requests the count is above the
    threshold, the chain never yields its bonus, an evaluation adds its
    bonus to no balance and to no referral, and no further request adds it
    to the referral of the pair. *)
Theorem skipped_milestone_is_lost (w : World) (userId referrerId rid : Id)
    (user : User) (referral : Referral) (threshold bonus : Z) :
  pending w = [] →
  users w !! userId = Some user →
  referred_by user = Some referrerId →
  referrerId ≠ "" →
  referral_rows referrerId userId w = [(rid, referral)] →
  (threshold, bonus) ∈ [(3, 5000); (7, 4000); (15, 8000)] →
  rf_tasks_completed referral < threshold →
  threshold < tasks_completed user →
  tasks_completed user ∉ [3; 7; 15] →
  let w1 := (checkReferralBonuses userId w).1 in
  (checkReferralBonuses userId w).2 = Normal tt
  ∧ users w1 = users w
  ∧ notifications w1 = notifications w
  ∧ referrals w1 !! rid
    = Some (mkReferral referrerId userId (bonus_earned referral) (tasks_completed user))
  ∧ ∀ ops : list Op,
      let w2 := run ops w1 in
      let w3 := (checkReferralBonuses userId w2).1 in
      (∃ user2, users w2 !! userId = Some user2
                ∧ threshold < tasks_completed user2
                ∧ ∀ snapshot, (milestone (tasks_completed user2) snapshot).1 ≠ bonus)
      ∧ (∀ v, balance_of v w3 - balance_of v w2 ≠ bonus)
      ∧ (∀ rid' r2 r3, referrals w2 !! rid' = Some r2 → referrals w3 !! rid' = Some r3 →
           bonus_earned r3 - bonus_earned r2 ≠ bonus)
      ∧ (∀ op r2 r3, referrals w2 !! rid = Some r2 →
           referrals (step w2 op) !! rid = Some r3 →
           bonus_earned r3 - bonus_earned r2 ≠ bonus).
Proof.
  intros Hp Hu Href Hne Hrows Hin Hsnap Hcount Hoff w1.
  destruct (referral_rows_single _ _ _ _ _ Hrows) as (Hrid & Hrr & Hrd).
  assert (Hpos : 0 < bonus).
  { rewrite !elem_of_cons, elem_of_nil in Hin.
    destruct Hin as [? | [? | [? | []]]]; simplify_eq; lia. }
  assert (Heq : checkReferralBonuses userId w
                = (with_referrals (alter (record_count (tasks_completed user)) rid) w,
                   Normal tt)).
  { unfold checkReferralBonuses, try_catch, checkReferralBonuses_body.
    healthy_step. rewrite Hu. simpl. rewrite Href.
    rewrite bool_decide_eq_false_2 by done.
    healthy_step. rewrite Hrows. simpl.
    rewrite milestone_off_threshold by done. simpl.
    healthy_step. reflexivity. }
  subst w1. rewrite Heq. cbn [fst snd]. tables.
  split; [done |]. split; [done |]. split; [done |]. split.
  { rewrite lookup_alter_eq, Hrid. simpl. unfold record_count. by rewrite Hrr, Hrd. }
  intros ops.
  set (w2 := run ops (with_referrals (alter (record_count (tasks_completed user)) rid) w)).
  assert (Hp1 : pending (with_referrals (alter (record_count (tasks_completed user)) rid) w)
                = []) by done.
  destruct (run_frame ops _ Hp1) as [Hp2 _].
  destruct (run_users ops userId _ user Hp1 Hu) as (user2 & Hu2 & Hc2 & _).
  fold w2 in Hp2, Hu2.
  assert (Hchain : ∀ snapshot, (milestone (tasks_completed user2) snapshot).1 ≠ bonus).
  { intros snapshot Hb.
    pose proof (milestone_amount_inv _ _ _ _ Hin Hb). lia. }
  destruct (checkReferralBonuses_healthy userId w2 Hp2) as (w3' & Heq3 & Hmoves).
  rewrite Heq3. cbn [fst].
  split; [| split; [| split]].
  - exists user2. split; [done |]. split; [lia | done].
  - intros v. destruct (engine_moves_credit userId v _ _ Hmoves)
      as [-> | (user2' & snapshot & Hu2' & ->)]; [lia |].
    rewrite Hu2 in Hu2'. simplify_eq. apply Hchain.
  - intros rid' r2 r3 H2 H3.
    destruct (engine_moves_recorded userId rid' _ _ r2 r3 Hmoves H2 H3)
      as [-> | (user2' & snapshot & Hu2' & _ & ->)]; [lia |].
    rewrite Hu2 in Hu2'. simplify_eq. apply Hchain.
  - intros op r2 r3 H2 H3.
    destruct (run_referral ops rid _ (record_count (tasks_completed user) referral) Hp1)
      as (r2' & Hr2' & Hpair).
    { tables. by rewrite lookup_alter_eq, Hrid. }
    fold w2 in Hr2'. rewrite H2 in Hr2'. injection Hr2' as <-. simpl in Hpair.
    destruct (request_moves_recorded op rid w2 _ r2 r3 (handle_healthy op w2 Hp2) H2 H3)
      as [-> | (user2' & snapshot & Hu2' & ->)]; [lia |].
    rewrite Hpair, Hrd, Hu2 in Hu2'. injection Hu2' as <-.
    intros Hb. pose proof (milestone_amount_inv _ _ _ _ Hin Hb). lia.
Qed.

Lemma skipped_milestone_is_lost_witness :
  let w := with_users (<["ana" := mkUser 700 700 4 (Some "rob")]>) demo_world in
  let w1 := (checkReferralBonuses "ana" w).1 in
  (checkReferralBonuses "ana" w).2 = Normal tt
  ∧ users w1 = users w
  ∧ notifications w1 = notifications w
  ∧ referrals w1 !! "r1" = Some (mkReferral "rob" "ana" 0 4)
  ∧ ∀ ops : list Op,
      let w2 := run ops w1 in
      let w3 := (checkReferralBonuses "ana" w2).1 in
      (∃ user2, users w2 !! "ana" = Some user2
                ∧ 3 < tasks_completed user2
                ∧ ∀ snapshot, (milestone (tasks_completed user2) snapshot).1 ≠ 5000)
      ∧ (∀ v, balance_of v w3 - balance_of v w2 ≠ 5000)
      ∧ (∀ rid' r2 r3, referrals w2 !! rid' = Some r2 → referrals w3 !! rid' = Some r3 →
           bonus_earned r3 - bonus_earned r2 ≠ 5000)
      ∧ (∀ op r2 r3, referrals w2 !! "r1" = Some r2 →
           referrals (step w2 op) !! "r1" = Some r3 →
           bonus_earned r3 - bonus_earned r2 ≠ 5000).
Proof.
  apply (skipped_milestone_is_lost
           (with_users (<["ana" := mkUser 700 700 4 (Some "rob")]>) demo_world)
           "ana" "rob" "r1" (mkUser 700 700 4 (Some "rob"))
           (mkReferral "rob" "ana" 0 2) 3 5000).
  - reflexivity.
  - vm_compute. reflexivity.
  - reflexivity.
  - discriminate.
  - vm_compute. reflexivity.
  - apply list_elem_of_here.
  - simpl. lia.
  - simpl. lia.
  - simpl. intros Hin. rewrite !elem_of_cons, elem_of_nil in Hin. lia.
Defined.

(** ** A milestone fires once *)

(** C1. A milestone fires once for a referral pair: evaluated on a healthy
    store when the referred user's count is a threshold (3, 7 or 15) and the
    snapshot of the referral is below it, [checkReferralBonuses] adds the
    bonus of the threshold (5000, 4000, 8000) to the referrer's balance and
    to the referral's [bonus_earned] and sets the snapshot to the count;
    evaluating again with the count unchanged changes nothing, and no
    request that follows, after any others, adds that bonus to the
    referral again. *)
Theorem referral_milestone_fires_once (w : World) (userId referrerId rid : Id)
    (user referrer : User) (referral : Referral) (threshold bonus : Z) :
  pending w = [] →
  users w !! userId = Some user →
  referred_by user = Some referrerId →
  referrerId ≠ "" →
  users w !! referrerId = Some referrer →
  referral_rows referrerId userId w = [(rid, referral)] →
  (threshold, bonus) ∈ [(3, 5000); (7, 4000); (15, 8000)] →
  tasks_completed user = threshold →
  rf_tasks_completed referral < threshold →
  ∃ w1 : World,
    checkReferralBonuses userId w = (w1, Normal tt)
    ∧ balance <$> users w1 !! referrerId = Some (balance referrer + bonus)
    ∧ referrals w1 !! rid
      = Some (mkReferral referrerId userId (bonus_earned referral + bonus) threshold)
    ∧ tasks_completed <$> users w1 !! userId = Some threshold
    ∧ checkReferralBonuses userId w1 = (w1, Normal tt)
    ∧ ∀ (ops : list Op) (op : Op) (r2 r3 : Referral),
        referrals (run ops w1) !! rid = Some r2 →
        referrals (step (run ops w1) op) !! rid = Some r3 →
        bonus_earned r3 - bonus_earned r2 ≠ bonus.
Proof.
  intros Hp Hu Href Hne Hr Hrows Hin Hcount Hsnap.
  destruct (referral_rows_single _ _ _ _ _ Hrows) as (Hrid & Hrr & Hrd).
  assert (Hm : (milestone threshold (rf_tasks_completed referral)).1 = bonus
               ∧ (milestone threshold threshold).1 = 0 ∧ 0 < bonus).
  { clear -Hin Hsnap. rewrite !elem_of_cons, elem_of_nil in Hin.
    destruct Hin as [Hin | [Hin | [Hin | []]]]; simplify_eq;
      unfold milestone; simpl;
      match goal with
      | |- context [rf_tasks_completed referral <? ?t] =>
          destruct (Z.ltb_spec (rf_tasks_completed referral) t); [| lia]
      end;
      simpl; repeat split; lia. }
  destruct Hm as (Hm1 & Hm2 & Hpos).
  set (w1 := with_notifications
      (λ rows, rows ++ [mkNotification referrerId "¡Nuevo bono de referido!"
         "Has ganado COP ${bonusAmount} por las tareas completadas de tu referido."
         bonus "success"])
      (with_referrals (alter (record_bonus bonus threshold) rid)
         (with_users (alter (credit_bonus bonus) referrerId) w))).
  assert (Hu1 : ∃ user1, users w1 !! userId = Some user1
                 ∧ tasks_completed user1 = threshold ∧ referred_by user1 = Some referrerId).
  { subst w1. simpl. rewrite lookup_alter. case_decide as Heq.
    - rewrite Heq, Hu. eexists. split; [done |]. simpl. split; congruence.
    - eauto. }
  exists w1. split; [| split; [| split; [| split; [| split]]]].
  - unfold checkReferralBonuses, try_catch, checkReferralBonuses_body.
    healthy_step. rewrite Hu. simpl. rewrite Href.
    rewrite bool_decide_eq_false_2 by done.
    healthy_step. rewrite Hrows. simpl. rewrite Hcount, Hm1.
    destruct (Z.ltb_spec 0 bonus); [| lia].
    repeat healthy_step. reflexivity.
  - subst w1. simpl. rewrite lookup_alter_eq, Hr. done.
  - subst w1. simpl. rewrite lookup_alter_eq, Hrid. simpl.
    unfold record_bonus. by rewrite Hrr, Hrd.
  - destruct Hu1 as (user1 & -> & <- & _). done.
  - destruct Hu1 as (user1 & Hu1 & Hc1 & Href1).
    assert (Hp1 : pending w1 = []) by (subst w1; done).
    assert (Hrows1 : referral_rows referrerId userId w1
                     = [(rid, record_bonus bonus threshold referral)]).
    { eapply referral_rows_alter; [exact Hrows | by subst w1 | by intros []]. }
    unfold checkReferralBonuses, try_catch, checkReferralBonuses_body.
    healthy_step. rewrite Hu1. simpl. rewrite Href1.
    rewrite bool_decide_eq_false_2 by done.
    healthy_step. rewrite Hrows1. simpl. rewrite Hc1, Hm2. simpl.
    healthy_step. simpl.
    rewrite with_referrals_id; [done |].
    apply alter_id. intros x Hx.
    destruct (referral_rows_single _ _ _ _ _ Hrows1) as (Hrid1 & _).
    rewrite Hrid1 in Hx. by simplify_eq.
  - intros ops op r2 r3 H2 H3.
    destruct Hu1 as (user1 & Hu1 & Hc1 & _).
    assert (Hp1 : pending w1 = []) by (subst w1; done).
    destruct (run_frame ops w1 Hp1) as [Hp2 _].
    destruct (run_users ops userId w1 user1 Hp1 Hu1) as (user2 & Hu2 & Hc2 & _).
    destruct (run_referral ops rid w1 (record_bonus bonus threshold referral) Hp1)
      as (r2' & Hr2' & Hpair).
    { subst w1. tables. by rewrite lookup_alter_eq, Hrid. }
    rewrite H2 in Hr2'. injection Hr2' as <-. simpl in Hpair.
    destruct (request_moves_recorded op rid _ _ r2 r3
                (handle_healthy op _ Hp2) H2 H3)
      as [-> | (user2' & snapshot & Hu2' & ->)]; [lia |].
    rewrite Hpair, Hrd, Hu2 in Hu2'. injection Hu2' as <-.
    intros Hb. pose proof (milestone_amount_inv _ _ _ _ Hin Hb). lia.
Qed.

Lemma referral_milestone_fires_once_witness :
  ∃ w1 : World,
    checkReferralBonuses "ana" demo_world = (w1, Normal tt)
    ∧ balance <$> users w1 !! "rob" = Some (30000 + 5000)
    ∧ referrals w1 !! "r1" = Some (mkReferral "rob" "ana" (0 + 5000) 3)
    ∧ tasks_completed <$> users w1 !! "ana" = Some 3
    ∧ checkReferralBonuses "ana" w1 = (w1, Normal tt)
    ∧ ∀ (ops : list Op) (op : Op) (r2 r3 : Referral),
        referrals (run ops w1) !! "r1" = Some r2 →
        referrals (step (run ops w1) op) !! "r1" = Some r3 →
        bonus_earned r3 - bonus_earned r2 ≠ 5000.
Proof.
  apply (referral_milestone_fires_once demo_world "ana" "rob" "r1"
           (mkUser 0 0 3 (Some "rob")) (mkUser 30000 30000 0 None)
           (mkReferral "rob" "ana" 0 2) 3 5000).
  - reflexivity.
  - vm_compute. reflexivity.
  - reflexivity.
  - discriminate.
  - vm_compute. reflexivity.
  - vm_compute. reflexivity.
  - apply list_elem_of_here.
  - reflexivity.
  - simpl. lia.
Defined.

(** ** The ledger *)

Lemma total_filter_snoc {A} (f : A → Z) (P : A → Prop) `{!∀ x, Decision (P x)}
    (rows : list A) (row : A) :
  total f (filter P (rows ++ [row]))
  = total f (filter P rows) + (if decide (P row) then f row else 0).
Proof.
  rewrite filter_app. unfold total. rewrite foldr_app.
  generalize (filter P rows). intros l.
  rewrite filter_cons, filter_nil.
  induction l as [| x l IH]; simpl.
  - case_decide; simpl; lia.
  - rewrite IH. lia.
Qed.

Lemma bonuses_fold_alter (u rid : Id) (m : gmap Id Referral) (referral : Referral)
    (f : Referral → Referral) :
  m !! rid = Some referral →
  map_fold (λ _ r acc, bonus_of u r + acc) 0 (alter f rid m)
  = map_fold (λ _ r acc, bonus_of u r + acc) 0 m
    - bonus_of u referral + bonus_of u (f referral).
Proof.
  intros Hrid.
  rewrite <- (insert_delete_id m rid referral Hrid) at 1 2.
  rewrite alter_insert_eq.
  rewrite !map_fold_insert_L; try (by apply lookup_delete_eq); intros; lia.
Qed.

Lemma balance_of_alter (f : User → User) (v u : Id) (w w' : World) (d : Z) :
  users w' = alter f v (users w) →
  is_Some (users w !! u) →
  (∀ x, balance (f x) = balance x + d) →
  balance_of u w' = balance_of u w + (if decide (v = u) then d else 0).
Proof.
  intros Hw' [user Hu] Hf. unfold balance_of. rewrite Hw', lookup_alter.
  case_decide; subst; rewrite Hu; simpl; [apply Hf | lia].
Qed.

Lemma engine_moves_ledger (userId u : Id) (w w' : World) :
  engine_moves userId w w' →
  is_Some (users w !! u) →
  balance_of u w' - ledger u w' = balance_of u w - ledger u w.
Proof.
  destruct 1 as [| r rid referral c Hrows
                 | r rid referral user b note Hu Hrows Hb Hpos]; intros Hex; [done | |].
  - destruct (referral_rows_single _ _ _ _ _ Hrows) as (Hrid & _).
    unfold ledger, transactions_sum, rewards_sum, withdrawals_sum, bonuses_sum,
      balance_of. tables.
    rewrite (bonuses_fold_alter u rid _ referral) by done.
    unfold bonus_of, record_count. simpl. lia.
  - destruct (referral_rows_single _ _ _ _ _ Hrows) as (Hrid & Hrr & _).
    rewrite (balance_of_alter (credit_bonus b) r u w _ b); [| done | done | done].
    unfold ledger, transactions_sum, rewards_sum, withdrawals_sum, bonuses_sum. tables.
    rewrite (bonuses_fold_alter u rid _ referral) by done.
    unfold bonus_of, record_bonus. simpl. rewrite Hrr.
    repeat case_decide; lia.
Qed.

Lemma request_moves_ledger (op : Op) (u : Id) (w w' : World) :
  request_moves w op w' →
  is_Some (users w !! u) →
  balance_of u w' - ledger u w' = balance_of u w - ledger u w.
Proof.
  destruct 1 as [| v t R w' _ He | v body user0 row note Hv Hrow
                 | v body user0 type amount row Hv Hrow | v body set line Hv];
    intros Hex; [done | | | |].
  - rewrite (engine_moves_ledger v u _ w' He).
    2:{ tables. rewrite lookup_alter. destruct Hex as [x Hx].
        case_decide; subst; rewrite Hx; eauto. }
    rewrite (balance_of_alter (pay_reward R) v u w _ R); [| done | done | done].
    unfold ledger, transactions_sum, rewards_sum, withdrawals_sum, bonuses_sum. tables.
    rewrite total_filter_snoc. simpl. repeat case_decide; try lia; congruence.
  - rewrite (balance_of_alter (debit (wd_amount row)) v u w _ (- wd_amount row));
      [| done | done | intros; simpl; lia].
    unfold ledger, transactions_sum, rewards_sum, withdrawals_sum, bonuses_sum. tables.
    rewrite total_filter_snoc. repeat case_decide; try lia; congruence.
  - rewrite (balance_of_alter (apply_change type amount (tx_amount row)) v u w _
               (tx_amount row)); [| done | done | done].
    unfold ledger, transactions_sum, rewards_sum, withdrawals_sum, bonuses_sum. tables.
    rewrite total_filter_snoc. repeat case_decide; try lia; congruence.
  - destruct Hex as [x Hx]. unfold balance_of, ledger, transactions_sum, rewards_sum,
      withdrawals_sum, bonuses_sum. tables.
    rewrite lookup_alter_ne by congruence. done.
Qed.

Lemma request_moves_transactions (op : Op) (w w' : World) :
  request_moves w op w' →
  (∀ userId body, op ≠ UpdateBalance userId body) →
  transactions w' = transactions w.
Proof.
  destruct 1 as [| v t R w' _ He | | v body |]; intros Hop; try done.
  - by destruct (engine_moves_frame _ _ _ He) as (_ & _ & _ & -> & _).
  - by destruct (Hop v body).
Qed.

Lemma run_ledger (ops : list Op) (w : World) (u : Id) :
  pending w = [] →
  is_Some (users w !! u) →
  pending (run ops w) = []
  ∧ balance_of u (run ops w) - ledger u (run ops w) = balance_of u w - ledger u w.
Proof.
  revert w. induction ops as [| op ops IH]; intros w Hp Hex; [done |].
  rewrite run_cons. pose proof (handle_healthy op w Hp) as Hm.
  destruct (request_moves_frame _ _ _ Hm) as [Hp' _].
  destruct (IH (step w op)) as [Hp2 Hl2]; [congruence | |].
  - destruct Hex as [x Hx].
    destruct (request_moves_users _ u _ _ x Hm Hx) as (x' & Hx' & _). eauto.
  - split; [done |]. rewrite Hl2. by eapply request_moves_ledger.
Qed.

(** C2, as the handlers have it.  Over any sequence of completions,
    withdrawals and balance updates on a healthy store, a user's balance
    moves exactly as the user's recorded movements do: the transaction
    amounts plus the completion rewards plus the referral bonuses earned
    minus the withdrawal amounts.  Each request records what it moves in
    its own table; a transaction is appended by balance updates only. *)
Theorem ledger_is_preserved (ops : list Op) (w : World) (userId : Id) :
  pending w = [] →
  is_Some (users w !! userId) →
  balance_of userId (run ops w) - ledger userId (run ops w)
  = balance_of userId w - ledger userId w
  ∧ (balance_of userId w = ledger userId w →
     balance_of userId (run ops w) = ledger userId (run ops w))
  ∧ (∀ op, (∀ v body, op ≠ UpdateBalance v body) →
       transactions (step (run ops w) op) = transactions (run ops w)).
Proof.
  intros Hp Hex. destruct (run_ledger ops w userId Hp Hex) as [Hp' Hl].
  split; [exact Hl |]. split; [lia |].
  intros op Hop.
  eapply request_moves_transactions; [| exact Hop]. by apply handle_healthy.
Qed.

Lemma ledger_is_preserved_witness :
  let ops := [CompleteTask "ana" "t1";
              UpdateBalance "rob" (mkBalanceRequest (Some 500) (Some "add") None);
              RequestWithdrawal "rob"
                (mkWithdrawalRequest (Some 30000) (Some "nequi") (Some "3001234567"))] in
  balance_of "rob" (run ops demo_world) - ledger "rob" (run ops demo_world)
  = balance_of "rob" demo_world - ledger "rob" demo_world
  ∧ (balance_of "rob" demo_world = ledger "rob" demo_world →
     balance_of "rob" (run ops demo_world) = ledger "rob" (run ops demo_world))
  ∧ (∀ op, (∀ v body, op ≠ UpdateBalance v body) →
       transactions (step (run ops demo_world) op) = transactions (run ops demo_world)).
Proof.
  apply (ledger_is_preserved _ demo_world "rob").
  - reflexivity.
  - exists (mkUser 30000 30000 0 None). vm_compute. reflexivity.
Defined.

(** C2, as stated, fails: on a store where every balance is the sum of the
    user's transactions, one task completion pays 700 and appends no
    transaction. *)
Lemma transactions_invariant_counterexample :
  balance_is_transactions_sum fresh_world
  ∧ (completeTask "eva" "t1" fresh_world).2
    = Normal (mkResponse 200
        (TaskCompleted "Task completed successfully" 700
           (Some (mkUserTask "eva" "t1" "completed" 700))))
  ∧ balance_of "eva" (run [CompleteTask "eva" "t1"] fresh_world) = 700
  ∧ transactions (run [CompleteTask "eva" "t1"] fresh_world) = []
  ∧ ¬ balance_is_transactions_sum (run [CompleteTask "eva" "t1"] fresh_world).
Proof.
  split; [| split; [| split; [| split]]].
  - intros u user Hu. unfold fresh_world in Hu. cbn [users] in Hu.
    apply lookup_singleton_Some in Hu as [<- <-]. reflexivity.
  - vm_compute. reflexivity.
  - vm_compute. reflexivity.
  - vm_compute. reflexivity.
  - intros Hinv. specialize (Hinv "eva" (mkUser 700 700 1 None)).
    assert (H : balance (mkUser 700 700 1 None)
                = transactions_sum "eva" (run [CompleteTask "eva" "t1"] fresh_world)).
    { apply Hinv. vm_compute. reflexivity. }
    vm_compute in H. discriminate.
Qed.

(** * The other routes *)

(** ** Withdrawal methods and the fee *)

(** A request that passed the check of the method is never answered with
    the error of that check, whatever the store does afterwards. *)
Lemma requestWithdrawal_supported_method (w : World) (userId : Id) (amount : Z)
    (method account_info : string) :
  method ∈ ["paypal"; "nequi"] →
  (requestWithdrawal userId
     (mkWithdrawalRequest (Some amount) (Some method) (Some account_info)) w).2
  ≠ Normal (mkResponse 400 (Error "Invalid withdrawal method")).
Proof.
  intros Hm. unfold requestWithdrawal, route, try_catch, console_error. simpl.
  destruct (negb _ || _ || _); [discriminate |].
  rewrite bool_decide_eq_true_2 by done. simpl.
  destruct (amount <? MINIMUM_WITHDRAWAL); [discriminate |].
  fault_step; tables; try discriminate.
  destruct (users w !! userId) as [user|]; simpl; [| discriminate].
  destruct (balance user <? amount); [discriminate |].
  repeat (fault_step; try discriminate).
Qed.

(** X1. The methods that GET /methods advertises are exactly the ones a
    withdrawal request accepts, and the minimum and the fee percentage it
    shows are the ones the request applies (25000 and 10). *)
Theorem advertised_methods_are_accepted (w : World) :
  ∃ methods : list Method,
    getMethods w = (w, Normal (Sent 200 methods))
    ∧ (∀ m, m ∈ methods →
         md_min_amount m = MINIMUM_WITHDRAWAL
         ∧ (md_fee_percentage m == 10)%Q
         ∧ (md_fee_percentage m / 100 == WITHDRAWAL_FEE_PERCENTAGE)%Q
         ∧ md_active m = true)
    ∧ (∀ (userId : Id) (amount : Z) (method account_info : string),
         amount ≠ 0 → method ≠ "" → account_info ≠ "" →
         (requestWithdrawal userId
            (mkWithdrawalRequest (Some amount) (Some method) (Some account_info)) w).2
         = Normal (mkResponse 400 (Error "Invalid withdrawal method"))
         ↔ method ∉ md_id <$> methods).
Proof.
  eexists. split; [reflexivity |]. split.
  - intros m Hm. rewrite !elem_of_cons, elem_of_nil in Hm.
    destruct Hm as [-> | [-> | []]]; simpl; repeat split; reflexivity.
  - intros userId amount method account_info Hamount Hmethod Haccount. simpl.
    destruct (decide (method ∈ ["paypal"; "nequi"])) as [Hin | Hout].
    + split; [| done]. intros Heq.
      by destruct (requestWithdrawal_supported_method w userId amount method
                     account_info Hin).
    + split; [done |]. intros _.
      unfold requestWithdrawal, route, try_catch. simpl.
      destruct (Z.eqb_spec amount 0); [done |]. simpl.
      rewrite !bool_decide_eq_false_2 by done. reflexivity.
Qed.



(** ** Referral statistics *)

Lemma total_perm {A} (f : A → Z) (l1 l2 : list A) :
  l1 ≡ₚ l2 → total f l1 = total f l2.
Proof. unfold total. induction 1; simpl; lia. Qed.

(** The sum the statistics take over the rows of a referrer is the bonus
    part of the ledger. *)
Lemma bonuses_sum_rows (userId : Id) (w : World) :
  total bonus_earned (referrer_rows userId w) = bonuses_sum userId w.
Proof.
  unfold referrer_rows, bonuses_sum. generalize (referrals w). intros m.
  induction m as [| i x m Hi IH] using map_ind.
  - by rewrite map_filter_empty, map_to_list_empty, map_fold_empty.
  - rewrite map_fold_insert_L; [| intros; lia | done].
    rewrite map_filter_insert. simpl. unfold bonus_of at 1. case_decide.
    + assert (Hperm : (map_to_list
                (<[i:=x]> (filter (λ row : Id * Referral, referrer_id row.2 = userId) m))).*2
              ≡ₚ x :: (map_to_list
                (filter (λ row : Id * Referral, referrer_id row.2 = userId) m)).*2).
      { rewrite map_to_list_insert; [done |].
        apply map_lookup_filter_None. by left. }
      rewrite (total_perm _ _ _ Hperm). simpl. by rewrite IH.
    + rewrite delete_id by done. by rewrite IH.
Qed.

Lemma count_milestones_spec (rows : list Referral) (milestones : list Milestone) :
  count_milestones rows milestones
  = (λ m, mkMilestone (ms_tasks m) (ms_bonus m)
            (ms_achieved m + reached (ms_tasks m) rows)) <$> milestones.
Proof.
  unfold count_milestones, reached. revert milestones.
  induction rows as [| ref rows IH]; intros milestones; simpl.
  - rewrite <- (list_fmap_id milestones) at 1. apply list_fmap_ext.
    intros _ [t b a] _. simpl. f_equal. lia.
  - rewrite IH, <- list_fmap_compose. apply list_fmap_ext.
    intros _ [t b a] _. unfold achieve. simpl.
    rewrite filter_cons. simpl.
    case_bool_decide; case_decide; try done; simpl; f_equal; lia.
Qed.

Lemma reached_mono (lower higher : Z) (rows : list Referral) :
  lower ≤ higher → reached higher rows ≤ reached lower rows.
Proof.
  intros Hle. unfold reached. apply inj_le.
  induction rows as [| ref rows IH]; [done |].
  rewrite !filter_cons. repeat case_decide; simpl; lia.
Qed.

Lemma reached_le_length (tasks : Z) (rows : list Referral) :
  reached tasks rows ≤ Z.of_nat (length rows).
Proof. unfold reached. apply inj_le, length_filter. Qed.

Lemma getReferralStats_healthy (w : World) (userId : Id) :
  pending w = [] →
  getReferralStats userId w
  = (w, Normal (Sent 200
       (mkReferralStats
          (Z.of_nat (length (referrer_rows userId w)))
          (total bonus_earned (referrer_rows userId w))
          (Z.of_nat (length (filter (λ ref, 0 < rf_tasks_completed ref)
                               (referrer_rows userId w))))
          (count_milestones (referrer_rows userId w)
             [mkMilestone 3 5000 0; mkMilestone 7 4000 0; mkMilestone 15 8000 0])))).
Proof.
  intros Hp. unfold getReferralStats, answering, try_catch, select_referrals_of.
  healthy_step. reflexivity.
Qed.

(** X3. On a healthy store the referral statistics of a user count the
    user's referral rows, and their total_earnings is the sum of
    bonus_earned over those rows: the amount the ledger holds as the
    bonuses the user earned.  The route leaves the store as it was. *)
Theorem referral_stats_totals (w : World) (userId : Id) :
  pending w = [] →
  ∃ stats : ReferralStats,
    getReferralStats userId w = (w, Normal (Sent 200 stats))
    ∧ rs_total_referrals stats = Z.of_nat (length (referrer_rows userId w))
    ∧ rs_total_earnings stats = bonuses_sum userId w
    ∧ rs_active_referrals stats = reached 1 (referrer_rows userId w)
    ∧ 0 ≤ rs_active_referrals stats ≤ rs_total_referrals stats.
Proof.
  intros Hp. rewrite getReferralStats_healthy by done.
  eexists. split; [reflexivity |]. simpl.
  split; [done |]. split; [apply bonuses_sum_rows |].
  assert (Hactive : Z.of_nat (length (filter (λ ref, 0 < rf_tasks_completed ref)
                                        (referrer_rows userId w)))
                    = reached 1 (referrer_rows userId w)).
  { unfold reached. do 2 f_equal. apply list_filter_iff. intros ref. lia. }
  split; [exact Hactive |]. rewrite Hactive.
  pose proof (reached_le_length 1 (referrer_rows userId w)). unfold reached in *. lia.
Qed.

Lemma referral_stats_totals_witness :
  ∃ stats : ReferralStats,
    getReferralStats "rob" demo_world = (demo_world, Normal (Sent 200 stats))
    ∧ rs_total_referrals stats = Z.of_nat (length (referrer_rows "rob" demo_world))
    ∧ rs_total_earnings stats = bonuses_sum "rob" demo_world
    ∧ rs_active_referrals stats = reached 1 (referrer_rows "rob" demo_world)
    ∧ 0 ≤ rs_active_referrals stats ≤ rs_total_referrals stats.
Proof. apply (referral_stats_totals demo_world "rob"). reflexivity. Defined.

(** X4. The milestone table of the statistics keeps the thresholds and
    bonuses 3/5000, 7/4000, 15/8000, and [achieved] of a milestone is the
    number of the user's referrals whose snapshot is at least its threshold;
    so the counts go down along the table and none exceeds the number of
    active referrals. *)
Theorem referral_stats_milestones (w : World) (userId : Id) :
  pending w = [] →
  ∃ stats : ReferralStats,
    getReferralStats userId w = (w, Normal (Sent 200 stats))
    ∧ rs_milestones stats
      = [mkMilestone 3 5000 (reached 3 (referrer_rows userId w));
         mkMilestone 7 4000 (reached 7 (referrer_rows userId w));
         mkMilestone 15 8000 (reached 15 (referrer_rows userId w))]
    ∧ reached 15 (referrer_rows userId w) ≤ reached 7 (referrer_rows userId w)
    ∧ reached 7 (referrer_rows userId w) ≤ reached 3 (referrer_rows userId w)
    ∧ reached 3 (referrer_rows userId w) ≤ rs_active_referrals stats.
Proof.
  intros Hp. rewrite getReferralStats_healthy by done.
  eexists. split; [reflexivity |]. simpl.
  split; [by rewrite count_milestones_spec |].
  split; [apply reached_mono; lia |]. split; [apply reached_mono; lia |].
  replace (Z.of_nat (length (filter (λ ref, 0 < rf_tasks_completed ref)
                               (referrer_rows userId w))))
    with (reached 1 (referrer_rows userId w)).
  - apply reached_mono. lia.
  - unfold reached. do 2 f_equal. apply list_filter_iff. intros ref. lia.
Qed.

Lemma referral_stats_milestones_witness :
  ∃ stats : ReferralStats,
    getReferralStats "rob" demo_world = (demo_world, Normal (Sent 200 stats))
    ∧ rs_milestones stats
      = [mkMilestone 3 5000 (reached 3 (referrer_rows "rob" demo_world));
         mkMilestone 7 4000 (reached 7 (referrer_rows "rob" demo_world));
         mkMilestone 15 8000 (reached 15 (referrer_rows "rob" demo_world))]
    ∧ reached 15 (referrer_rows "rob" demo_world) ≤ reached 7 (referrer_rows "rob" demo_world)
    ∧ reached 7 (referrer_rows "rob" demo_world) ≤ reached 3 (referrer_rows "rob" demo_world)
    ∧ reached 3 (referrer_rows "rob" demo_world) ≤ rs_active_referrals stats.
Proof. apply (referral_stats_milestones demo_world "rob"). reflexivity. Defined.

(** X5. The statistics do not look at the error of their query: when the
    store answers with an error the route still answers 200, with zero
    referrals, zero earnings and no milestone achieved. *)
Theorem referral_stats_hide_store_errors (w : World) (userId : Id) (rest : list Fault) :
  pending w = Fails :: rest →
  getReferralStats userId w
  = (with_pending rest w,
     Normal (Sent 200
       (mkReferralStats 0 0 0
          [mkMilestone 3 5000 0; mkMilestone 7 4000 0; mkMilestone 15 8000 0]))).
Proof.
  intros Hp. unfold getReferralStats, answering, try_catch, select_referrals_of.
  rewrite bind_unfold, round_trip_drain. unfold next, drain. rewrite Hp. reflexivity.
Qed.

Lemma referral_stats_hide_store_errors_witness :
  getReferralStats "rob" (with_pending [Fails] demo_world)
  = (with_pending [] (with_pending [Fails] demo_world),
     Normal (Sent 200
       (mkReferralStats 0 0 0
          [mkMilestone 3 5000 0; mkMilestone 7 4000 0; mkMilestone 15 8000 0]))).
Proof.
  apply (referral_stats_hide_store_errors (with_pending [Fails] demo_world) "rob" []).
  reflexivity.
Defined.

Lemma checkReferralBonuses_skips (w : World) (userId referrerId rid : Id)
    (user : User) (referral : Referral) :
  pending w = [] →
  users w !! userId = Some user →
  referred_by user = Some referrerId →
  referrerId ≠ "" →
  referral_rows referrerId userId w = [(rid, referral)] →
  tasks_completed user ∉ [3; 7; 15] →
  checkReferralBonuses userId w
  = (with_referrals (alter (record_count (tasks_completed user)) rid) w, Normal tt).
Proof.
  intros Hp Hu Href Hne Hrows Hoff.
  unfold checkReferralBonuses, try_catch, checkReferralBonuses_body.
  healthy_step. rewrite Hu. simpl. rewrite Href.
  rewrite bool_decide_eq_false_2 by done.
  healthy_step. rewrite Hrows. simpl.
  rewrite milestone_off_threshold by done. simpl.
  healthy_step. reflexivity.
Qed.

Lemma elem_of_referrer_rows (w : World) (userId rid : Id) (referral : Referral) :
  referrals w !! rid = Some referral →
  referrer_id referral = userId →
  referral ∈ referrer_rows userId w.
Proof.
  intros Hrid Hr. unfold referrer_rows. apply list_elem_of_fmap.
  exists (rid, referral). split; [done |].
  apply elem_of_map_to_list, map_lookup_filter_Some. done.
Qed.

Lemma reached_elem_of (tasks : Z) (rows : list Referral) (referral : Referral) :
  referral ∈ rows → tasks ≤ rf_tasks_completed referral → 1 ≤ reached tasks rows.
Proof.
  intros Hin Hle. unfold reached.
  assert (Hf : referral ∈ filter (λ ref, tasks ≤ rf_tasks_completed ref) rows)
    by (by apply list_elem_of_filter).
  destruct (filter _ rows); [by apply elem_of_nil in Hf | simpl; lia].
Qed.

(** X6. The statistics count a milestone by the snapshot being at least the
    threshold, the engine pays it only at the exact count.  So after an
    evaluation that skipped a threshold (snapshot below it, count above it
    and no threshold itself) the referrer's statistics show the milestone as
    achieved, although the evaluation added nothing to the referrer's
    referral earnings. *)
Theorem skipped_milestone_counts_as_achieved (w : World) (userId referrerId rid : Id)
    (user : User) (referral : Referral) (threshold bonus : Z) :
  pending w = [] →
  users w !! userId = Some user →
  referred_by user = Some referrerId →
  referrerId ≠ "" →
  referral_rows referrerId userId w = [(rid, referral)] →
  (threshold, bonus) ∈ [(3, 5000); (7, 4000); (15, 8000)] →
  rf_tasks_completed referral < threshold →
  threshold < tasks_completed user →
  tasks_completed user ∉ [3; 7; 15] →
  let w1 := (checkReferralBonuses userId w).1 in
  ∃ stats : ReferralStats,
    getReferralStats referrerId w1 = (w1, Normal (Sent 200 stats))
    ∧ rs_total_earnings stats = bonuses_sum referrerId w
    ∧ ∃ m, m ∈ rs_milestones stats
           ∧ ms_tasks m = threshold ∧ ms_bonus m = bonus ∧ 1 ≤ ms_achieved m.
Proof.
  intros Hp Hu Href Hne Hrows Hin Hsnap Hcount Hoff w1.
  destruct (referral_rows_single _ _ _ _ _ Hrows) as (Hrid & Hrr & Hrd).
  subst w1. rewrite (checkReferralBonuses_skips w userId referrerId rid user referral)
    by done.
  cbn [fst]. rewrite getReferralStats_healthy by done.
  eexists. split; [reflexivity |]. cbn [rs_total_earnings rs_milestones]. split.
  - rewrite bonuses_sum_rows. unfold bonuses_sum. tables.
    rewrite (bonuses_fold_alter referrerId rid _ referral) by done.
    unfold bonus_of, record_count. simpl. lia.
  - rewrite count_milestones_spec. simpl.
    assert (Hreached : 1 ≤ reached threshold
              (referrer_rows referrerId
                 (with_referrals (alter (record_count (tasks_completed user)) rid) w))).
    { apply (reached_elem_of _ _ (record_count (tasks_completed user) referral)).
      - apply (elem_of_referrer_rows _ _ rid); [| done].
        tables. by rewrite lookup_alter_eq, Hrid.
      - simpl. lia. }
    rewrite !elem_of_cons, elem_of_nil in Hin.
    destruct Hin as [? | [? | [? | []]]]; simplify_eq; eexists.
    + split; [apply list_elem_of_here |]. simpl. repeat split; lia.
    + split; [apply list_elem_of_further, list_elem_of_here |].
      simpl. repeat split; lia.
    + split; [do 2 apply list_elem_of_further; apply list_elem_of_here |].
      simpl. repeat split; lia.
Qed.

Lemma skipped_milestone_counts_as_achieved_witness :
  let w := with_users (<["ana" := mkUser 700 700 4 (Some "rob")]>) demo_world in
  let w1 := (checkReferralBonuses "ana" w).1 in
  ∃ stats : ReferralStats,
    getReferralStats "rob" w1 = (w1, Normal (Sent 200 stats))
    ∧ rs_total_earnings stats = bonuses_sum "rob" w
    ∧ ∃ m, m ∈ rs_milestones stats
           ∧ ms_tasks m = 3 ∧ ms_bonus m = 5000 ∧ 1 ≤ ms_achieved m.
Proof.
  apply (skipped_milestone_counts_as_achieved
           (with_users (<["ana" := mkUser 700 700 4 (Some "rob")]>) demo_world)
           "ana" "rob" "r1" (mkUser 700 700 4 (Some "rob"))
           (mkReferral "rob" "ana" 0 2) 3 5000).
  - reflexivity.
  - vm_compute. reflexivity.
  - reflexivity.
  - discriminate.
  - vm_compute. reflexivity.
  - apply list_elem_of_here.
  - simpl. lia.
  - simpl. lia.
  - simpl. intros Hin. rewrite !elem_of_cons, elem_of_nil in Hin. lia.
Defined.

(** ** Accounts *)

Lemma site_bind_unfold {A B} (m : SM A) (k : A → SM B) (s : Site) :
  (x ← m; k x) s =
  match m s with
  | (s', Returned a) => k a s'
  | (s', Raised e) => (s', Raised e)
  end.
Proof. reflexivity. Qed.

Lemma query_drain {A} (statement : Site → Site * Reply A) (s : Site) :
  query statement s =
  let s0 := mkSite (drain (store s)) (profiles s) in
  match next (store s) with
  | Healthy => ((statement s0).1, Returned (statement s0).2)
  | Fails => (s0, Returned (mkReply None true))
  | Throws => (s0, Raised (StoreFault Rejected))
  end.
Proof.
  unfold query. rewrite site_bind_unfold. unfold on_store, next_fault, next, drain.
  destruct s as [[us ts uts rs txs wds ns [| f fs] c] ps]; simpl.
  - unfold site_execute, with_pending. simpl. by destruct (statement _).
  - destruct f; try reflexivity. unfold site_execute. by destruct (statement _).
Qed.

Lemma site_drain_healthy (s : Site) :
  pending (store s) = [] → mkSite (drain (store s)) (profiles s) = s.
Proof. intros Hp. rewrite drain_healthy by done. by destruct s. Qed.

Lemma query_healthy {A} (statement : Site → Site * Reply A) (s : Site) :
  pending (store s) = [] →
  query statement s = ((statement s).1, Returned (statement s).2).
Proof.
  intros Hp. rewrite query_drain. unfold next. rewrite Hp. simpl.
  by rewrite site_drain_healthy.
Qed.

Lemma bind_query_healthy {A B} (statement : Site → Site * Reply A)
    (k : Reply A → SM B) (s : Site) :
  pending (store s) = [] →
  (r ← query statement; k r) s = k (statement s).2 (statement s).1.
Proof. intros Hp. rewrite site_bind_unfold. by rewrite query_healthy. Qed.

Ltac unfold_site_client :=
  unfold select_account, select_account_by_email, select_account_by_code,
    insert_account, insert_referral, update_profile, update_profile_returning.

(** One healthy round trip of the site route in the goal. *)
Ltac site_step :=
  unfold_site_client;
  (rewrite bind_query_healthy; [| simpl; assumption]);
  cbn [fst snd data error].

(** One round trip of the site route in the goal, whatever its fault. *)
Ltac site_fault_step :=
  unfold_site_client;
  rewrite (site_bind_unfold (query _)), query_drain;
  match goal with
  | |- context [next ?w] => destruct (next w)
  end;
  cbn zeta; cbn [fst snd data error].

Lemma same_tables_refl (s : Site) : same_tables s s.
Proof. by repeat split. Qed.

Lemma account_rows_inv (userId : Id) (s : Site) (user : Account) (rest : list Account) :
  account_rows userId s = user :: rest →
  rest = [] ∧ ac_id user = userId
  ∧ users (store s) !! userId = Some (ac_money user)
  ∧ profiles s !! userId = Some (ac_profile user).
Proof.
  unfold account_rows.
  destruct (users (store s) !! userId), (profiles s !! userId); intros; by simplify_eq.
Qed.

(** X7. Whatever the store does, the middleware calls [next()] only for a
    token that [jwt.verify] accepts and only with the row of the account
    the token names, which exists; otherwise it answers 401 or 403.  It
    changes no table. *)
Theorem authentication_admits_existing_accounts (jwt_verify : string → option Id)
    (authHeader : option string) (s : Site) :
  let result := authenticateToken jwt_verify authHeader s in
  same_tables s result.1
  ∧ match result.2 with
    | Returned (Next user) =>
        ∃ token, header_token authHeader = Some token
                 ∧ token ≠ ""
                 ∧ jwt_verify token = Some (ac_id user)
                 ∧ users (store s) !! ac_id user = Some (ac_money user)
                 ∧ profiles s !! ac_id user = Some (ac_profile user)
    | Returned (Refused status _) => status = 401 ∨ status = 403
    | Raised _ => False
    end.
Proof.
  unfold authenticateToken, attempt, site_console_error, on_store, console_error.
  destruct (header_token authHeader) as [token|] eqn:Htoken; simpl;
    [| split; [apply same_tables_refl | by left]].
  case_bool_decide as Hempty; simpl; [split; [apply same_tables_refl | by left] |].
  destruct (jwt_verify token) as [userId|] eqn:Hverify; simpl;
    [| split; [by repeat split | by right]].
  site_fault_step; simpl.
  - destruct (account_rows userId _) as [| user rest] eqn:Hrows; simpl;
      [split; [by repeat split | by left] |].
    apply account_rows_inv in Hrows as (-> & <- & Hu & Hp). simpl in *.
    split; [by repeat split |]. exists token. by rewrite Hverify.
  - split; [by repeat split | by left].
  - split; [by repeat split | by right].
Qed.

Lemma split_spaces_spaceless (s : string) :
  spaceless s = true → split_spaces s = [s].
Proof.
  induction s as [| c s IH]; [done |]. simpl.
  destruct (Ascii.eqb c Ascii.Space); [done |]. simpl.
  intros Hs. by rewrite IH.
Qed.

Lemma split_spaces_word (word rest : string) :
  spaceless word = true →
  split_spaces (word +:+ " " +:+ rest) = word :: split_spaces rest.
Proof.
  induction word as [| c word IH]; [done |]. simpl.
  destruct (Ascii.eqb c Ascii.Space); [done |]. simpl.
  intros Hs. by rewrite IH.
Qed.

Lemma header_token_word (scheme token : string) :
  spaceless scheme = true →
  spaceless token = true →
  header_token (Some (scheme +:+ " " +:+ token)) = Some token.
Proof.
  intros Hs Ht. unfold header_token.
  rewrite bool_decide_eq_false_2
    by (destruct scheme; intros Heq; cbv in Heq; discriminate).
  rewrite split_spaces_word by done. rewrite split_spaces_spaceless by done.
  reflexivity.
Qed.

(** X8. The middleware takes the second word of the Authorization header
    as the token and never looks at the first: a header "scheme token" is
    treated like "Bearer token", whatever the scheme. *)
Theorem authorization_scheme_is_ignored (jwt_verify : string → option Id)
    (scheme token : string) (s : Site) :
  spaceless scheme = true →
  spaceless token = true →
  header_token (Some (scheme +:+ " " +:+ token)) = Some token
  ∧ authenticateToken jwt_verify (Some (scheme +:+ " " +:+ token)) s
    = authenticateToken jwt_verify (Some ("Bearer " +:+ token)) s.
Proof.
  intros Hs Ht. split; [by apply header_token_word |].
  unfold authenticateToken.
  change ("Bearer " +:+ token) with ("Bearer" +:+ " " +:+ token).
  rewrite (header_token_word scheme token), (header_token_word "Bearer" token);
    done.
Qed.

Lemma authorization_scheme_is_ignored_witness :
  header_token (Some ("Basic" +:+ " " +:+ "ana")) = Some "ana"
  ∧ authenticateToken Some (Some ("Basic" +:+ " " +:+ "ana")) (mkSite demo_world ∅)
    = authenticateToken Some (Some ("Bearer " +:+ "ana")) (mkSite demo_world ∅).
Proof.
  apply (authorization_scheme_is_ignored Some "Basic" "ana" (mkSite demo_world ∅));
    reflexivity.
Defined.

(** X9. POST /refresh never issues a token.  Its module does not bind
    [jwt], so with a token in the body the route throws before it verifies
    anything and answers 403 "Invalid refresh token", for every token; with
    no token it answers 401.  No table changes. *)
Theorem refresh_never_issues_a_token (jwt_sign : Id → string) (token : option string)
    (s : Site) :
  let result := refresh jwt_sign token s in
  same_tables s result.1
  ∧ (result.2 = Returned (mkSiteResponse 401 (SiteError "Refresh token required"))
     ∧ truthy_string token = false
     ∨ result.2 = Returned (mkSiteResponse 403 (SiteError "Invalid refresh token"))
       ∧ truthy_string token = true)
  ∧ ∀ issued, result.2 ≠ Returned (mkSiteResponse 200 (NewToken issued)).
Proof.
  unfold refresh, attempt, site_console_error, on_store, console_error.
  destruct (truthy_string token); simpl.
  - split; [by repeat split |]. split; [by right | discriminate].
  - split; [apply same_tables_refl |]. split; [by left | discriminate].
Qed.

Lemma accounts_where_nil (P : Profile → Prop) `{!∀ p, Decision (P p)} (s : Site) :
  (∀ id p, profiles s !! id = Some p → ¬ P p) →
  accounts_where P s = [].
Proof.
  intros Hnone. unfold accounts_where.
  assert (Hempty : filter (λ row : Id * Profile, P row.2) (profiles s) = ∅).
  { apply map_empty_filter. intros i p Hp. simpl. eauto. }
  by rewrite Hempty, map_to_list_empty.
Qed.

Lemma accounts_where_single (P : Profile → Prop) `{!∀ p, Decision (P p)} (s : Site)
    (owner : Account) (rest : list Account) :
  accounts_where P s = owner :: rest →
  users (store s) !! ac_id owner = Some (ac_money owner)
  ∧ profiles s !! ac_id owner = Some (ac_profile owner)
  ∧ P (ac_profile owner).
Proof.
  intros Hrows.
  assert (Hin : owner ∈ accounts_where P s) by (rewrite Hrows; apply list_elem_of_here).
  unfold accounts_where in Hin.
  apply list_elem_of_omap in Hin as ([i p] & Hrow & Hjoin). simpl in Hjoin.
  apply elem_of_map_to_list, map_lookup_filter_Some in Hrow as [Hp HP].
  destruct (users (store s) !! i) as [money|] eqn:Hu; simpl in Hjoin; [| done].
  by simplify_eq.
Qed.

Lemma accounts_where_only (P : Profile → Prop) `{!∀ p, Decision (P p)} (s : Site)
    (id : Id) (money : User) (profile : Profile) :
  users (store s) !! id = Some money →
  profiles s !! id = Some profile →
  P profile →
  (∀ i p, i ≠ id → profiles s !! i = Some p → ¬ P p) →
  accounts_where P s = [mkAccount id money profile].
Proof.
  intros Hu Hp HP Hothers. unfold accounts_where.
  assert (Hone : filter (λ row : Id * Profile, P row.2) (profiles s) = {[id := profile]}).
  { apply map_eq. intros j. apply option_eq. intros q.
    rewrite map_lookup_filter_Some, lookup_singleton_Some. simpl. split.
    - intros [Hj Hq]. destruct (decide (j = id)) as [-> | Hne].
      + rewrite Hp in Hj. by simplify_eq.
      + by destruct (Hothers j q Hne Hj).
    - intros [<- <-]. done. }
  rewrite Hone, map_to_list_singleton. simpl. by rewrite Hu.
Qed.

Lemma site_bind_assoc {A B C} (m : SM A) (f : A → SM B) (k : B → SM C) (s : Site) :
  (x ← (y ← m; f y); k x) s = (y ← m; x ← f y; k x) s.
Proof.
  unfold mbind, SM_bind, site_bind. by destruct (m s) as [s' [a | e]].
Qed.

Lemma site_ret_bind {A B} (a : A) (k : A → SM B) (s : Site) :
  (x ← mret a; k x) s = k a s.
Proof. reflexivity. Qed.

(** A registration with its fields present, a new email and a fresh [id]
    on a healthy store. *)
Lemma register_inserts (jwt_sign : Id → string) (s : Site)
    (address secret fullname number : string) (code : option string) (fresh : Entropy) :
  pending (store s) = [] →
  address ≠ "" → secret ≠ "" → fullname ≠ "" → number ≠ "" →
  (∀ id p, profiles s !! id = Some p → email p ≠ address) →
  users (store s) !! userId_v4 fresh = None →
  profiles s !! userId_v4 fresh = None →
  referrals (store s) !! referral_key fresh = None →
  register jwt_sign
    (mkRegisterRequest (Some address) (Some secret) (Some fullname) (Some number) code)
    fresh s
  = (registered address fullname number fresh (referrer_of_code code s) s,
     Returned (mkSiteResponse 201
       (UserCreated "User created successfully"
          (without_password
             (new_account address fullname number fresh (referrer_of_code code s)))
          (jwt_sign (userId_v4 fresh))))).
Proof.
  intros Hp Haddress Hsecret Hname Hphone Hemail Hu Hpr Hkey.
  unfold register, attempt, generateToken. simpl.
  rewrite !bool_decide_eq_false_2 by done. simpl.
  site_step. rewrite accounts_where_nil by done. simpl.
  unfold referrer_of_code, registered, new_account.
  destruct (truthy_string code) eqn:Hcode.
  - rewrite site_bind_assoc. site_step. rewrite site_ret_bind.
    destruct (ac_id <$> data (single (accounts_where _ s))) as [referrer|] eqn:Href.
    + site_step. rewrite Hu, Hpr. cbn [fst snd data error].
      case_bool_decide as Hempty.
      * reflexivity.
      * rewrite site_bind_assoc. site_step. cbn [store profiles]. tables.
        rewrite Hkey. cbn [fst snd data error].
        rewrite site_bind_assoc. site_step. reflexivity.
    + site_step. rewrite Hu, Hpr. reflexivity.
  - rewrite site_ret_bind.
    site_step. rewrite Hu, Hpr. reflexivity.
Qed.

Lemma single_Some {A} (rows : list A) (row : A) :
  data (single rows) = Some row → rows = [row].
Proof. destruct rows as [| x [| y rest]]; simpl; intros; by simplify_eq. Qed.

(** The referrer a registration takes is an account of the site. *)
Lemma referrer_of_code_account (code : option string) (s : Site) (referrer : Id) :
  referrer_of_code code s = Some referrer →
  ∃ owner,
    accounts_where (λ p, referral_code p = default "" code) s = [owner]
    ∧ ac_id owner = referrer
    ∧ users (store s) !! referrer = Some (ac_money owner)
    ∧ profiles s !! referrer = Some (ac_profile owner).
Proof.
  unfold referrer_of_code. destruct (truthy_string code); [| done].
  destruct (data (single _)) as [owner|] eqn:Hdata; simpl; [| done].
  intros [= <-]. apply single_Some in Hdata. exists owner.
  destruct (accounts_where_single _ _ _ _ Hdata) as (Hu & Hp & _). done.
Qed.

Lemma referrer_of_code_fresh (code : option string) (s : Site) (id : Id) :
  users (store s) !! id = None → referrer_of_code code s ≠ Some id.
Proof.
  intros Hu Href. apply referrer_of_code_account in Href as (owner & _ & _ & Hm & _).
  by rewrite Hu in Hm.
Qed.

Lemma registered_pending (address fullname number : string) (fresh : Entropy)
    (referrerId : option Id) (s : Site) :
  pending (store (registered address fullname number fresh referrerId s))
  = pending (store s).
Proof.
  unfold registered. destruct referrerId as [r|]; [case_bool_decide |]; reflexivity.
Qed.

Lemma registered_users (address fullname number : string) (fresh : Entropy)
    (referrerId : option Id) (s : Site) :
  users (store (registered address fullname number fresh referrerId s))
  = <[userId_v4 fresh := mkUser 0 0 0 referrerId]> (users (store s)).
Proof.
  unfold registered. destruct referrerId as [r|]; [case_bool_decide |]; reflexivity.
Qed.

Lemma registered_profile (address fullname number : string) (fresh : Entropy)
    (referrerId : option Id) (s : Site) :
  referrerId ≠ Some (userId_v4 fresh) →
  profiles (registered address fullname number fresh referrerId s) !! userId_v4 fresh
  = Some (ac_profile (new_account address fullname number fresh referrerId)).
Proof.
  intros Hne. unfold registered.
  destruct referrerId as [r|]; [case_bool_decide |]; cbn [profiles ac_id new_account];
    rewrite ?lookup_alter_ne by congruence; by rewrite lookup_insert_eq.
Qed.

Lemma registered_account (address fullname number : string) (fresh : Entropy)
    (referrerId : option Id) (s : Site) :
  referrerId ≠ Some (userId_v4 fresh) →
  account_rows (userId_v4 fresh) (registered address fullname number fresh referrerId s)
  = [new_account address fullname number fresh referrerId].
Proof.
  intros Hne. unfold account_rows.
  rewrite registered_users, lookup_insert_eq, registered_profile by done.
  reflexivity.
Qed.

(** The middleware on a healthy store, for a token that names an account. *)
Lemma authenticateToken_admits (jwt_verify : string → option Id) (token : string)
    (s : Site) (user : Account) :
  pending (store s) = [] →
  token ≠ "" →
  spaceless token = true →
  jwt_verify token = Some (ac_id user) →
  account_rows (ac_id user) s = [user] →
  authenticateToken jwt_verify (Some ("Bearer " +:+ token)) s = (s, Returned (Next user)).
Proof.
  intros Hp Htoken Hspaces Hverify Hrows. unfold authenticateToken, attempt.
  change ("Bearer " +:+ token) with ("Bearer" +:+ " " +:+ token).
  rewrite header_token_word by done.
  cbn [truthy_string negb default from_option id]. rewrite bool_decide_eq_false_2 by done.
  cbn [negb]. rewrite Hverify. site_step. by rewrite Hrows.
Qed.

Lemma getProfile_healthy (user row : Account) (s : Site) :
  pending (store s) = [] →
  account_rows (ac_id user) s = [row] →
  getProfile user s = (s, Returned (Sent 200 (Some (profile_view row)))).
Proof.
  intros Hp Hrows. unfold getProfile, site_answering, attempt.
  site_step. by rewrite Hrows.
Qed.

(** X10. A registration with its four fields, an email no account has and
    fresh keys, on a healthy store, answers 201 with the new account
    without its password: no money, no task, no referral, the generated
    referral code.  The token it returns opens the routes behind the
    middleware: GET /profile with "Bearer token" shows that account. *)
Theorem registered_account_is_admitted (jwt_sign : Id → string)
    (jwt_verify : string → option Id) (s : Site)
    (address secret fullname number : string) (code : option string) (fresh : Entropy) :
  pending (store s) = [] →
  address ≠ "" → secret ≠ "" → fullname ≠ "" → number ≠ "" →
  (∀ id p, profiles s !! id = Some p → email p ≠ address) →
  users (store s) !! userId_v4 fresh = None →
  profiles s !! userId_v4 fresh = None →
  referrals (store s) !! referral_key fresh = None →
  jwt_verify (jwt_sign (userId_v4 fresh)) = Some (userId_v4 fresh) →
  jwt_sign (userId_v4 fresh) ≠ "" →
  spaceless (jwt_sign (userId_v4 fresh)) = true →
  ∃ (s' : Site) (user : Account) (token : string),
    register jwt_sign
      (mkRegisterRequest (Some address) (Some secret) (Some fullname) (Some number) code)
      fresh s
    = (s', Returned (mkSiteResponse 201
             (UserCreated "User created successfully" (without_password user) token)))
    ∧ ac_id user = userId_v4 fresh
    ∧ balance (ac_money user) = 0
    ∧ total_earnings (ac_money user) = 0
    ∧ tasks_completed (ac_money user) = 0
    ∧ referrals_count (ac_profile user) = 0
    ∧ email (ac_profile user) = address
    ∧ name (ac_profile user) = fullname
    ∧ phone (ac_profile user) = number
    ∧ referral_code (ac_profile user) = userReferralCode fresh
    ∧ authenticated jwt_verify (Some ("Bearer " +:+ token)) getProfile s'
      = (s', Returned (inr (Sent 200 (Some (profile_view user))))).
Proof.
  intros Hp Haddress Hsecret Hname Hphone Hemail Hu Hpr Hkey Hverify Htoken Hspaces.
  rewrite register_inserts by done.
  eexists _, _, _. split; [reflexivity |].
  repeat (split; [reflexivity |]).
  pose proof (referrer_of_code_fresh code s _ Hu) as Hne.
  set (s' := registered _ _ _ _ _ _).
  assert (Hp' : pending (store s') = []) by (subst s'; by rewrite registered_pending).
  assert (Hrows : account_rows (userId_v4 fresh) s'
                  = [new_account address fullname number fresh (referrer_of_code code s)])
    by (subst s'; by apply registered_account).
  unfold authenticated. rewrite site_bind_unfold.
  rewrite (authenticateToken_admits jwt_verify _ s'
             (new_account address fullname number fresh (referrer_of_code code s))
             Hp' Htoken Hspaces Hverify Hrows).
  rewrite site_bind_unfold.
  by rewrite (getProfile_healthy
                (new_account address fullname number fresh (referrer_of_code code s))
                _ s' Hp' Hrows).
Qed.

Lemma registered_account_is_admitted_witness :
  ∃ (s' : Site) (user : Account) (token : string),
    register (λ id, "jwt." +:+ id)
      (mkRegisterRequest (Some "eva@mail.co") (Some "secret") (Some "Eva")
         (Some "3003") (Some "ROB456"))
      demo_entropy demo_site
    = (s', Returned (mkSiteResponse 201
             (UserCreated "User created successfully" (without_password user) token)))
    ∧ ac_id user = "eva"
    ∧ balance (ac_money user) = 0
    ∧ total_earnings (ac_money user) = 0
    ∧ tasks_completed (ac_money user) = 0
    ∧ referrals_count (ac_profile user) = 0
    ∧ email (ac_profile user) = "eva@mail.co"
    ∧ name (ac_profile user) = "Eva"
    ∧ phone (ac_profile user) = "3003"
    ∧ referral_code (ac_profile user) = "EVA789"
    ∧ authenticated (λ token, if bool_decide (token = "jwt.eva") then Some "eva" else None)
        (Some ("Bearer " +:+ token)) getProfile s'
      = (s', Returned (inr (Sent 200 (Some (profile_view user))))).
Proof.
  apply (registered_account_is_admitted (λ id, "jwt." +:+ id)
           (λ token, if bool_decide (token = "jwt.eva") then Some "eva" else None)
           demo_site "eva@mail.co" "secret" "Eva" "3003" (Some "ROB456") demo_entropy);
    try discriminate; try reflexivity.
  intros id p Hrow. unfold demo_site in Hrow. cbn [profiles] in Hrow.
  rewrite !lookup_insert_Some, lookup_empty in Hrow.
  destruct Hrow as [[_ <-] | [_ [[_ <-] | [_ [=]]]]]; discriminate.
Defined.

Lemma referrer_of_code_owner (code : string) (s : Site) (owner : Account) :
  users (store s) !! ac_id owner = Some (ac_money owner) →
  profiles s !! ac_id owner = Some (ac_profile owner) →
  referral_code (ac_profile owner) = code →
  (∀ i p, i ≠ ac_id owner → profiles s !! i = Some p → referral_code p ≠ code) →
  accounts_where (λ p, referral_code p = code) s = [owner].
Proof.
  intros Hu Hp Hcode Hothers. destruct owner as [id money profile]. simpl in *.
  by apply accounts_where_only.
Qed.

(** X11. The code of a referrer's link brings the referral about.  When
    the code GET /link gives an account is not empty and no other account
    has it, GET /validate/:code answers with the referrer's name, and a
    registration with that code on a healthy store stores the new user
    with [referred_by] the referrer, adds the referral row of the pair with
    no bonus and no task, and adds 1 to the referrer's [referrals_count];
    the referrer is another user than the new one and gets no money. *)
Theorem referral_link_registers_referral (jwt_sign : Id → string)
    (FRONTEND_URL : option string) (s : Site) (owner : Account) (code link : string)
    (address secret fullname number : string) (fresh : Entropy) :
  pending (store s) = [] →
  users (store s) !! ac_id owner = Some (ac_money owner) →
  profiles s !! ac_id owner = Some (ac_profile owner) →
  ac_id owner ≠ "" →
  (getLink FRONTEND_URL owner s).2 = Returned (Sent 200 (code, link)) →
  code ≠ "" →
  (∀ i p, i ≠ ac_id owner → profiles s !! i = Some p → referral_code p ≠ code) →
  address ≠ "" → secret ≠ "" → fullname ≠ "" → number ≠ "" →
  (∀ id p, profiles s !! id = Some p → email p ≠ address) →
  users (store s) !! userId_v4 fresh = None →
  profiles s !! userId_v4 fresh = None →
  referrals (store s) !! referral_key fresh = None →
  let s' := (register jwt_sign
               (mkRegisterRequest (Some address) (Some secret) (Some fullname)
                  (Some number) (Some code)) fresh s).1 in
  validateCode code s = (s, Returned (Sent 200 (name (ac_profile owner), code)))
  ∧ users (store s') !! userId_v4 fresh = Some (mkUser 0 0 0 (Some (ac_id owner)))
  ∧ referrals (store s')
    = <[referral_key fresh := mkReferral (ac_id owner) (userId_v4 fresh) 0 0]>
        (referrals (store s))
  ∧ referrals_count <$> profiles s' !! ac_id owner
    = Some (referrals_count (ac_profile owner) + 1)
  ∧ users (store s') !! ac_id owner = Some (ac_money owner)
  ∧ ac_id owner ≠ userId_v4 fresh.
Proof.
  intros Hp Hmoney Hprofile Hid Hlink Hcode Hothers
    Haddress Hsecret Hname Hphone Hemail Hu Hpr Hkey s'.
  assert (Hown : referral_code (ac_profile owner) = code).
  { unfold getLink, site_answering, attempt in Hlink. simpl in Hlink. congruence. }
  pose proof (referrer_of_code_owner code s owner Hmoney Hprofile Hown Hothers) as Hrows.
  assert (Hne : ac_id owner ≠ userId_v4 fresh) by (intros Heq; congruence).
  assert (Href : referrer_of_code (Some code) s = Some (ac_id owner)).
  { unfold referrer_of_code. cbn [truthy_string default from_option id].
    rewrite bool_decide_eq_false_2 by done. cbn [negb]. by rewrite Hrows. }
  split.
  { unfold validateCode, site_answering, attempt. site_step.
    rewrite Hrows. simpl. by rewrite Hown. }
  subst s'. rewrite register_inserts by done. rewrite Href. cbn [fst].
  unfold registered. rewrite bool_decide_eq_false_2 by done.
  cbn [store profiles ac_id ac_money ac_profile new_account]. tables.
  split; [by rewrite lookup_insert_eq |].
  split; [reflexivity |].
  split.
  { rewrite lookup_alter_eq, lookup_insert_ne by done. by rewrite Hprofile. }
  split; [by rewrite lookup_insert_ne |]. done.
Qed.

Lemma referral_link_registers_referral_witness :
  let s' := (register (λ id, "jwt." +:+ id)
               (mkRegisterRequest (Some "eva@mail.co") (Some "secret") (Some "Eva")
                  (Some "3003") (Some "ROB456")) demo_entropy demo_site).1 in
  validateCode "ROB456" demo_site = (demo_site, Returned (Sent 200 ("Rob", "ROB456")))
  ∧ users (store s') !! "eva" = Some (mkUser 0 0 0 (Some "rob"))
  ∧ referrals (store s')
    = <["r2" := mkReferral "rob" "eva" 0 0]> (referrals (store demo_site))
  ∧ referrals_count <$> profiles s' !! "rob" = Some (1 + 1)
  ∧ users (store s') !! "rob" = Some (mkUser 30000 30000 0 None)
  ∧ "rob" ≠ "eva".
Proof.
  apply (referral_link_registers_referral (λ id, "jwt." +:+ id) None demo_site
           (mkAccount "rob" (mkUser 30000 30000 0 None)
              (mkProfile "rob@mail.co" "hash-of-rob" "Rob" "3002" 1 "ROB456"))
           "ROB456" "http://localhost:3000/register?ref=ROB456"
           "eva@mail.co" "secret" "Eva" "3003" demo_entropy);
    try discriminate; try reflexivity.
  - intros i p Hi Hrow. unfold demo_site in Hrow. cbn [profiles ac_id] in *.
    rewrite !lookup_insert_Some, lookup_empty in Hrow.
    destruct Hrow as [[_ <-] | [_ [[<- _] | [_ [=]]]]]; [discriminate | done].
  - intros id p Hrow. unfold demo_site in Hrow. cbn [profiles] in Hrow.
    rewrite !lookup_insert_Some, lookup_empty in Hrow.
    destruct Hrow as [[_ <-] | [_ [[_ <-] | [_ [=]]]]]; discriminate.
Defined.

Lemma accounts_where_users (P : Profile → Prop) `{!∀ p, Decision (P p)} (s : Site)
    (r : Id) :
  ac_id <$> data (single (accounts_where P s)) = Some r →
  is_Some (users (store s) !! r).
Proof.
  destruct (data _) as [owner|] eqn:Hdata; [| done]. intros [= <-].
  apply single_Some in Hdata.
  destruct (accounts_where_single _ _ _ _ Hdata) as (Hu & _). by rewrite Hu.
Qed.

(** What a registration can do to the rows of [users], whatever the
    store does: nothing, or the insert of the row of its fresh id and, after
    it, the increment of the referrer's count. *)
Lemma register_effect (jwt_sign : Id → string) (body : RegisterRequest) (fresh : Entropy)
    (s : Site) :
  let s' := (register jwt_sign body fresh s).1 in
  (users (store s') = users (store s) ∧ profiles s' = profiles s)
  ∨ (users (store s) !! userId_v4 fresh = None
     ∧ profiles s !! userId_v4 fresh = None
     ∧ ∃ (referrerId : option Id) (profile : Profile),
         users (store s') = <[userId_v4 fresh := mkUser 0 0 0 referrerId]> (users (store s))
         ∧ (∀ r, referrerId = Some r → is_Some (users (store s) !! r))
         ∧ referrals_count profile = 0
         ∧ (profiles s' = <[userId_v4 fresh := profile]> (profiles s)
            ∨ ∃ r, referrerId = Some r
                   ∧ profiles s'
                     = alter count_referral r
                         (<[userId_v4 fresh := profile]> (profiles s)))).
Proof.
  unfold register, attempt, site_console_error, on_store, console_error, generateToken.
  destruct body as [[address|] [secret|] [fullname|] [number|] code];
    cbn [rq_email rq_password rq_name rq_phone rq_referralCode]; try by left.
  destruct (negb _ || _ || _ || _); [by left |].
  site_fault_step; try by left.
  all: try (destruct (single _) as [[existing|] err]; cbn [data]; [by left |]).
  all: destruct (truthy_string code);
    [ rewrite site_bind_assoc; site_fault_step; [| | by left] |];
    rewrite site_ret_bind.
  all: match goal with
    | |- context [mkUser 0 0 0 ?ref] =>
        assert (Href : ∀ r, ref = Some r → is_Some (users (store s) !! r));
        [ intros r Hr;
          first [ apply accounts_where_users in Hr; exact Hr
                | cbn in Hr; discriminate Hr ] | ] end.
  all: match goal with
    | |- context [mkUser 0 0 0 ?ref] => generalize dependent ref end.
  all: intros referrerId Href.
  all: site_fault_step; cbn [ac_id ac_money ac_profile store profiles]; tables;
       try by left.
  all: destruct (users (store s) !! userId_v4 fresh) eqn:Hfresh; [by left |].
  all: destruct (profiles s !! userId_v4 fresh) eqn:Hpfresh; [by left |].
  all: cbn [fst snd data error].
  all: destruct referrerId as [referrer|]; [try case_bool_decide |].
  all: rewrite ?site_ret_bind.
  all: try (rewrite site_bind_assoc; site_fault_step;
            cbn [store profiles]; tables;
            try (destruct (referrals (store s) !! referral_key fresh));
            cbn [fst snd]).
  all: try (rewrite site_bind_assoc; site_fault_step).
  all: right; (split; [done |]); (split; [done |]); eexists _, _;
       (split; [reflexivity |]); (split; [exact Href |]);
       (split; [| first [ left; reflexivity | right; eexists; split; reflexivity ]]);
       reflexivity.
Qed.

(** X12. Whatever the request and whatever the store does, a registration
    leaves the money columns of every row of [users] it found as they
    were, and of the other columns of such a row it changes at most
    [referrals_count], by one, on the row the new user names as referrer.
    It adds at most one row: the one of its fresh id, with no money, no
    task and no referral.  The [referred_by] of that row is empty or names
    a user that was there before, so no registration makes a user their own
    referrer. *)
Theorem registration_never_self_refers (jwt_sign : Id → string) (body : RegisterRequest)
    (fresh : Entropy) (s : Site) :
  let s' := (register jwt_sign body fresh s).1 in
  (∀ id u, users (store s) !! id = Some u → users (store s') !! id = Some u)
  ∧ (∀ id p, profiles s !! id = Some p →
       profiles s' !! id = Some p
       ∨ profiles s' !! id = Some (count_referral p)
         ∧ users (store s) !! userId_v4 fresh = None
         ∧ ∃ u, users (store s') !! userId_v4 fresh = Some u
                ∧ referred_by u = Some id)
  ∧ (∀ id u, users (store s) !! id = None → users (store s') !! id = Some u →
       id = userId_v4 fresh
       ∧ balance u = 0 ∧ total_earnings u = 0 ∧ tasks_completed u = 0
       ∧ referrals_count <$> profiles s' !! id = Some 0
       ∧ referred_by u ≠ Some id
       ∧ ∀ r, referred_by u = Some r → is_Some (users (store s) !! r)).
Proof.
  intros s'. destruct (register_effect jwt_sign body fresh s)
    as [[Hsame Hsame'] | (Hfresh & Hpfresh & referrerId & profile & Hnew & Href & Hzero & Hprofiles)];
    fold s' in Hsame, Hsame' || fold s' in Hnew, Hprofiles.
  - rewrite Hsame, Hsame'. split; [done |]. split; [by left |].
    intros id u Hnone Hsome. congruence.
  - rewrite Hnew.
    assert (Hself : referrerId ≠ Some (userId_v4 fresh)).
    { intros ->. destruct (Href _ eq_refl) as [x Hx]. congruence. }
    split; [| split].
    + intros id u Hu. rewrite lookup_insert_ne; [done | congruence].
    + intros id p Hp. assert (Hid : userId_v4 fresh ≠ id) by congruence.
      destruct Hprofiles as [-> | (r & -> & ->)].
      * left. by rewrite lookup_insert_ne.
      * destruct (decide (r = id)) as [-> | Hr].
        -- right. rewrite lookup_alter_eq, lookup_insert_ne, Hp by done.
           split; [done |]. split; [done |].
           eexists. by rewrite lookup_insert_eq.
        -- left. by rewrite lookup_alter_ne, lookup_insert_ne.
    + intros id u Hnone Hsome.
      apply lookup_insert_Some in Hsome as [[<- <-] | [_ Hsome]]; [| congruence].
      cbn [balance total_earnings tasks_completed referred_by].
      repeat (split; [done |]). split; [| done].
      destruct Hprofiles as [-> | (r & -> & ->)].
      * by rewrite lookup_insert_eq, <- Hzero.
      * rewrite lookup_alter_ne by congruence. by rewrite lookup_insert_eq, <- Hzero.
Qed.

(** *** Login *)

Lemma accounts_where_drain (P : Profile → Prop) `{!∀ p, Decision (P p)} (s : Site) :
  accounts_where P (mkSite (drain (store s)) (profiles s)) = accounts_where P s.
Proof. reflexivity. Qed.

(** X13. Whatever the store does, POST /login changes no table, and it
    answers 200 only with both fields in the body, for an account of the
    site that has the email of the body and whose stored hash
    [bcrypt.compare] accepts for the password of the body; the account it
    returns is that one without its password, and the token is signed for
    its id. *)
Theorem login_checks_the_stored_hash (jwt_sign : Id → string)
    (bcrypt_compare : string → string → bool) (body : LoginRequest) (s : Site) :
  let result := login jwt_sign bcrypt_compare body s in
  same_tables s result.1
  ∧ (∃ status payload,
       result.2 = Returned (mkSiteResponse status payload)
       ∧ status ∈ [200; 400; 401; 500])
  ∧ ∀ payload, result.2 = Returned (mkSiteResponse 200 payload) →
      ∃ address secret user,
        lg_email body = Some address ∧ lg_password body = Some secret
        ∧ payload = LoginSuccessful "Login successful" (without_password user)
                      (jwt_sign (ac_id user))
        ∧ users (store s) !! ac_id user = Some (ac_money user)
        ∧ profiles s !! ac_id user = Some (ac_profile user)
        ∧ email (ac_profile user) = address
        ∧ bcrypt_compare secret (password (ac_profile user)) = true.
Proof.
  unfold login, attempt, site_console_error, on_store, console_error, generateToken.
  destruct body as [[address|] [secret|]]; cbn [lg_email lg_password].
  2-4: split; [apply same_tables_refl |]; split;
       [ eexists _, _; split; [reflexivity | set_solver] | intros payload [=] ].
  destruct (negb _ || _).
  { split; [apply same_tables_refl |]. split;
      [ eexists _, _; split; [reflexivity | set_solver] | intros payload [=] ]. }
  site_fault_step.
  - rewrite accounts_where_drain.
    destruct (accounts_where _ s) as [| user [| other rest]] eqn:Hrows; simpl.
    + split; [by repeat split |]. split;
        [ eexists _, _; split; [reflexivity | set_solver] | intros payload [=] ].
    + destruct (bcrypt_compare secret (password (ac_profile user))) eqn:Hcompare; simpl.
      * split; [by repeat split |]. split;
          [ eexists _, _; split; [reflexivity | set_solver] |].
        intros payload [= <-].
        destruct (accounts_where_single _ _ _ _ Hrows) as (Hu & Hp & Hmail).
        by exists address, secret, user.
      * split; [by repeat split |]. split;
          [ eexists _, _; split; [reflexivity | set_solver] | intros payload [=] ].
    + split; [by repeat split |]. split;
        [ eexists _, _; split; [reflexivity | set_solver] | intros payload [=] ].
  - simpl. split; [by repeat split |]. split;
      [ eexists _, _; split; [reflexivity | set_solver] | intros payload [=] ].
  - simpl. split; [by repeat split |]. split;
      [ eexists _, _; split; [reflexivity | set_solver] | intros payload [=] ].
Qed.

Lemma registered_other_emails (address fullname number : string) (fresh : Entropy)
    (referrerId : option Id) (s : Site) (i : Id) (p : Profile) :
  (∀ id q, profiles s !! id = Some q → email q ≠ address) →
  i ≠ userId_v4 fresh →
  profiles (registered address fullname number fresh referrerId s) !! i = Some p →
  email p ≠ address.
Proof.
  intros Hemail Hi. unfold registered.
  destruct referrerId as [r|]; [case_bool_decide |];
    cbn [profiles store ac_id ac_profile new_account].
  1,3: rewrite lookup_insert_ne by done; apply Hemail.
  intros Hrow. apply lookup_alter_Some in Hrow as [[-> (q & Hq & ->)] | [_ Hrow]].
  - rewrite lookup_insert_ne in Hq by done. simpl. by eapply Hemail.
  - rewrite lookup_insert_ne in Hrow by done. by eapply Hemail.
Qed.

Lemma registered_by_email (address fullname number : string) (fresh : Entropy)
    (referrerId : option Id) (s : Site) :
  (∀ id q, profiles s !! id = Some q → email q ≠ address) →
  referrerId ≠ Some (userId_v4 fresh) →
  accounts_where (λ p, email p = address)
    (registered address fullname number fresh referrerId s)
  = [new_account address fullname number fresh referrerId].
Proof.
  intros Hemail Hne. apply accounts_where_only.
  - by rewrite registered_users, lookup_insert_eq.
  - by apply registered_profile.
  - reflexivity.
  - intros i p Hi Hrow. by eapply registered_other_emails.
Qed.

(** X14. After a registration went through on a healthy store, a login
    with the same email and a password that [bcrypt.compare] accepts for
    the stored hash answers 200 with the account the registration answered,
    and a login with a password it rejects answers 401; neither changes the
    site. *)
Theorem registered_user_can_log_in (jwt_sign : Id → string)
    (bcrypt_compare : string → string → bool) (s : Site)
    (address secret fullname number : string) (code : option string) (fresh : Entropy) :
  pending (store s) = [] →
  address ≠ "" → secret ≠ "" → fullname ≠ "" → number ≠ "" →
  (∀ id p, profiles s !! id = Some p → email p ≠ address) →
  users (store s) !! userId_v4 fresh = None →
  profiles s !! userId_v4 fresh = None →
  referrals (store s) !! referral_key fresh = None →
  bcrypt_compare secret (hashedPassword fresh) = true →
  let registration :=
    register jwt_sign
      (mkRegisterRequest (Some address) (Some secret) (Some fullname) (Some number) code)
      fresh s in
  let s' := registration.1 in
  ∃ (user : PublicAccount) (token : string),
    registration.2
    = Returned (mkSiteResponse 201 (UserCreated "User created successfully" user token))
    ∧ login jwt_sign bcrypt_compare (mkLoginRequest (Some address) (Some secret)) s'
      = (s', Returned (mkSiteResponse 200
               (LoginSuccessful "Login successful" user (jwt_sign (pa_id user)))))
    ∧ ∀ guess, guess ≠ "" →
        bcrypt_compare guess (hashedPassword fresh) = false →
        login jwt_sign bcrypt_compare (mkLoginRequest (Some address) (Some guess)) s'
        = (s', Returned (mkSiteResponse 401 (SiteError "Invalid email or password"))).
Proof.
  intros Hp Haddress Hsecret Hname Hphone Hemail Hu Hpr Hkey Hcompare registration s'.
  subst s' registration. rewrite register_inserts by done. cbn [fst snd].
  pose proof (referrer_of_code_fresh code s _ Hu) as Hne.
  set (s' := registered _ _ _ _ _ _).
  assert (Hp' : pending (store s') = []) by (subst s'; by rewrite registered_pending).
  assert (Hrows : accounts_where (λ p, email p = address) s'
                  = [new_account address fullname number fresh (referrer_of_code code s)])
    by (subst s'; by apply registered_by_email).
  eexists _, _. split; [reflexivity |].
  split.
  - unfold login, attempt, generateToken. cbn [lg_email lg_password truthy_string negb orb].
    rewrite !bool_decide_eq_false_2 by done. cbn [negb orb].
    site_step. rewrite Hrows. simpl. by rewrite Hcompare.
  - intros guess Hguess Hreject.
    unfold login, attempt, generateToken. cbn [lg_email lg_password truthy_string negb orb].
    rewrite !bool_decide_eq_false_2 by done. cbn [negb orb].
    site_step. rewrite Hrows. simpl. by rewrite Hreject.
Qed.

Lemma registered_user_can_log_in_witness :
  let registration :=
    register demo_sign
      (mkRegisterRequest (Some "eva@mail.co") (Some "eva") (Some "Eva") (Some "3003") None)
      demo_entropy demo_site in
  let s' := registration.1 in
  ∃ (user : PublicAccount) (token : string),
    registration.2
    = Returned (mkSiteResponse 201 (UserCreated "User created successfully" user token))
    ∧ login demo_sign demo_compare (mkLoginRequest (Some "eva@mail.co") (Some "eva")) s'
      = (s', Returned (mkSiteResponse 200
               (LoginSuccessful "Login successful" user (demo_sign (pa_id user)))))
    ∧ ∀ guess, guess ≠ "" →
        demo_compare guess "hash-of-eva" = false →
        login demo_sign demo_compare (mkLoginRequest (Some "eva@mail.co") (Some guess)) s'
        = (s', Returned (mkSiteResponse 401 (SiteError "Invalid email or password"))).
Proof.
  apply (registered_user_can_log_in demo_sign demo_compare demo_site
           "eva@mail.co" "eva" "Eva" "3003" None demo_entropy);
    try discriminate; try reflexivity.
  intros id p Hrow. unfold demo_site in Hrow. cbn [profiles] in Hrow.
  rewrite !lookup_insert_Some, lookup_empty in Hrow.
  destruct Hrow as [[_ <-] | [_ [[_ <-] | [_ [=]]]]]; discriminate.
Defined.

(** X15. An email is registered once: after a registration went through
    on a healthy store, a second registration with the same email, whatever
    its other fields and fresh values, answers 400 "User already exists
    with this email" and changes nothing. *)
Theorem registered_email_is_taken (jwt_sign : Id → string) (s : Site)
    (address secret fullname number : string) (code : option string) (fresh : Entropy)
    (secret' fullname' number' : string) (code' : option string) (fresh' : Entropy) :
  pending (store s) = [] →
  address ≠ "" → secret ≠ "" → fullname ≠ "" → number ≠ "" →
  (∀ id p, profiles s !! id = Some p → email p ≠ address) →
  users (store s) !! userId_v4 fresh = None →
  profiles s !! userId_v4 fresh = None →
  referrals (store s) !! referral_key fresh = None →
  secret' ≠ "" → fullname' ≠ "" → number' ≠ "" →
  let s' := (register jwt_sign
               (mkRegisterRequest (Some address) (Some secret) (Some fullname)
                  (Some number) code) fresh s).1 in
  register jwt_sign
    (mkRegisterRequest (Some address) (Some secret') (Some fullname') (Some number') code')
    fresh' s'
  = (s', Returned (mkSiteResponse 400 (SiteError "User already exists with this email"))).
Proof.
  intros Hp Haddress Hsecret Hname Hphone Hemail Hu Hpr Hkey Hsecret' Hname' Hphone' s'.
  subst s'.
  rewrite (register_inserts jwt_sign s address secret fullname number code fresh)
    by done.
  cbn [fst].
  pose proof (referrer_of_code_fresh code s _ Hu) as Hne.
  set (s' := registered _ _ _ _ _ _).
  assert (Hp' : pending (store s') = []) by (subst s'; by rewrite registered_pending).
  assert (Hrows : accounts_where (λ p, email p = address) s'
                  = [new_account address fullname number fresh (referrer_of_code code s)])
    by (subst s'; by apply registered_by_email).
  unfold register, attempt.
  cbn [rq_email rq_password rq_name rq_phone rq_referralCode truthy_string negb orb].
  rewrite !bool_decide_eq_false_2 by done. cbn [negb orb].
  site_step. by rewrite Hrows.
Qed.

Lemma registered_email_is_taken_witness :
  let s' := (register demo_sign
               (mkRegisterRequest (Some "eva@mail.co") (Some "eva") (Some "Eva")
                  (Some "3003") None) demo_entropy demo_site).1 in
  register demo_sign
    (mkRegisterRequest (Some "eva@mail.co") (Some "other") (Some "Eve") (Some "3004")
       (Some "ROB456"))
    (mkEntropy "EVE000" "eve" "hash-of-other" "r3") s'
  = (s', Returned (mkSiteResponse 400 (SiteError "User already exists with this email"))).
Proof.
  apply (registered_email_is_taken demo_sign demo_site
           "eva@mail.co" "eva" "Eva" "3003" None demo_entropy
           "other" "Eve" "3004" (Some "ROB456")
           (mkEntropy "EVE000" "eve" "hash-of-other" "r3"));
    try discriminate; try reflexivity.
  intros id p Hrow. unfold demo_site in Hrow. cbn [profiles] in Hrow.
  rewrite !lookup_insert_Some, lookup_empty in Hrow.
  destruct Hrow as [[_ <-] | [_ [[_ <-] | [_ [=]]]]]; discriminate.
Defined.

(** ** The profile and the statistics of a user *)

Lemma on_store_round_trip_healthy {A B} (statement : World → World * Reply A)
    (k : Reply A → SM B) (s : Site) :
  pending (store s) = [] →
  (r ← on_store (round_trip statement); k r) s
  = k (statement (store s)).2 (mkSite (statement (store s)).1 (profiles s)).
Proof.
  intros Hp. rewrite site_bind_unfold. unfold on_store.
  by rewrite round_trip_healthy.
Qed.

(** X16. PUT /profile writes only the name and the phone of the user's
    row, and only the ones the body gives: an absent or empty field leaves
    the column as it was.  On a healthy store, for a user whose row exists,
    it answers 200 with the updated columns; the money columns, the email,
    the referral count and code and the stored password are untouched, no
    other row changes, and GET /profile then shows what the update
    answered. *)
Theorem profile_update_round_trip (user : Account) (body : ProfileUpdate) (s : Site)
    (money : User) (p : Profile) :
  pending (store s) = [] →
  users (store s) !! ac_id user = Some money →
  profiles s !! ac_id user = Some p →
  let result := updateProfile user body s in
  ∃ view : ProfileView,
    result.2 = Returned (Sent 200 ("Profile updated successfully", Some view))
    ∧ getProfile user result.1 = (result.1, Returned (Sent 200 (Some view)))
    ∧ store result.1 = store s
    ∧ (∀ i, i ≠ ac_id user → profiles result.1 !! i = profiles s !! i)
    ∧ password <$> profiles result.1 !! ac_id user = Some (password p)
    ∧ (∀ n, pu_name body = Some n → n ≠ "" → pv_name view = n)
    ∧ (pu_name body = None ∨ pu_name body = Some "" → pv_name view = name p)
    ∧ (∀ n, pu_phone body = Some n → n ≠ "" → pv_phone view = n)
    ∧ (pu_phone body = None ∨ pu_phone body = Some "" → pv_phone view = phone p)
    ∧ pv_id view = ac_id user
    ∧ pv_email view = email p
    ∧ pv_balance view = balance money
    ∧ pv_total_earnings view = total_earnings money
    ∧ pv_tasks_completed view = tasks_completed money
    ∧ pv_referrals_count view = referrals_count p
    ∧ pv_referral_code view = referral_code p.
Proof.
  intros Hp Hu Hpr result. subst result.
  unfold updateProfile, site_answering, attempt. site_step.
  set (s' := mkSite (store s) (alter (apply_updates body) (ac_id user) (profiles s))).
  assert (Hrows : account_rows (ac_id user) s'
                  = [mkAccount (ac_id user) money (apply_updates body p)]).
  { unfold account_rows. subst s'. cbn [store profiles].
    by rewrite Hu, lookup_alter_eq, Hpr. }
  rewrite Hrows. cbn [single data error]. unfold mret, SM_ret, site_ret.
  cbn [fst snd fmap option_fmap option_map].
  eexists. split; [reflexivity |].
  split; [by apply getProfile_healthy |].
  split; [reflexivity |].
  split; [intros i Hi; subst s'; cbn [profiles]; by rewrite lookup_alter_ne |].
  split; [subst s'; cbn [profiles]; by rewrite lookup_alter_eq, Hpr |].
  unfold profile_view, apply_updates. cbn.
  repeat split.
  - intros n -> Hn. cbn. by rewrite bool_decide_eq_false_2.
  - by intros [-> | ->].
  - intros n -> Hn. cbn. by rewrite bool_decide_eq_false_2.
  - by intros [-> | ->].
Qed.

Lemma profile_update_round_trip_witness :
  let user := mkAccount "rob" (mkUser 30000 30000 0 None)
                (mkProfile "rob@mail.co" "hash-of-rob" "Rob" "3002" 1 "ROB456") in
  let result := updateProfile user (mkProfileUpdate (Some "Roberto") (Some "")) demo_site in
  ∃ view : ProfileView,
    result.2 = Returned (Sent 200 ("Profile updated successfully", Some view))
    ∧ getProfile user result.1 = (result.1, Returned (Sent 200 (Some view)))
    ∧ store result.1 = store demo_site
    ∧ (∀ i, i ≠ "rob" → profiles result.1 !! i = profiles demo_site !! i)
    ∧ password <$> profiles result.1 !! "rob" = Some "hash-of-rob"
    ∧ (∀ n, Some "Roberto" = Some n → n ≠ "" → pv_name view = n)
    ∧ (Some "Roberto" = None ∨ Some "Roberto" = Some "" → pv_name view = "Rob")
    ∧ (∀ n, Some "" = Some n → n ≠ "" → pv_phone view = n)
    ∧ (Some "" = None ∨ Some "" = Some "" → pv_phone view = "3002")
    ∧ pv_id view = "rob"
    ∧ pv_email view = "rob@mail.co"
    ∧ pv_balance view = 30000
    ∧ pv_total_earnings view = 30000
    ∧ pv_tasks_completed view = 0
    ∧ pv_referrals_count view = 1
    ∧ pv_referral_code view = "ROB456".
Proof.
  apply (profile_update_round_trip
           (mkAccount "rob" (mkUser 30000 30000 0 None)
              (mkProfile "rob@mail.co" "hash-of-rob" "Rob" "3002" 1 "ROB456"))
           (mkProfileUpdate (Some "Roberto") (Some "")) demo_site
           (mkUser 30000 30000 0 None)
           (mkProfile "rob@mail.co" "hash-of-rob" "Rob" "3002" 1 "ROB456"));
    reflexivity.
Defined.

Lemma getUserStats_healthy (user : Account) (s : Site) :
  pending (store s) = [] →
  getUserStats user s
  = (s, Returned (Sent 200
       (mkUserStats
          ((λ row, mkStatsColumns (balance (ac_money row)) (total_earnings (ac_money row))
                     (tasks_completed (ac_money row)) (referrals_count (ac_profile row)))
           <$> data (single (account_rows (ac_id user) s)))
          (total bonus_earned (referrer_rows (ac_id user) (store s)))
          (recent_task_rows (ac_id user) (store s))))).
Proof.
  intros Hp. unfold getUserStats, site_answering, attempt. cbn zeta.
  site_step. unfold select_referrals_of, select_recent_tasks.
  rewrite on_store_round_trip_healthy by done. cbn [fst snd data].
  rewrite on_store_round_trip_healthy by done. cbn [fst snd data].
  by destruct s.
Qed.

(** X17. On a healthy store GET /stats of the users router answers 200
    and changes nothing; its [referral_earnings] is the total that GET
    /stats of the referrals router shows, which is the bonus part of the
    user's ledger; it lists at most ten recent tasks, each the reward of a
    completion of this user. *)
Theorem user_stats_agree_with_referral_stats (user : Account) (s : Site) :
  pending (store s) = [] →
  ∃ (stats : UserStats) (referral_stats : ReferralStats),
    getUserStats user s = (s, Returned (Sent 200 stats))
    ∧ getReferralStats (ac_id user) (store s)
      = (store s, Normal (Sent 200 referral_stats))
    ∧ us_referral_earnings stats = rs_total_earnings referral_stats
    ∧ us_referral_earnings stats = bonuses_sum (ac_id user) (store s)
    ∧ (length (us_recent_tasks stats) ≤ 10)%nat
    ∧ ∀ reward, reward ∈ us_recent_tasks stats →
        ∃ row, row ∈ user_tasks (store s)
               ∧ ut_user_id row = ac_id user ∧ ut_reward_amount row = reward.
Proof.
  intros Hp. eexists _, _.
  split; [by apply getUserStats_healthy |].
  split; [by apply getReferralStats_healthy |].
  cbn [us_referral_earnings rs_total_earnings us_recent_tasks].
  split; [reflexivity |].
  split; [apply bonuses_sum_rows |].
  unfold recent_task_rows. split.
  - rewrite length_take. lia.
  - intros reward Hin. apply elem_of_take in Hin as (i & Hin & _).
    apply list_elem_of_lookup_2 in Hin.
    apply list_elem_of_fmap in Hin as (row & -> & Hrow).
    apply elem_of_reverse, list_elem_of_filter in Hrow as [[Huser _] Hrow].
    by exists row.
Qed.

Lemma user_stats_agree_with_referral_stats_witness :
  let user := mkAccount "rob" (mkUser 30000 30000 0 None)
                (mkProfile "rob@mail.co" "hash-of-rob" "Rob" "3002" 1 "ROB456") in
  ∃ (stats : UserStats) (referral_stats : ReferralStats),
    getUserStats user demo_site = (demo_site, Returned (Sent 200 stats))
    ∧ getReferralStats "rob" (store demo_site)
      = (store demo_site, Normal (Sent 200 referral_stats))
    ∧ us_referral_earnings stats = rs_total_earnings referral_stats
    ∧ us_referral_earnings stats = bonuses_sum "rob" (store demo_site)
    ∧ (length (us_recent_tasks stats) ≤ 10)%nat
    ∧ ∀ reward, reward ∈ us_recent_tasks stats →
        ∃ row, row ∈ user_tasks (store demo_site)
               ∧ ut_user_id row = "rob" ∧ ut_reward_amount row = reward.
Proof.
  apply (user_stats_agree_with_referral_stats
           (mkAccount "rob" (mkUser 30000 30000 0 None)
              (mkProfile "rob@mail.co" "hash-of-rob" "Rob" "3002" 1 "ROB456"))
           demo_site).
  reflexivity.
Defined.

(** X18. A completion shows in the statistics.  After POST
    /:taskId/complete went through on a healthy store for a user who is
    not their own referrer, GET /stats answers the balance and the total
    earnings raised by the reward, one more completed task, the referral
    count as it was, and the reward first among the recent tasks. *)
Theorem stats_show_the_completion (user : Account) (taskId : Id) (s : Site)
    (money : User) (p : Profile) (task : Task) :
  pending (store s) = [] →
  users (store s) !! ac_id user = Some money →
  profiles s !! ac_id user = Some p →
  referred_by money ≠ Some (ac_id user) →
  tasks (store s) !! taskId = Some task →
  status task = "active" →
  user_task_rows (ac_id user) taskId (store s) = [] →
  let s' := (on_store (completeTask (ac_id user) taskId) s).1 in
  ∃ stats : UserStats,
    getUserStats user s' = (s', Returned (Sent 200 stats))
    ∧ us_user stats
      = Some (mkStatsColumns (balance money + reward task)
                (total_earnings money + reward task)
                (tasks_completed money + 1) (referrals_count p))
    ∧ head (us_recent_tasks stats) = Some (reward task).
Proof.
  intros Hp Hu Hpr Hself Ht Hactive Hrows s'.
  destruct (completeTask_pays (store s) (ac_id user) taskId task) as
    (w2 & w' & Heq & _ & _ & _ & _ & _ & _ & Hp2 & Heff);
    [by apply healthy_for_nil | done | done | by rewrite Hrows |].
  destruct (completeTask_pays_user (store s) (ac_id user) taskId money task) as
    (w'' & Heq' & Hus & Huts); [by apply healthy_for_nil | done.. |].
  rewrite Heq in Heq'. injection Heq' as <-.
  assert (Hs' : s' = mkSite w' (profiles s)).
  { subst s'. unfold on_store. by rewrite Heq. }
  assert (Hp' : pending (store s') = []).
  { rewrite Hs'. cbn [store]. destruct Heff as (_ & _ & _ & _ & Hpend & _). auto. }
  eexists. split; [by apply getUserStats_healthy |].
  cbn [us_user us_recent_tasks]. rewrite Hs'. cbn [store]. split.
  - unfold account_rows. cbn [store profiles]. by rewrite Hus, Hpr.
  - unfold recent_task_rows. rewrite Huts, filter_app, reverse_app.
    rewrite filter_cons_True by done. by rewrite filter_nil.
Qed.

Lemma stats_show_the_completion_witness :
  let user := mkAccount "rob" (mkUser 30000 30000 0 None)
                (mkProfile "rob@mail.co" "hash-of-rob" "Rob" "3002" 1 "ROB456") in
  let s' := (on_store (completeTask "rob" "t1") demo_site).1 in
  ∃ stats : UserStats,
    getUserStats user s' = (s', Returned (Sent 200 stats))
    ∧ us_user stats = Some (mkStatsColumns (30000 + 700) (30000 + 700) (0 + 1) 1)
    ∧ head (us_recent_tasks stats) = Some 700.
Proof.
  apply (stats_show_the_completion
           (mkAccount "rob" (mkUser 30000 30000 0 None)
              (mkProfile "rob@mail.co" "hash-of-rob" "Rob" "3002" 1 "ROB456"))
           "t1" demo_site (mkUser 30000 30000 0 None)
           (mkProfile "rob@mail.co" "hash-of-rob" "Rob" "3002" 1 "ROB456")
           (mkTask 700 "active"));
    try discriminate; reflexivity.
Defined.

(** ** A failed update after the insert *)

Lemma next_scheduled (w : World) (f : Fault) (rest : list Fault) :
  pending w = f :: rest → next w = f ∧ pending (drain w) = rest.
Proof. unfold next, drain. tables. by intros ->. Qed.

(** X19. A withdrawal is not atomic.  When the lookup of the balance and
    the insert of the withdrawal go through and the update of the balance
    then comes back with an error, the handler does not look at it: the
    withdrawal row is stored with its fee and the user's row keeps its whole
    balance, and unless the insert of the notification throws the request is
    answered 201. *)
Theorem failed_debit_keeps_the_withdrawal (w : World) (userId : Id) (amount : Z)
    (method account_info : string) (user : User) (rest : list Fault) :
  pending w = Healthy :: Healthy :: Fails :: rest →
  method ∈ ["paypal"; "nequi"] →
  account_info ≠ "" →
  MINIMUM_WITHDRAWAL ≤ amount →
  users w !! userId = Some user →
  amount ≤ balance user →
  let result :=
    requestWithdrawal userId
      (mkWithdrawalRequest (Some amount) (Some method) (Some account_info)) w in
  (head rest ≠ Some Throws →
   result.2
   = Normal (mkResponse 201
       (WithdrawalCreated "Withdrawal request created successfully"
          (Some (withdrawal_row userId amount method account_info)))))
  ∧ withdrawals result.1
    = withdrawals w ++ [withdrawal_row userId amount method account_info]
  ∧ users result.1 = users w
  ∧ balance_of userId result.1 = balance user.
Proof.
  intros Hp Hmethod Haccount Hmin Hu Hfunds result. subst result.
  destruct (next_scheduled _ _ _ Hp) as [N1 Hp1].
  destruct (next_scheduled _ _ _ Hp1) as [N2 Hp2].
  destruct (next_scheduled _ _ _ Hp2) as [N3 Hp3].
  assert (Hmethod' : method ≠ "").
  { intros ->. rewrite !elem_of_cons, elem_of_nil in Hmethod.
    by destruct Hmethod as [? | [? | []]]. }
  unfold requestWithdrawal, route, try_catch.
  cbn [wr_amount wr_method wr_account_info truthy_number truthy_string].
  destruct (Z.eqb_spec amount 0) as [-> | _]; [unfold MINIMUM_WITHDRAWAL in Hmin; lia |].
  rewrite !bool_decide_eq_false_2 by done.
  rewrite bool_decide_eq_true_2 by done. cbn [negb orb].
  destruct (Z.ltb_spec amount MINIMUM_WITHDRAWAL); [lia |].
  unfold_client.
  rewrite bind_unfold, round_trip_drain, N1. cbn [fst snd]. tables.
  rewrite Hu. change (data (single (option_list (Some user)))) with (Some user).
  cbv iota. destruct (Z.ltb_spec (balance user) amount); [lia |].
  rewrite bind_unfold, round_trip_drain, N2. cbn [fst snd data error].
  rewrite bind_unfold, round_trip_drain.
  erewrite (next_ext _ (drain (drain w))) by reflexivity. rewrite N3. cbn [fst snd].
  rewrite bind_unfold, round_trip_drain.
  erewrite (next_ext _ (drain (drain (drain w)))) by reflexivity.
  assert (N4 : next (drain (drain (drain w))) = default Healthy (head rest))
    by (unfold next; by rewrite Hp3).
  rewrite N4.
  destruct rest as [| [] rest']; cbn [head default from_option id fst snd];
    unfold ret, console_error, withdrawal_row, balance_of; cbn [fst snd]; tables;
    rewrite ?Hu; try done.
  rewrite !bind_unfold. cbn [fst snd]. tables. by rewrite Hu.
Qed.

Lemma failed_debit_keeps_the_withdrawal_witness :
  let result :=
    requestWithdrawal "rob"
      (mkWithdrawalRequest (Some 30000) (Some "nequi") (Some "3002"))
      (with_pending [Healthy; Healthy; Fails] demo_world) in
  (head [] ≠ Some Throws →
   result.2
   = Normal (mkResponse 201
       (WithdrawalCreated "Withdrawal request created successfully"
          (Some (withdrawal_row "rob" 30000 "nequi" "3002")))))
  ∧ withdrawals result.1
    = withdrawals (with_pending [Healthy; Healthy; Fails] demo_world)
      ++ [withdrawal_row "rob" 30000 "nequi" "3002"]
  ∧ users result.1 = users (with_pending [Healthy; Healthy; Fails] demo_world)
  ∧ balance_of "rob" result.1 = 30000.
Proof.
  apply (failed_debit_keeps_the_withdrawal
           (with_pending [Healthy; Healthy; Fails] demo_world) "rob" 30000 "nequi" "3002"
           (mkUser 30000 30000 0 None) []).
  - reflexivity.
  - apply list_elem_of_further, list_elem_of_here.
  - discriminate.
  - unfold MINIMUM_WITHDRAWAL. lia.
  - reflexivity.
  - simpl. lia.
Defined.

(** X20. A reward whose update fails is lost.  When the three first round
    trips of a completion go through and the update of the user's row then
    comes back with an error, the handler does not look at it: the
    completion is answered 200 with the reward and its record is stored,
    but the user's row is as before.  The record makes every retry on a
    healthy store answer 400 "Task already completed", so nothing pays the
    reward later. *)
Theorem unpaid_completion_is_final (w : World) (userId taskId : Id) (user : User)
    (task : Task) (rest : list Fault) :
  pending w = Healthy :: Healthy :: Healthy :: Fails :: rest →
  users w !! userId = Some user →
  referred_by user ≠ Some userId →
  tasks w !! taskId = Some task →
  status task = "active" →
  user_task_rows userId taskId w = [] →
  let result := completeTask userId taskId w in
  let retry := with_pending [] result.1 in
  result.2
  = Normal (json (TaskCompleted "Task completed successfully" (reward task)
                    (Some (mkUserTask userId taskId "completed" (reward task)))))
  ∧ user_tasks result.1
    = user_tasks w ++ [mkUserTask userId taskId "completed" (reward task)]
  ∧ users result.1 !! userId = Some user
  ∧ completeTask userId taskId retry
    = (retry, Normal (mkResponse 400 (Error "Task already completed"))).
Proof.
  intros Hp Hu Hself Ht Hs Hrows result retry. subst retry result.
  destruct (next_scheduled _ _ _ Hp) as [N1 Hp1].
  destruct (next_scheduled _ _ _ Hp1) as [N2 Hp2].
  destruct (next_scheduled _ _ _ Hp2) as [N3 Hp3].
  destruct (next_scheduled _ _ _ Hp3) as [N4 Hp4].
  assert (Hrun : ∃ w2 w',
    completeTask userId taskId w
    = (w', Normal (json (TaskCompleted "Task completed successfully" (reward task)
                           (Some (mkUserTask userId taskId "completed" (reward task))))))
    ∧ users w2 = users w ∧ tasks w2 = tasks w
    ∧ user_tasks w2
      = user_tasks w ++ [mkUserTask userId taskId "completed" (reward task)]
    ∧ engine_effect userId w2 w').
  { unfold completeTask, route, try_catch. unfold_client.
    rewrite bind_unfold, round_trip_drain, N1. cbn [fst snd].
    rewrite (active_task_rows_active (drain w) taskId task) by done.
    cbn [single data error].
    rewrite bind_unfold, round_trip_drain, N2. cbn [fst snd].
    change (user_task_rows userId taskId (drain (drain w)))
      with (user_task_rows userId taskId w).
    rewrite Hrows. change (data (single (@nil UserTask))) with (@None UserTask).
    cbv iota.
    rewrite bind_unfold, round_trip_drain, N3. cbn [fst snd data error].
    rewrite bind_unfold, round_trip_drain.
    erewrite (next_ext _ (drain (drain (drain w)))) by reflexivity. rewrite N4.
    cbn [fst snd]. rewrite bind_unfold.
    match goal with
    | |- context [checkReferralBonuses userId ?w2] =>
        destruct (checkReferralBonuses_effect userId w2) as (w' & Heq & Heff);
        rewrite Heq; exists w2, w'
    end.
    split; [reflexivity |]. tables. repeat (split; [done |]). exact Heff. }
  destruct Hrun as (w2 & w' & Heq & Hus & Hts & Huts & Heff).
  rewrite Heq. cbn [fst snd].
  pose proof Heff as (Hts' & Huts' & _).
  split; [reflexivity |].
  split; [by rewrite Huts' |].
  split; [eapply engine_keeps_user; [exact Heff | by rewrite Hus | done] |].
  apply (completeTask_already _ _ _ task
           (mkUserTask userId taskId "completed" (reward task))).
  - reflexivity.
  - tables. by rewrite Hts', Hts.
  - done.
  - unfold user_task_rows in *. tables. rewrite Huts', Huts, filter_app, Hrows.
    by rewrite filter_cons_True, filter_nil.
Qed.

Lemma unpaid_completion_is_final_witness :
  let w := with_pending [Healthy; Healthy; Healthy; Fails] demo_world in
  let result := completeTask "rob" "t1" w in
  let retry := with_pending [] result.1 in
  result.2
  = Normal (json (TaskCompleted "Task completed successfully" 700
                    (Some (mkUserTask "rob" "t1" "completed" 700))))
  ∧ user_tasks result.1 = user_tasks w ++ [mkUserTask "rob" "t1" "completed" 700]
  ∧ users result.1 !! "rob" = Some (mkUser 30000 30000 0 None)
  ∧ completeTask "rob" "t1" retry
    = (retry, Normal (mkResponse 400 (Error "Task already completed"))).
Proof.
  apply (unpaid_completion_is_final
           (with_pending [Healthy; Healthy; Healthy; Fails] demo_world) "rob" "t1"
           (mkUser 30000 30000 0 None) (mkTask 700 "active") []);
    try discriminate; reflexivity.
Defined.

(** ** Balance updates: the sign and the way back *)

Lemma updateBalance_applies (w : World) (userId : Id) (user : User) (amount : Z)
    (type : string) (description : option string) :
  pending w = [] →
  users w !! userId = Some user →
  amount ≠ 0 → type ≠ "" →
  updateBalance userId (mkBalanceRequest (Some amount) (Some type) description) w
  = (with_transactions
       (λ rows, rows ++ [transaction_row userId
                           (mkBalanceRequest (Some amount) (Some type) description)
                           type amount])
       (with_users (alter (apply_change type amount (balance_change type amount)) userId) w),
     Normal (mkResponse 200
       (BalanceUpdated "Balance updated successfully"
          (Some (balance user + balance_change type amount))
          (Some (if bool_decide (type = "add")
                 then total_earnings user + amount
                 else total_earnings user))))).
Proof.
  intros Hp Hu Hamount Htype.
  destruct (updateBalance_healthy w userId
              (mkBalanceRequest (Some amount) (Some type) description) Hp)
    as [[p Heq] | (a & t & [= <-] & [= <-] & _ & _ & [[Hnone _] | (u & Hu' & Heq)])].
  - exfalso. revert Heq. unfold updateBalance, route, try_catch. simpl.
    destruct (Z.eqb_spec amount 0); [done |]. simpl.
    rewrite bool_decide_eq_false_2 by done. simpl.
    fold (balance_change type amount).
    healthy_step. tables. rewrite lookup_alter_eq, Hu. simpl.
    healthy_step. discriminate.
  - congruence.
  - rewrite Hu in Hu'. by simplify_eq.
Qed.

(** X21. A credit followed by a debit of the same amount is no way back.
    On a healthy store, for a user whose row exists, 'add' of [A] and then
    'subtract' of [A] leave the balance where it was, but [total_earnings]
    stays raised by [A]; two transactions are appended, of [A] and of
    [-A], so the sum of the user's transactions is unchanged. *)
Theorem credit_then_debit_keeps_earnings (w : World) (userId : Id) (user : User)
    (A : Z) (note1 note2 : option string) :
  pending w = [] →
  users w !! userId = Some user →
  A ≠ 0 →
  let w1 := (updateBalance userId (mkBalanceRequest (Some A) (Some "add") note1) w).1 in
  let w2 := (updateBalance userId (mkBalanceRequest (Some A) (Some "subtract") note2) w1).1 in
  users w2 !! userId
  = Some (mkUser (balance user) (total_earnings user + A) (tasks_completed user)
            (referred_by user))
  ∧ tx_amount <$> transactions w2 = (tx_amount <$> transactions w) ++ [A; - A]
  ∧ transactions_sum userId w2 = transactions_sum userId w.
Proof.
  intros Hp Hu HA w1 w2. subst w2 w1.
  rewrite (updateBalance_applies w userId user A "add" note1) by done. cbn [fst].
  set (w1 := with_transactions _ _).
  assert (Hu1 : users w1 !! userId
                = Some (apply_change "add" A (balance_change "add" A) user)).
  { subst w1. tables. by rewrite lookup_alter_eq, Hu. }
  assert (Hp1 : pending w1 = []) by (subst w1; by tables).
  rewrite (updateBalance_applies w1 userId _ A "subtract" note2 Hp1 Hu1) by done.
  cbn [fst]. tables. split.
  - rewrite lookup_alter_eq, Hu1. unfold apply_change, balance_change. simpl.
    f_equal. f_equal. lia.
  - subst w1. tables. unfold transactions_sum. tables.
    unfold transaction_row, balance_change. simpl. split.
    + rewrite !fmap_app. simpl. by rewrite <- app_assoc.
    + rewrite !filter_app, !filter_cons_True, !filter_nil by done.
      unfold total. rewrite !foldr_app. simpl.
      replace (A + (- A + 0)) with 0 by lia. done.
Qed.

Lemma credit_then_debit_keeps_earnings_witness :
  let w1 := (updateBalance "rob" (mkBalanceRequest (Some 500) (Some "add") None)
               demo_world).1 in
  let w2 := (updateBalance "rob" (mkBalanceRequest (Some 500) (Some "subtract") None)
               w1).1 in
  users w2 !! "rob" = Some (mkUser 30000 (30000 + 500) 0 None)
  ∧ tx_amount <$> transactions w2 = (tx_amount <$> transactions demo_world) ++ [500; - 500]
  ∧ transactions_sum "rob" w2 = transactions_sum "rob" demo_world.
Proof.
  apply (credit_then_debit_keeps_earnings demo_world "rob" (mkUser 30000 30000 0 None)
           500 None None); [reflexivity | reflexivity | lia].
Defined.

(** X22. The handler of POST /balance/update checks that the amount is
    not zero and nothing else about it.  On a healthy store, for a user
    whose row exists, a debit of a negative amount [-A] raises the balance
    by [A] and leaves [total_earnings] alone, and an 'add' of [-A] lowers
    the balance and [total_earnings] by [A]; the transaction records the
    signed change with the type of the request. *)
Theorem balance_update_ignores_the_sign (w : World) (userId : Id) (user : User)
    (A : Z) (type : string) (note : option string) :
  pending w = [] →
  users w !! userId = Some user →
  0 < A →
  type ≠ "" → type ≠ "add" →
  let debit_result :=
    updateBalance userId (mkBalanceRequest (Some (- A)) (Some type) note) w in
  let add_result :=
    updateBalance userId (mkBalanceRequest (Some (- A)) (Some "add") note) w in
  debit_result.2
  = Normal (mkResponse 200
      (BalanceUpdated "Balance updated successfully"
         (Some (balance user + A)) (Some (total_earnings user))))
  ∧ users debit_result.1 !! userId
    = Some (mkUser (balance user + A) (total_earnings user) (tasks_completed user)
              (referred_by user))
  ∧ last (transactions debit_result.1)
    = Some (transaction_row userId (mkBalanceRequest (Some (- A)) (Some type) note) type (- A))
  ∧ tx_amount <$> last (transactions debit_result.1) = Some A
  ∧ add_result.2
    = Normal (mkResponse 200
        (BalanceUpdated "Balance updated successfully"
           (Some (balance user - A)) (Some (total_earnings user - A))))
  ∧ tx_amount <$> last (transactions add_result.1) = Some (- A).
Proof.
  intros Hp Hu HA Htype Hadd debit_result add_result. subst debit_result add_result.
  rewrite (updateBalance_applies w userId user (- A) type note) by (done || lia).
  rewrite (updateBalance_applies w userId user (- A) "add" note) by (done || lia).
  cbn [fst snd]. tables. rewrite lookup_alter_eq, Hu, !last_snoc.
  unfold transaction_row, apply_change, balance_change.
  rewrite (bool_decide_eq_false_2 (type = "add")) by done.
  rewrite (bool_decide_eq_true_2 ("add" = "add")) by done.
  cbn [fmap option_fmap option_map tx_amount].
  rewrite Z.opp_involutive.
  repeat split; repeat f_equal; lia.
Qed.

Lemma balance_update_ignores_the_sign_witness :
  let debit_result :=
    updateBalance "rob" (mkBalanceRequest (Some (- 500)) (Some "subtract") None)
      demo_world in
  let add_result :=
    updateBalance "rob" (mkBalanceRequest (Some (- 500)) (Some "add") None) demo_world in
  debit_result.2
  = Normal (mkResponse 200
      (BalanceUpdated "Balance updated successfully" (Some (30000 + 500)) (Some 30000)))
  ∧ users debit_result.1 !! "rob" = Some (mkUser (30000 + 500) 30000 0 None)
  ∧ last (transactions debit_result.1)
    = Some (transaction_row "rob"
              (mkBalanceRequest (Some (- 500)) (Some "subtract") None) "subtract" (- 500))
  ∧ tx_amount <$> last (transactions debit_result.1) = Some 500
  ∧ add_result.2
    = Normal (mkResponse 200
        (BalanceUpdated "Balance updated successfully"
           (Some (30000 - 500)) (Some (30000 - 500))))
  ∧ tx_amount <$> last (transactions add_result.1) = Some (- 500).
Proof.
  apply (balance_update_ignores_the_sign demo_world "rob" (mkUser 30000 30000 0 None)
           500 "subtract" None); try discriminate; try reflexivity.
Defined.

(** X23. A balance update for an id that has no row answers 500 "Failed
    to update balance": [.single()] finds no row, the handler throws, and
    no transaction is recorded and no row of [users] is created or
    changed. *)
Theorem balance_update_of_unknown_user (w : World) (userId : Id) (amount : Z)
    (type : string) (note : option string) :
  pending w = [] →
  users w !! userId = None →
  amount ≠ 0 → type ≠ "" →
  let result := updateBalance userId (mkBalanceRequest (Some amount) (Some type) note) w in
  result.2 = Normal (mkResponse 500 (Error "Failed to update balance"))
  ∧ users result.1 = users w
  ∧ transactions result.1 = transactions w.
Proof.
  intros Hp Hu Hamount Htype result. subst result.
  unfold updateBalance, route, try_catch, console_error. simpl.
  destruct (Z.eqb_spec amount 0); [done |]. simpl.
  rewrite bool_decide_eq_false_2 by done. simpl.
  healthy_step. tables. rewrite lookup_alter_eq, Hu. simpl.
  split; [reflexivity |]. split; [| reflexivity].
  apply map_eq. intros i. destruct (decide (i = userId)) as [-> | Hi].
  - by rewrite lookup_alter_eq, Hu.
  - by rewrite lookup_alter_ne.
Qed.

Lemma balance_update_of_unknown_user_witness :
  let result := updateBalance "eva" (mkBalanceRequest (Some 500) (Some "add") None)
                  demo_world in
  result.2 = Normal (mkResponse 500 (Error "Failed to update balance"))
  ∧ users result.1 = users demo_world
  ∧ transactions result.1 = transactions demo_world.
Proof.
  apply (balance_update_of_unknown_user demo_world "eva" 500 "add" None);
    try discriminate; reflexivity.
Defined.

(** ** What the money routes never do *)

(** X24. A task that is missing or not active is never completed.
    Whatever the store does, the completion is answered 404 "Task not
    found or inactive", or 500 when the lookup throws; no completion is
    recorded, no row of [users] changes and no referral is touched. *)
Theorem inactive_task_pays_nothing (w : World) (userId taskId : Id) :
  (∀ task, tasks w !! taskId = Some task → status task ≠ "active") →
  let result := completeTask userId taskId w in
  (result.2 = Normal (mkResponse 404 (Error "Task not found or inactive"))
   ∨ result.2 = Normal (mkResponse 500 (Error "Failed to complete task")))
  ∧ (next w ≠ Throws →
     result.2 = Normal (mkResponse 404 (Error "Task not found or inactive")))
  ∧ users result.1 = users w
  ∧ user_tasks result.1 = user_tasks w
  ∧ referrals result.1 = referrals w
  ∧ notifications result.1 = notifications w.
Proof.
  intros Hinactive result. subst result.
  assert (Hrows : active_task_rows taskId (drain w) = []).
  { unfold active_task_rows. tables.
    destruct (tasks w !! taskId) as [task|] eqn:Ht; [| done].
    rewrite decide_False; [done |]. by apply Hinactive. }
  unfold completeTask, route, try_catch, console_error. unfold_client.
  rewrite bind_unfold, round_trip_drain.
  destruct (next w); cbn [fst snd]; rewrite ?Hrows; cbn [single data error fst snd];
    tables; repeat split; auto; done.
Qed.

Lemma inactive_task_pays_nothing_witness :
  let w := mkWorld (users demo_world) {["t1" := mkTask 700 "paused"]} [] ∅ [] [] []
             [Fails] [] in
  let result := completeTask "rob" "t1" w in
  (result.2 = Normal (mkResponse 404 (Error "Task not found or inactive"))
   ∨ result.2 = Normal (mkResponse 500 (Error "Failed to complete task")))
  ∧ (next w ≠ Throws →
     result.2 = Normal (mkResponse 404 (Error "Task not found or inactive")))
  ∧ users result.1 = users w
  ∧ user_tasks result.1 = user_tasks w
  ∧ referrals result.1 = referrals w
  ∧ notifications result.1 = notifications w.
Proof.
  apply (inactive_task_pays_nothing
           (mkWorld (users demo_world) {["t1" := mkTask 700 "paused"]} [] ∅ [] [] []
              [Fails] []) "rob" "t1").
  intros task Ht. cbn [tasks] in Ht. apply lookup_singleton_Some in Ht as [_ <-].
  discriminate.
Defined.

(** X25. Whatever the body and whatever the store does, a withdrawal
    request debits no balance without storing the withdrawal: either it
    leaves [users] and [withdrawals] as they were, or it appended exactly
    the row of the request, for a supported method, an amount of at least
    the minimum and a user whose balance covered the amount, and the
    user's row is debited by the amount or, when the update failed,
    unchanged.  No other user's row changes. *)
Theorem withdrawal_debits_only_with_a_row (w : World) (userId : Id)
    (body : WithdrawalRequest) :
  let result := requestWithdrawal userId body w in
  (users result.1 = users w ∧ withdrawals result.1 = withdrawals w)
  ∨ ∃ amount method account_info user,
      body = mkWithdrawalRequest (Some amount) (Some method) (Some account_info)
      ∧ method ∈ ["paypal"; "nequi"]
      ∧ MINIMUM_WITHDRAWAL ≤ amount
      ∧ users w !! userId = Some user
      ∧ amount ≤ balance user
      ∧ withdrawals result.1
        = withdrawals w ++ [withdrawal_row userId amount method account_info]
      ∧ (users result.1 = users w
         ∨ users result.1 = alter (debit amount) userId (users w)).
Proof.
  intros result. subst result.
  unfold requestWithdrawal, route, try_catch, console_error.
  destruct body as [[amount|] [method|] [account_info|]];
    cbn [wr_amount wr_method wr_account_info]; try by left.
  destruct (negb _ || _ || _); [by left |].
  case_bool_decide as Hmethod; cbn [negb]; [| by left].
  destruct (Z.ltb_spec amount MINIMUM_WITHDRAWAL) as [| Hmin]; [by left |].
  fault_step; tables; try by left.
  destruct (users w !! userId) as [user|] eqn:Hu;
    [change (data (single (option_list (Some user)))) with (Some user)
    | change (data (single (option_list (@None User)))) with (@None User) ];
    cbv iota; [| by left].
  destruct (Z.ltb_spec (balance user) amount) as [| Hfunds]; [by left |].
  fault_step; tables; try by left.
  right. exists amount, method, account_info, user.
  repeat (split; [done |]).
  fault_step; (fault_step || rewrite bind_unfold); unfold ret; cbn [fst snd]; tables;
    (split; [reflexivity | auto]).
Qed.
